(** * Particle visualizer: the frame loop of [Visualizer] and the theme service

    A shallow embedding of [components/Visualizer.tsx], [services/geminiService.ts]
    and [types.ts].

    Conventions of the embedding.
    - A JavaScript [number] is an ideal rational ([Q]): the rounding and the
      overflow of IEEE doubles are outside the model.  The position and the
      velocity of a particle, and what is computed from them, are of type
      [number], a rational or NaN: the snap grid of CRYSTALLIZE divides by a
      spacing the theme decides, and with a spacing of 0 the result is NaN.
      The NaN [parseInt] returns is [None].
    - [Math.hypot], [Math.sin], [Math.cos], [Number::toString],
      [String.prototype.toUpperCase] and [JSON.parse] are host functions,
      the fields of the class [Host].
    - [Math.random] is an oracle: an infinite sequence of draws, consumed one
      by one in program order.
    - A JavaScript string is its sequence of UTF-16 code units.
    - A JavaScript exception is the [Throws] result of [JsResult]. *)

From Stdlib Require Import QArith Qround Qminmax Qabs ZArith NArith List String Ascii Bool.
From Stdlib Require Import DecimalString Lia Lqa.
Import ListNotations.

Set Warnings "-register-all".
Local Open Scope Q_scope.

(** ** Numbers *)

Definition Qltb (a b : Q) : bool := negb (Qle_bool b a).

(** [Math.floor] and [Math.round] (halves round towards +infinity). *)
Definition Math_floor (q : Q) : Z := Qfloor q.
Definition Math_round (q : Q) : Z := Qfloor (q + 0.5).

(** A number that may be NaN. *)
Inductive number : Type :=
| Num (q : Q)
| NaN.

Coercion Num : Q >-> number.

Declare Scope number_scope.
Delimit Scope number_scope with num.
Bind Scope number_scope with number.

(** Arithmetic: NaN in, NaN out. *)
Definition num_add (a b : number) : number :=
  match a, b with
  | Num x, Num y => Num (x + y)
  | _, _ => NaN
  end.

Definition num_sub (a b : number) : number :=
  match a, b with
  | Num x, Num y => Num (x - y)
  | _, _ => NaN
  end.

Definition num_mul (a b : number) : number :=
  match a, b with
  | Num x, Num y => Num (x * y)
  | _, _ => NaN
  end.

Infix "+" := num_add : number_scope.
Infix "-" := num_sub : number_scope.
Infix "*" := num_mul : number_scope.

(** [a < b] as the code tests it: false when either side is NaN. *)
Definition num_ltb (a b : number) : bool :=
  match a, b with
  | Num x, Num y => Qltb x y
  | _, _ => false
  end.

(** [Math.round(c / snapSize) * snapSize].  With a spacing of 0 the quotient
    is an infinity (or NaN, for 0 / 0), [Math.round] returns it as it is, and
    its product with 0 is NaN. *)
Definition snapTo (c : number) (snapSize : Q) : number :=
  match c with
  | Num x =>
      if Qeq_bool snapSize 0 then NaN
      else Num (inject_Z (Math_round (x / snapSize)) * snapSize)
  | NaN => NaN
  end.

(** ** Strings *)

(** A string is the list of its code units. *)
Definition jsstring := list N.

Definition str (s : string) : jsstring :=
  map N_of_ascii (list_ascii_of_string s).

Fixpoint jsstring_eqb (a b : jsstring) : bool :=
  match a, b with
  | [], [] => true
  | c :: a', d :: b' => (c =? d)%N && jsstring_eqb a' b'
  | _, _ => false
  end.

(** [s.slice(from, to)] for constant non-negative bounds. *)
Definition slice (s : jsstring) (from to : nat) : jsstring :=
  firstn (to - from) (skipn from s).

(** [StrWhiteSpaceChar]: the WhiteSpace and LineTerminator code points. *)
Definition isStrWhiteSpace (c : N) : bool :=
  ((9 <=? c) && (c <=? 13) || (c =? 32) || (c =? 160) || (c =? 5760)
   || (8192 <=? c) && (c <=? 8202) || (c =? 8232) || (c =? 8233)
   || (c =? 8239) || (c =? 8287) || (c =? 12288) || (c =? 65279))%N.

Fixpoint trimStart (s : jsstring) : jsstring :=
  match s with
  | c :: rest => if isStrWhiteSpace c then trimStart rest else s
  | [] => []
  end.

(** Value of a radix-16 digit, if the code unit is one. *)
Definition hexDigit (c : N) : option Z :=
  if ((48 <=? c) && (c <=? 57))%N then Some (Z.of_N c - 48)%Z
  else if ((65 <=? c) && (c <=? 70))%N then Some (Z.of_N c - 55)%Z
  else if ((97 <=? c) && (c <=? 102))%N then Some (Z.of_N c - 87)%Z
  else None.

(** The longest prefix of radix-16 digits, most significant first. *)
Fixpoint hexPrefix (s : jsstring) : list Z :=
  match s with
  | c :: rest =>
      match hexDigit c with
      | Some d => d :: hexPrefix rest
      | None => []
      end
  | [] => []
  end.

Definition hexValue (ds : list Z) : Z :=
  fold_left (fun acc d => 16 * acc + d)%Z ds 0%Z.

Definition stripSign (s : jsstring) : Z * jsstring :=
  match s with
  | 45%N :: rest => ((-1)%Z, rest)
  | 43%N :: rest => (1%Z, rest)
  | _ => (1%Z, s)
  end.

Definition stripHexPrefix (s : jsstring) : jsstring :=
  match s with
  | 48%N :: 120%N :: rest => rest
  | 48%N :: 88%N :: rest => rest
  | _ => s
  end.

(** [parseInt(s, 16)]; [None] is NaN. *)
Definition parseInt16 (s : jsstring) : option Z :=
  let (sign, body) := stripSign (trimStart s) in
  match hexPrefix (stripHexPrefix body) with
  | [] => None
  | ds => Some (sign * hexValue ds)%Z
  end.

(** [`${r}`] for the result of [parseInt]. *)
Definition showInt (r : option Z) : jsstring :=
  match r with
  | Some z => str (NilZero.string_of_int (Z.to_int z))
  | None => str "NaN"
  end.

(** ** Values and results *)

(** What [JSON.parse] can return, and [undefined]. *)
Inductive JsValue : Type :=
| JsUndefined
| JsNull
| JsBool (b : bool)
| JsNumber (q : Q)
| JsString (s : jsstring)
| JsArray (items : list JsValue)
| JsObject (fields : list (jsstring * JsValue)).

(** [ToBoolean]. *)
Definition truthy (v : JsValue) : bool :=
  match v with
  | JsUndefined | JsNull => false
  | JsBool b => b
  | JsNumber q => negb (Qeq_bool q 0)
  | JsString s => match s with [] => false | _ => true end
  | JsArray _ | JsObject _ => true
  end.

Fixpoint lookupField (key : jsstring) (fields : list (jsstring * JsValue)) : JsValue :=
  match fields with
  | (k, v) :: rest => if jsstring_eqb k key then v else lookupField key rest
  | [] => JsUndefined
  end.

(** [v.name] for a value other than [null] and [undefined]: an object has its
    fields, anything else has none of the names the component reads. *)
Definition field (name : string) (v : JsValue) : JsValue :=
  match v with
  | JsObject fields => lookupField (str name) fields
  | _ => JsUndefined
  end.

(** Whether React takes the value as a child of an element: text for a string
    or a number, nothing for a boolean, [null] or [undefined], the items of
    an array one by one; an object is refused with an error. *)
Fixpoint validChild (v : JsValue) : bool :=
  match v with
  | JsObject _ => false
  | JsArray items => forallb validChild items
  | _ => true
  end.

(** A call or a block either returns or throws. *)
Inductive JsResult (A : Type) : Type :=
| Returns (a : A)
| Throws (error : string).
Arguments Returns {A} a.
Arguments Throws {A} error.

(** ** The host *)

Class Host : Type := {
  Math_hypot : Q -> Q -> Q;
  Math_sin : Q -> Q;
  Math_cos : Q -> Q;
  Math_PI : Q;
  Number_toString : Q -> jsstring;
  String_toUpperCase : jsstring -> jsstring;
  (** [None]: [JSON.parse] throws a SyntaxError. *)
  JSON_parse : jsstring -> option JsValue
}.

(** The host functions on numbers that may be NaN. *)
Definition num_hypot {host : Host} (a b : number) : number :=
  match a, b with
  | Num x, Num y => Num (Math_hypot x y)
  | _, _ => NaN
  end.

Definition num_sin {host : Host} (a : number) : number :=
  match a with
  | Num x => Num (Math_sin x)
  | NaN => NaN
  end.

Definition num_cos {host : Host} (a : number) : number :=
  match a with
  | Num x => Num (Math_cos x)
  | NaN => NaN
  end.

(** [Math.random]: the draws still to come. *)
Definition Stream := nat -> Q.

(** Code that may draw random numbers and may throw. *)
Definition M (A : Type) : Type := Stream -> JsResult (A * Stream).

Definition ret {A} (a : A) : M A := fun s => Returns (a, s).

Definition bind {A B} (m : M A) (k : A -> M B) : M B :=
  fun s =>
    match m s with
    | Returns (a, s') => k a s'
    | Throws e => Throws e
    end.

Definition throw {A} (e : string) : M A := fun _ => Throws e.

Definition Math_random : M Q := fun s => Returns (s 0%nat, fun n => s (S n)).

Notation "x <- m ;; k" := (bind m (fun x => k))
  (at level 61, m at next level, right associativity).

(** [xs[i].field]: reading a property of [undefined] throws a TypeError. *)
Definition index {A} (xs : list A) (i : Z) : M A :=
  if (i <? 0)%Z then throw "TypeError"
  else match nth_error xs (Z.to_nat i) with
       | Some a => ret a
       | None => throw "TypeError"
       end.

(** ** types.ts *)

Module Point.
Record t : Type := mk { x : Q; y : Q }.
End Point.
Abbreviation Point := Point.t.

Inductive ParticleType : Type := STRUCTURE | STARDUST.

(** [ty === 'STRUCTURE'] and [ty === 'STARDUST']. *)
Definition isStructure (ty : ParticleType) : bool :=
  match ty with STRUCTURE => true | STARDUST => false end.

Definition isStardust (ty : ParticleType) : bool :=
  match ty with STRUCTURE => false | STARDUST => true end.

Module Particle.
Record t : Type := mk {
  x : number;
  y : number;
  vx : number;
  vy : number;
  size : Q;
  color : jsstring;
  life : Q;
  maxLife : Q;
  type : ParticleType
}.

Definition set_x (v : number) (p : t) : t :=
  mk v (y p) (vx p) (vy p) (size p) (color p) (life p) (maxLife p) (type p).
Definition set_y (v : number) (p : t) : t :=
  mk (x p) v (vx p) (vy p) (size p) (color p) (life p) (maxLife p) (type p).
Definition set_vx (v : number) (p : t) : t :=
  mk (x p) (y p) v (vy p) (size p) (color p) (life p) (maxLife p) (type p).
Definition set_vy (v : number) (p : t) : t :=
  mk (x p) (y p) (vx p) v (size p) (color p) (life p) (maxLife p) (type p).
Definition set_life (v : Q) (p : t) : t :=
  mk (x p) (y p) (vx p) (vy p) (size p) (color p) v (maxLife p) (type p).
Definition set_color (c : jsstring) (p : t) : t :=
  mk (x p) (y p) (vx p) (vy p) (size p) c (life p) (maxLife p) (type p).
End Particle.
Abbreviation Particle := Particle.t.

Inductive InteractionMode : Type := WEAVE | CRYSTALLIZE | FRAGMENT | VOID | RESONANCE.

(** The members of the string enum. *)
Definition modeName (m : InteractionMode) : jsstring :=
  match m with
  | WEAVE => str "WEAVE"
  | CRYSTALLIZE => str "CRYSTALLIZE"
  | FRAGMENT => str "FRAGMENT"
  | VOID => str "VOID"
  | RESONANCE => str "RESONANCE"
  end.

(** [v === InteractionMode.m]. *)
Definition isMode (v : JsValue) (m : InteractionMode) : bool :=
  match v with
  | JsString s => jsstring_eqb s (modeName m)
  | _ => false
  end.

(** [mode] is kept as the value the response carried: the cast in
    [generateThemeFromGesture] does not check it. *)
Record VisualTheme : Type := {
  primaryColor : jsstring;
  secondaryColor : jsstring;
  mode : JsValue;
  tension : Q;
  entropy : Q;
  geometryScale : Q;
  description : jsstring
}.

Definition themeValue (t : VisualTheme) : JsValue :=
  JsObject
    [ (str "primaryColor", JsString (primaryColor t));
      (str "secondaryColor", JsString (secondaryColor t));
      (str "mode", mode t);
      (str "tension", JsNumber (tension t));
      (str "entropy", JsNumber (entropy t));
      (str "geometryScale", JsNumber (geometryScale t));
      (str "description", JsString (description t)) ].

(** The value seen through the [VisualTheme] interface, when its fields have
    the declared types.  The [mode] is not checked against the enumeration,
    but it is a value the component can display: with any other the component
    does not outlive the render that shows it, and no frame runs. *)
Definition asVisualTheme (v : JsValue) : option VisualTheme :=
  match v with
  | JsObject fields =>
      match lookupField (str "primaryColor") fields,
            lookupField (str "secondaryColor") fields,
            lookupField (str "tension") fields,
            lookupField (str "entropy") fields,
            lookupField (str "geometryScale") fields,
            lookupField (str "description") fields with
      | JsString pc, JsString sc, JsNumber te, JsNumber en, JsNumber gs, JsString de =>
          if validChild (lookupField (str "mode") fields)
          then Some {| primaryColor := pc; secondaryColor := sc;
                       mode := lookupField (str "mode") fields;
                       tension := te; entropy := en; geometryScale := gs;
                       description := de |}
          else None
      | _, _, _, _, _, _ => None
      end
  | _ => None
  end.

(** ** The drawing surface *)

(** Calls and property writes on the 2-D context, in program order.  A
    coordinate may be that of a particle, and so NaN. *)
Inductive Canvas2D : Type :=
| SetFillStyle (style : jsstring)
| SetStrokeStyle (style : jsstring)
| SetLineWidth (w : Q)
| FillRect (x y : number) (w h : Q)
| BeginPath
| MoveTo (x y : number)
| LineTo (x y : number)
| Arc (x y : number) (radius startAngle endAngle : Q)
| Stroke
| Fill.

(** ** Visualizer.tsx: constants and state *)

Definition DEFAULT_THEME : VisualTheme :=
  {| primaryColor := str "#D4AF37";
     secondaryColor := str "#1A237E";
     mode := JsString (modeName WEAVE);
     tension := 1.0;
     entropy := 0.2;
     geometryScale := 100;
     description := str "Awaiting Input" |}.

Definition STRUCTURE_PARTICLE_COUNT : nat := 150.
Definition STARDUST_PARTICLE_COUNT : nat := 300.

(** The arguments of one call of [generateThemeFromGesture]. *)
Record ThemeRequest : Type := {
  handCount : nat;
  movementIntensity : Q;
  spread : Q
}.

(** What one animation frame reads from its environment. *)
Record Frame : Type := {
  time : Q;
  width : Q;
  height : Q;
  devicePixelRatio : Q;
  (** [None]: the landmarker or the video is not ready, no detection runs.
      [Some None]: [results.landmarks] is missing.
      [Some (Some hands)]: the landmarks of each detected hand. *)
  detection : option (option (list (list Point)))
}.

(** The component's state: [useState] cells, refs, and [lastTime] of the
    render effect. *)
Record Visualizer : Type := {
  theme : JsValue;
  geminiStatus : jsstring;
  particles : list Particle;
  handPoints : list Point;
  handSkeleton : list Point;
  lastThemeUpdate : Q;
  lastTime : Q
}.

(** What one step does to the outside: drawing calls, theme requests issued,
    and whether a promise callback threw. *)
Record Effects : Type := {
  drawn : list Canvas2D;
  requests : list ThemeRequest;
  rejected : bool
}.

Definition noEffects : Effects :=
  {| drawn := []; requests := []; rejected := false |}.

Definition andThen (a b : Effects) : Effects :=
  {| drawn := drawn a ++ drawn b;
     requests := requests a ++ requests b;
     rejected := rejected a || rejected b |}.

Definition set_theme (v : JsValue) (st : Visualizer) : Visualizer :=
  {| theme := v; geminiStatus := geminiStatus st; particles := particles st;
     handPoints := handPoints st; handSkeleton := handSkeleton st;
     lastThemeUpdate := lastThemeUpdate st; lastTime := lastTime st |}.

Definition set_geminiStatus (s : jsstring) (st : Visualizer) : Visualizer :=
  {| theme := theme st; geminiStatus := s; particles := particles st;
     handPoints := handPoints st; handSkeleton := handSkeleton st;
     lastThemeUpdate := lastThemeUpdate st; lastTime := lastTime st |}.

Definition set_particles (ps : list Particle) (st : Visualizer) : Visualizer :=
  {| theme := theme st; geminiStatus := geminiStatus st; particles := ps;
     handPoints := handPoints st; handSkeleton := handSkeleton st;
     lastThemeUpdate := lastThemeUpdate st; lastTime := lastTime st |}.

Definition set_hands (tips joints : list Point) (st : Visualizer) : Visualizer :=
  {| theme := theme st; geminiStatus := geminiStatus st; particles := particles st;
     handPoints := tips; handSkeleton := joints;
     lastThemeUpdate := lastThemeUpdate st; lastTime := lastTime st |}.

Definition set_lastThemeUpdate (t : Q) (st : Visualizer) : Visualizer :=
  {| theme := theme st; geminiStatus := geminiStatus st; particles := particles st;
     handPoints := handPoints st; handSkeleton := handSkeleton st;
     lastThemeUpdate := t; lastTime := lastTime st |}.

Definition set_lastTime (t : Q) (st : Visualizer) : Visualizer :=
  {| theme := theme st; geminiStatus := geminiStatus st; particles := particles st;
     handPoints := handPoints st; handSkeleton := handSkeleton st;
     lastThemeUpdate := lastThemeUpdate st; lastTime := t |}.

(** The response of the generative service to one request. *)
Inductive ApiOutcome : Type :=
| ApiRejected
| ApiResponse (text : option jsstring).

(** What happens to the mounted component: the host runs an animation
    frame, the promise of an earlier request settles at time [now], or the
    window is resized to [width] x [height] physical pixels. *)
Inductive Event : Type :=
| AnimationFrame (f : Frame)
| ThemeSettled (now : Q) (request : ThemeRequest) (api : ApiOutcome)
| Resized (width height dpr : Q).

(** Where an event leaves the component: running, with what it did; stopped
    by an exception; or outside what the embedding covers. *)
Inductive Outcome : Type :=
| Continues (st : Visualizer) (fx : Effects) (draws : Stream)
| Stops (error : string)
| Unmodelled.

Fixpoint repeatM {A} (n : nat) (m : M A) : M (list A) :=
  match n with
  | O => ret []
  | S n' => a <- m ;; rest <- repeatM n' m ;; ret (a :: rest)
  end.

Fixpoint mapM {A B} (f : A -> M B) (xs : list A) : M (list B) :=
  match xs with
  | [] => ret []
  | a :: rest => b <- f a ;; bs <- mapM f rest ;; ret (b :: bs)
  end.

(** ** initParticles *)

Definition newStructure (width height dpr : Q) : M Particle :=
  rx <- Math_random ;;
  ry <- Math_random ;;
  rvx <- Math_random ;;
  rvy <- Math_random ;;
  rsize <- Math_random ;;
  rlife <- Math_random ;;
  rmax <- Math_random ;;
  ret {| Particle.x := (rx * width)%Q;
         Particle.y := (ry * height)%Q;
         Particle.vx := ((rvx - 0.5) * 0.5 * dpr)%Q;
         Particle.vy := ((rvy - 0.5) * 0.5 * dpr)%Q;
         Particle.size := (rsize * 2 + 1) * dpr;
         Particle.color := primaryColor DEFAULT_THEME;
         Particle.life := rlife * 100;
         Particle.maxLife := 100 + rmax * 50;
         Particle.type := STRUCTURE |}.

Definition newStardust (width height dpr : Q) : M Particle :=
  rx <- Math_random ;;
  ry <- Math_random ;;
  rvx <- Math_random ;;
  rvy <- Math_random ;;
  rsize <- Math_random ;;
  rlife <- Math_random ;;
  rmax <- Math_random ;;
  ret {| Particle.x := (rx * width)%Q;
         Particle.y := (ry * height)%Q;
         Particle.vx := ((rvx - 0.5) * 0.1 * dpr)%Q;
         Particle.vy := ((rvy - 0.5) * 0.1 * dpr)%Q;
         Particle.size := (rsize * 1.5) * dpr;
         Particle.color := secondaryColor DEFAULT_THEME;
         Particle.life := rlife * 200;
         Particle.maxLife := 200 + rmax * 200;
         Particle.type := STARDUST |}.

Definition initParticles (width height dpr : Q) : M (list Particle) :=
  structure <- repeatM STRUCTURE_PARTICLE_COUNT (newStructure width height dpr) ;;
  stardust <- repeatM STARDUST_PARTICLE_COUNT (newStardust width height dpr) ;;
  ret (structure ++ stardust).

(** ** The particle step: lifespan *)

(** [p.life -= deltaTime * 0.05]. *)
Definition decay (deltaTime : Q) (p : Particle) : Particle :=
  Particle.set_life (Particle.life p - deltaTime * 0.05) p.

(** The respawn block, [if (p.life <= 0) { ... }]. *)
Definition respawn (width height scaleFactor : Q) (tips : list Point)
    (p : Particle) : M Particle :=
  if Qle_bool (Particle.life p) 0 then
    let p := Particle.set_life (Particle.maxLife p) p in
    match tips with
    | _ :: _ =>
        r <- Math_random ;;
        source <- index tips (Math_floor (r * inject_Z (Z.of_nat (List.length tips)))) ;;
        rx <- Math_random ;;
        let p := Particle.set_x
                   (Point.x source + (rx - 0.5) * 50 * scaleFactor)%Q p in
        ry <- Math_random ;;
        let p := Particle.set_y
                   (Point.y source + (ry - 0.5) * 50 * scaleFactor)%Q p in
        rvx <- Math_random ;;
        let p := Particle.set_vx
                   ((rvx - 0.5) * (if isStructure (Particle.type p) then 2 else 0.5)
                    * scaleFactor)%Q p in
        rvy <- Math_random ;;
        let p := Particle.set_vy
                   ((rvy - 0.5) * (if isStructure (Particle.type p) then 2 else 0.5)
                    * scaleFactor)%Q p in
        ret p
    | [] =>
        rx <- Math_random ;;
        let p := Particle.set_x (rx * width)%Q p in
        ry <- Math_random ;;
        let p := Particle.set_y (ry * height)%Q p in
        ret p
    end
  else ret p.

(** ** The particle step: integration and wrap *)

Definition damping (ty : ParticleType) : Q :=
  if isStructure ty then 0.92 else 0.98.

Definition integrate (fx fy : number) (p : Particle) : Particle :=
  let p := Particle.set_vx (Particle.vx p + fx) p in
  let p := Particle.set_vy (Particle.vy p + fy) p in
  let p := Particle.set_vx (Particle.vx p * damping (Particle.type p)) p in
  let p := Particle.set_vy (Particle.vy p * damping (Particle.type p)) p in
  let p := Particle.set_x (Particle.x p + Particle.vx p) p in
  let p := Particle.set_y (Particle.y p + Particle.vy p) p in
  p.

(** The two tests on one coordinate, [if (c < 0) c = bound; if (c > bound) c = 0].
    Both are false of NaN, which stays. *)
Definition wrapCoord (c : number) (bound : Q) : number :=
  let c := if num_ltb c 0 then Num bound else c in
  let c := if num_ltb bound c then Num 0 else c in
  c.

Definition wrap (width height : Q) (p : Particle) : Particle :=
  let p := Particle.set_x (wrapCoord (Particle.x p) width) p in
  let p := Particle.set_y (wrapCoord (Particle.y p) height) p in
  p.

Section Program.

Context {host : Host}.

(** ** hexToRgba *)

Definition hexToRgba (hex : jsstring) (alpha : Q) : jsstring :=
  let r := parseInt16 (slice hex 1 3) in
  let g := parseInt16 (slice hex 3 5) in
  let b := parseInt16 (slice hex 5 7) in
  str "rgba(" ++ showInt r ++ str ", " ++ showInt g ++ str ", "
    ++ showInt b ++ str ", " ++ Number_toString alpha ++ str ")".

(** ** The particle step: interaction field *)

(** The linear scan for the closest fingertip; [first] is [tips[0]].  The
    test [d < closestDist] is false of a distance that is NaN, so
    [closestDist] is always a number. *)
Definition nearestTarget (p : Particle) (tips : list Point) (first : Point)
    : Q * Point :=
  fold_left
    (fun best t =>
       match num_hypot (Point.x t - Particle.x p) (Point.y t - Particle.y p) with
       | Num d => if Qltb d (fst best) then (d, t) else best
       | NaN => best
       end)
    tips (99999, first).

(** The branch [p.type === 'STRUCTURE'] inside the interaction radius. *)
Definition structureForce (currentTheme : VisualTheme) (time scaleFactor : Q)
    (geometryDistance closestDist force : Q) (dx dy : number) (p : Particle)
    : number * number :=
  let fx : number := 0 in
  let fy : number := 0 in
  if isMode (mode currentTheme) WEAVE then
    let fx := (fx + dx * 0.02 * tension currentTheme * force)%num in
    let fy := (fy + dy * 0.02 * tension currentTheme * force)%num in
    let fx := (fx - dy * 0.05 * force)%num in
    let fy := (fy + dx * 0.05 * force)%num in
    (fx, fy)
  else if isMode (mode currentTheme) CRYSTALLIZE then
    let snapSize := geometryDistance in
    let snapX := snapTo (Particle.x p) snapSize in
    let snapY := snapTo (Particle.y p) snapSize in
    let fx := (fx + (snapX - Particle.x p) * 0.05)%num in
    let fy := (fy + (snapY - Particle.y p) * 0.05)%num in
    let fx := (fx + dx * 0.005)%num in
    let fy := (fy + dy * 0.005)%num in
    (fx, fy)
  else if isMode (mode currentTheme) FRAGMENT then
    if Qltb closestDist (200 * scaleFactor) then
      let fx := (fx - dx * 0.1 * force)%num in
      let fy := (fy - dy * 0.1 * force)%num in
      (fx, fy)
    else (fx, fy)
  else if isMode (mode currentTheme) VOID then
    let fx := (fx + dx * 0.08 * force)%num in
    let fy := (fy + dy * 0.08 * force)%num in
    (fx, fy)
  else
    let fx := (fx + num_sin (time * 0.01 + Particle.y p * 0.1) * 0.5 * scaleFactor)%num in
    let fy := (fy + num_cos (time * 0.01 + Particle.x p * 0.1) * 0.5 * scaleFactor)%num in
    (fx, fy).

(** The other branch, for STARDUST. *)
Definition stardustForce (currentTheme : VisualTheme) (scaleFactor : Q)
    (closestDist force : Q) (dx dy : number) : M (number * number) :=
  let fx : number := 0 in
  let fy : number := 0 in
  r1 <- Math_random ;;
  let fx := (fx + (r1 - 0.5) * entropy currentTheme * scaleFactor)%num in
  r2 <- Math_random ;;
  let fy := (fy + (r2 - 0.5) * entropy currentTheme * scaleFactor)%num in
  if Qltb closestDist (300 * scaleFactor) then
    let fx := (fx + dx * 0.002 * force)%num in
    let fy := (fy + dy * 0.002 * force)%num in
    ret (fx, fy)
  else ret (fx, fy).

(** [let fx = 0, fy = 0; if (tips.length > 0) { ... } else { ... }]. *)
Definition computeForce (currentTheme : VisualTheme) (time scaleFactor : Q)
    (tips : list Point) (p : Particle) : M (number * number) :=
  let geometryDistance := geometryScale currentTheme * scaleFactor in
  let interactionDistance := 300 * scaleFactor in
  let fx : number := 0 in
  let fy : number := 0 in
  match tips with
  | first :: _ =>
      let (closestDist, target) := nearestTarget p tips first in
      let dx := (Point.x target - Particle.x p)%num in
      let dy := (Point.y target - Particle.y p)%num in
      if Qltb closestDist interactionDistance then
        let force := 1 - closestDist / interactionDistance in
        if isStructure (Particle.type p) then
          ret (structureForce currentTheme time scaleFactor geometryDistance
                 closestDist force dx dy p)
        else stardustForce currentTheme scaleFactor closestDist force dx dy
      else ret (fx, fy)
  | [] =>
      let fx := (fx + num_sin (Particle.y p * 0.01 + time * 0.0005) * 0.01
                      * scaleFactor)%num in
      ret (fx, fy)
  end.

(** Lines up to the wrap: what one iteration does to [particles.current[i]]. *)
Definition updateParticle (currentTheme : VisualTheme) (f : Frame)
    (deltaTime scaleFactor : Q) (tips : list Point) (p : Particle) : M Particle :=
  let p := decay deltaTime p in
  p <- respawn (width f) (height f) scaleFactor tips p ;;
  force <- computeForce currentTheme (time f) scaleFactor tips p ;;
  let p := integrate (fst force) (snd force) p in
  ret (wrap (width f) (height f) p).

(** ** The particle step: drawing *)

(** One candidate of the connection scan.  The test [d < geometryDistance]
    is false of a distance that is NaN. *)
Definition drawLink (dpr geometryDistance alpha : Q) (baseColor : jsstring)
    (p p2 : Particle) : list Canvas2D :=
  if isStructure (Particle.type p2) then
    match num_hypot (Particle.x p2 - Particle.x p) (Particle.y p2 - Particle.y p) with
    | Num d =>
        if Qltb d geometryDistance then
          [ BeginPath;
            MoveTo (Particle.x p) (Particle.y p);
            LineTo (Particle.x p2) (Particle.y p2);
            SetStrokeStyle
              (hexToRgba baseColor (alpha * (1 - d / geometryDistance) * 0.5));
            SetLineWidth (0.5 * dpr);
            Stroke ]
        else []
    | NaN => []
    end
  else [].

(** Drawing of particle [i] after its update; [later] is
    [particles.current[i+1 ..]], which this frame has not updated yet.  The
    scan [j = i + 1; j < Math.min(i + 15, length)] visits its first 14. *)
Definition drawParticle (currentTheme : VisualTheme) (dpr geometryDistance : Q)
    (i : nat) (p : Particle) (later : list Particle) : list Canvas2D :=
  let alpha := Qmin (Particle.life p / 50) 1
               * (if isStardust (Particle.type p) then 0.6 else 1.0) in
  let baseColor := if isStructure (Particle.type p)
                   then primaryColor currentTheme
                   else secondaryColor currentTheme in
  if isStructure (Particle.type p) then
    [ SetFillStyle (hexToRgba baseColor alpha);
      FillRect (Particle.x p) (Particle.y p) (Particle.size p) (Particle.size p) ]
    ++ (if Nat.even i
        then flat_map (drawLink dpr geometryDistance alpha baseColor p) (firstn 14 later)
        else [])
  else
    [ BeginPath;
      Arc (Particle.x p) (Particle.y p) (Particle.size p) 0 (Math_PI * 2);
      SetFillStyle (hexToRgba baseColor (alpha * 0.5));
      Fill ].

(** [for (let i = 0; i < particles.current.length; i++)], from index [i] on
    the particles [ps]: each is updated in place, then drawn. *)
Fixpoint particleLoop (currentTheme : VisualTheme) (f : Frame)
    (deltaTime dpr : Q) (tips : list Point) (i : nat) (ps : list Particle)
    : M (list Particle * list Canvas2D) :=
  match ps with
  | [] => ret ([], [])
  | p :: later =>
      let scaleFactor := dpr in
      let geometryDistance := geometryScale currentTheme * scaleFactor in
      p' <- updateParticle currentTheme f deltaTime scaleFactor tips p ;;
      let cmds := drawParticle currentTheme dpr geometryDistance i p' later in
      rest <- particleLoop currentTheme f deltaTime dpr tips (S i) later ;;
      ret (p' :: fst rest, cmds ++ snd rest)
  end.

(** ** render: hand detection *)

Definition fingertips : list Z := [4; 8; 12; 16; 20]%Z.

(** Mirrored camera space to canvas pixels. *)
Definition toCanvas (width height : Q) (lm : Point) : Point :=
  {| Point.x := (1 - Point.x lm) * width; Point.y := Point.y lm * height |}.

(** [for (const landmarks of results.landmarks)], accumulating
    [tips], [joints] and [totalSpread]. *)
Fixpoint scanHands (width height : Q) (hands : list (list Point))
    (acc : list Point * list Point * Q) : M (list Point * list Point * Q) :=
  match hands with
  | [] => ret acc
  | landmarks :: rest =>
      let '(tips, joints, totalSpread) := acc in
      newTips <- mapM (fun i => lm <- index landmarks i ;;
                                ret (toCanvas width height lm)) fingertips ;;
      let newJoints := map (toCanvas width height) landmarks in
      l8 <- index landmarks 8 ;;
      l0 <- index landmarks 0 ;;
      let spreadRaw := Math_hypot (Point.x l8 - Point.x l0) (Point.y l8 - Point.y l0) in
      scanHands width height rest
        (tips ++ newTips, joints ++ newJoints, totalSpread + spreadRaw)
  end.

(** ** render: the theme trigger *)

Definition geminiTrigger (handCount : nat) (totalSpread time : Q)
    (st : Visualizer) : Visualizer * list ThemeRequest :=
  if (0 <? handCount)%nat && Qltb 4000 (time - lastThemeUpdate st) then
    let st := set_lastThemeUpdate time st in
    let st := set_geminiStatus (str "CALCULATING GEOMETRY...") st in
    let avgSpread := totalSpread / inject_Z (Z.of_nat handCount) in
    let normalizedSpread := Qmin (Qmax ((avgSpread - 0.15) * 3) 0) 1 in
    (st, [ {| handCount := handCount;
              movementIntensity := 0.5;
              spread := normalizedSpread |} ])
  else (st, []).

(** ** render: background and skeleton *)

(** [for (let i = 0; i < skeleton.length - 1; i += 1)] from index [i]. *)
Fixpoint skeletonSegments (i : nat) (skeleton : list Point) : list Canvas2D :=
  match skeleton with
  | p1 :: ((p2 :: _) as rest) =>
      (if (i mod 21 =? 20)%nat then []
       else [ MoveTo (Point.x p1) (Point.y p1); LineTo (Point.x p2) (Point.y p2) ])
      ++ skeletonSegments (S i) rest
  | _ => []
  end.

Definition drawSkeleton (currentTheme : VisualTheme) (dpr : Q)
    (skeleton : list Point) : list Canvas2D :=
  match skeleton with
  | _ :: _ =>
      [ BeginPath;
        SetStrokeStyle (hexToRgba (secondaryColor currentTheme) 0.1);
        SetLineWidth (1 * dpr) ]
      ++ skeletonSegments 0 skeleton ++ [ Stroke ]
  | [] => []
  end.

(** ** render *)

(** Blocks 1 and 2 of [render]: hand detection and, inside it, the theme
    trigger.  Nothing happens while the landmarker or the video is not ready. *)
Definition detectHands (st : Visualizer) (f : Frame)
    : M (Visualizer * list ThemeRequest) :=
  match detection f with
  | Some results =>
      let handCount := match results with
                       | Some hands => List.length hands
                       | None => O
                       end in
      scanned <- match results with
                 | Some hands => scanHands (width f) (height f) hands ([], [], 0)
                 | None => ret ([], [], 0)
                 end ;;
      let '(tips, joints, totalSpread) := scanned in
      let st := set_hands tips joints st in
      ret (geminiTrigger handCount totalSpread (time f) st)
  | None => ret (st, [])
  end.

(** One call of the frame callback with the theme its closure captured. *)
Definition render (currentTheme : VisualTheme) (st : Visualizer) (f : Frame)
    : M (Visualizer * Effects) :=
  let deltaTime := time f - lastTime st in
  let st := set_lastTime (time f) st in
  let dpr := if Qeq_bool (devicePixelRatio f) 0 then 1 else devicePixelRatio f in
  triggered <- detectHands st f ;;
  let st := fst triggered in
  let background :=
    [ SetFillStyle (str "rgba(5, 5, 5, 0.15)"); FillRect 0 0 (width f) (height f) ] in
  let tips := handPoints st in
  let skeleton := handSkeleton st in
  let bones := drawSkeleton currentTheme dpr skeleton in
  updated <- particleLoop currentTheme f deltaTime dpr tips 0 (particles st) ;;
  ret (set_particles (fst updated) st,
       {| drawn := background ++ bones ++ snd updated;
          requests := snd triggered;
          rejected := false |}).

(** ** geminiService.ts *)

(** The body of the [try], given what the service did; [JsNull] is [null]. *)
Definition generateThemeFromGesture (handCount : nat) (movementIntensity spread : Q)
    (api : ApiOutcome) : JsValue :=
  match api with
  | ApiRejected => JsNull
  | ApiResponse None => JsNull
  | ApiResponse (Some text) =>
      match text with
      | [] => JsNull
      | _ =>
          match JSON_parse text with
          | Some data => data
          | None => JsNull
          end
      end
  end.

(** ** The promise callback *)

(** [v.description.toUpperCase()]: [None] when it throws a TypeError. *)
Definition descriptionUpper (v : JsValue) : option jsstring :=
  let d := match v with
           | JsObject fields => lookupField (str "description") fields
           | _ => JsUndefined
           end in
  match d with
  | JsString s => Some (String_toUpperCase s)
  | _ => None
  end.

(** [newTheme => { if (newTheme) { setTheme(...); setGeminiStatus(...) } }].
    The flags tell whether [setTheme] ran and whether the callback threw. *)
Definition onTheme (newTheme : JsValue) (st : Visualizer) : Visualizer * bool * bool :=
  if truthy newTheme then
    let st := set_theme newTheme st in
    match descriptionUpper newTheme with
    | Some status => (set_geminiStatus status st, true, false)
    | None => (st, true, true)
    end
  else (st, false, false).

(** ** The mounted component *)

(** The JSX of the component under the theme [v], the line
    [Mode: {theme.mode} // Tension: {theme.tension.toFixed(2)}].  Evaluating it
    calls [toFixed] on [theme.tension], a TypeError unless that is a number;
    React then takes [theme.mode] as a child and throws an Error if it cannot.
    Nothing catches either, and React unmounts the component. *)
Definition view (v : JsValue) : JsResult unit :=
  match field "tension" v with
  | JsNumber _ =>
      if validChild (field "mode" v) then Returns tt else Throws "Error"
  | _ => Throws "TypeError"
  end.

(** A frame runs [render] with the current theme; a frame that throws ends
    the loop.  A settled promise runs the callback; if that replaced the
    theme, the component renders again: when the JSX throws, the component is
    unmounted and its loop cancelled, otherwise the render effect runs again
    and restarts the loop with [lastTime = now].  A resize replaces the
    particles.  Frames under a theme that is not a [VisualTheme] are outside
    the model. *)
Definition step (st : Visualizer) (e : Event) (draws : Stream) : Outcome :=
  match e with
  | AnimationFrame f =>
      match asVisualTheme (theme st) with
      | Some currentTheme =>
          match render currentTheme st f draws with
          | Returns (st', fx, draws') => Continues st' fx draws'
          | Throws error => Stops error
          end
      | None => Unmodelled
      end
  | ThemeSettled now request api =>
      let newTheme := generateThemeFromGesture (handCount request)
                        (movementIntensity request) (spread request) api in
      let '(st', changed, threw) := onTheme newTheme st in
      if changed then
        match view newTheme with
        | Returns _ =>
            Continues (set_lastTime now st')
              {| drawn := []; requests := []; rejected := threw |} draws
        | Throws error => Stops error
        end
      else Continues st' {| drawn := []; requests := []; rejected := threw |} draws
  | Resized width height dpr =>
      match initParticles width height dpr draws with
      | Returns (ps, draws') => Continues (set_particles ps st) noEffects draws'
      | Throws error => Stops error
      end
  end.

Fixpoint run (st : Visualizer) (events : list Event) (draws : Stream) : Outcome :=
  match events with
  | [] => Continues st noEffects draws
  | e :: rest =>
      match step st e draws with
      | Continues st' fx draws' =>
          match run st' rest draws' with
          | Continues st'' fx' draws'' => Continues st'' (andThen fx fx') draws''
          | other => other
          end
      | other => other
      end
  end.

End Program.

(** ** A host for closed examples *)

(** Square root to six decimals, through the integer square root. *)
Definition sqrtApprox (q : Q) : Q :=
  inject_Z (Z.sqrt (Qfloor (q * 1000000000000))) / 1000000.

(** Taylor polynomials around 0, good enough for small arguments. *)
Definition sinApprox (a : Q) : Q :=
  Qred (a - a * a * a / 6 + a * a * a * a * a / 120).

Definition cosApprox (a : Q) : Q :=
  Qred (1 - a * a / 2 + a * a * a * a / 24).

(** Upper-casing of the ASCII letters. *)
Definition upperAscii (s : jsstring) : jsstring :=
  map (fun c => if ((97 <=? c) && (c <=? 122))%N then (c - 32)%N else c) s.

(** Decimal digits of [n / d] after the point, at most [fuel] of them. *)
Fixpoint fractionDigits (fuel : nat) (n d : Z) : list N :=
  match fuel with
  | O => []
  | S fuel' =>
      if (n =? 0)%Z then []
      else Z.to_N (48 + (10 * n) / d) :: fractionDigits fuel' ((10 * n) mod d) d
  end.

(** Positional decimal notation of a rational, to 17 fractional digits. *)
Definition showDecimal (q : Q) : jsstring :=
  let n := Z.abs (Qnum q) in
  let d := Z.pos (Qden q) in
  let whole := str (NilZero.string_of_int (Z.to_int (n / d))) in
  let frac := fractionDigits 17 (n mod d) d in
  (if (Qnum q <? 0)%Z then str "-" else [])
    ++ whole ++ (match frac with [] => [] | _ => str "." ++ frac end).

(** A name or string value between double quotes. *)
Definition quoted (s : string) : jsstring := [34%N] ++ str s ++ [34%N].

(** The one theme document the example parser knows. *)
Definition sampleDocument : jsstring :=
  str "{" ++ quoted "primaryColor" ++ str ":" ++ quoted "#C2B280"
    ++ str "," ++ quoted "secondaryColor" ++ str ":" ++ quoted "#003366"
    ++ str "," ++ quoted "mode" ++ str ":" ++ quoted "VOID"
    ++ str "," ++ quoted "tension" ++ str ":0.5"
    ++ str "," ++ quoted "entropy" ++ str ":0.4"
    ++ str "," ++ quoted "geometryScale" ++ str ":80"
    ++ str "," ++ quoted "description" ++ str ":" ++ quoted "quiet gravity well"
    ++ str "}".

Definition sampleTheme : VisualTheme :=
  {| primaryColor := str "#C2B280";
     secondaryColor := str "#003366";
     mode := JsString (modeName VOID);
     tension := 0.5;
     entropy := 0.4;
     geometryScale := 80;
     description := str "quiet gravity well" |}.

#[export] Instance exampleHost : Host :=
  {| Math_hypot := fun a b => sqrtApprox (a * a + b * b);
     Math_sin := sinApprox;
     Math_cos := cosApprox;
     Math_PI := 3.141592653589793;
     Number_toString := showDecimal;
     String_toUpperCase := upperAscii;
     JSON_parse := fun text =>
       if jsstring_eqb text sampleDocument then Some (themeValue sampleTheme)
       else if jsstring_eqb text (str "{}") then Some (JsObject [])
       else if jsstring_eqb text (str "null") then Some JsNull
       else None |}.

(** Every draw is the same number. *)
Definition constantDraws (r : Q) : Stream := fun _ => r.

(** ** Vocabulary of the statements *)

(** [Math.random] returns numbers in [0, 1). *)
Definition unitDraws (s : Stream) : Prop :=
  forall n, 0 <= s n /\ s n < 1.

(** [m] returns, whatever the draws, with a result that satisfies [P]. *)
Definition total {A} (m : M A) (P : A -> Prop) : Prop :=
  forall s, unitDraws s ->
    exists a s', m s = Returns (a, s') /\ unitDraws s' /\ P a.

(** Order and equality of numbers that may be NaN: no order holds of NaN,
    and NaN is the same value as NaN only. *)
Definition num_lt (a b : number) : Prop :=
  match a, b with
  | Num x, Num y => x < y
  | _, _ => False
  end.

Definition num_le (a b : number) : Prop :=
  match a, b with
  | Num x, Num y => x <= y
  | _, _ => False
  end.

Definition num_eq (a b : number) : Prop :=
  match a, b with
  | Num x, Num y => x == y
  | NaN, NaN => True
  | _, _ => False
  end.

Infix "<" := num_lt : number_scope.
Infix "<=" := num_le : number_scope.
Infix "==" := num_eq (at level 70, no associativity) : number_scope.

Definition num_abs (a : number) : number :=
  match a with
  | Num x => Num (Qabs x)
  | NaN => NaN
  end.

(** A particle whose position is a pair of numbers, and one whose velocity
    is, too. *)
Definition placed (p : Particle) : Prop :=
  Particle.x p <> NaN /\ Particle.y p <> NaN.

Definition numeric (p : Particle) : Prop :=
  placed p /\ Particle.vx p <> NaN /\ Particle.vy p <> NaN.

Definition inBox (width height : Q) (p : Particle) : Prop :=
  ((0 <= Particle.x p)%num /\ (Particle.x p <= width)%num)
  /\ ((0 <= Particle.y p)%num /\ (Particle.y p <= height)%num).

Definition inHalfOpenBox (width height : Q) (p : Particle) : Prop :=
  ((0 <= Particle.x p)%num /\ (Particle.x p < width)%num)
  /\ ((0 <= Particle.y p)%num /\ (Particle.y p < height)%num).

(** What [initParticles] establishes for the lifespan. *)
Definition lifeBand (p : Particle) : Prop :=
  (0 <= Particle.life p /\ Particle.life p <= Particle.maxLife p)
  /\ 0 < Particle.maxLife p.

Definition alive (p : Particle) : Prop :=
  0 < Particle.life p /\ Particle.life p <= Particle.maxLife p.

(** The detector hands over 21 landmarks per hand. *)
Definition fullHand (landmarks : list Point) : Prop :=
  (21 <= List.length landmarks)%nat.

Definition sensed (f : Frame) : Prop :=
  match detection f with
  | Some (Some hands) => Forall fullHand hands
  | _ => True
  end.

(** The number of hands a frame detected. *)
Definition handsSeen (f : Frame) : nat :=
  match detection f with
  | Some (Some hands) => List.length hands
  | _ => O
  end.

(** A mode value that none of the four comparisons of the dispatch accepts. *)
Definition unrecognized (v : JsValue) : Prop :=
  isMode v WEAVE = false /\ isMode v CRYSTALLIZE = false
  /\ isMode v FRAGMENT = false /\ isMode v VOID = false.

Definition set_mode (v : JsValue) (t : VisualTheme) : VisualTheme :=
  {| primaryColor := primaryColor t; secondaryColor := secondaryColor t;
     mode := v; tension := tension t; entropy := entropy t;
     geometryScale := geometryScale t; description := description t |}.

(** [#RRGGBB]: a hash sign and six radix-16 digits. *)
Definition isHexDigit (c : N) : bool :=
  match hexDigit c with Some _ => true | None => false end.

Definition wellFormedHex (hex : jsstring) : bool :=
  match hex with
  | [h; r1; r2; g1; g2; b1; b2] =>
      (h =? 35)%N && forallb isHexDigit [r1; r2; g1; g2; b1; b2]
  | _ => false
  end.

(** The string [hexToRgba] builds from three parsed channels. *)
Definition rgbaText {host : Host} (r g b : option Z) (alpha : Q) : jsstring :=
  str "rgba(" ++ showInt r ++ str ", " ++ showInt g ++ str ", "
    ++ showInt b ++ str ", " ++ Number_toString alpha ++ str ")".

(** The same for three numeric channels: the text of a colour. *)
Definition rgbaOf {host : Host} (r g b : Z) (alpha : Q) : jsstring :=
  rgbaText (Some r) (Some g) (Some b) alpha.

(** A channel [parseInt] can produce from a slice of two code units. *)
Definition channelRange (c : option Z) : Prop :=
  match c with
  | Some z => (-255 <= z <= 255)%Z
  | None => True
  end.

(** The code units below 128, where the digits are. *)
Definition asciiUnits : list N := map N.of_nat (seq 0 128).

(** [parseInt] of two radix-16 digits is their value. *)
Definition twoDigitsParse (a b : N) : bool :=
  match hexDigit a, hexDigit b with
  | Some d1, Some d2 =>
      match parseInt16 [a; b] with
      | Some z => (z =? 16 * d1 + d2)%Z && (0 <=? z)%Z && (z <=? 255)%Z
      | None => false
      end
  | _, _ => true
  end.

(** Distance from the particle to a fingertip, as the scan computes it. *)
Definition reach {host : Host} (p : Particle) (t : Point) : number :=
  num_hypot (Point.x t - Particle.x p) (Point.y t - Particle.y p).

(** [dist] is the distance from [p] to a closest point of [tips]. *)
Definition nearestDistance {host : Host} (p : Particle) (tips : list Point)
    (dist : Q) : Prop :=
  (exists t, In t tips /\ (dist == reach p t)%num)
  /\ (forall t, In t tips -> (dist <= reach p t)%num).

(** The ways a theme request fails: the call rejects, the response has no
    text, the text is not JSON, or it is JSON for a falsy value ([null],
    [false], [0] or the empty string). *)
Definition failedRequest {host : Host} (api : ApiOutcome) : Prop :=
  match api with
  | ApiRejected => True
  | ApiResponse None => True
  | ApiResponse (Some text) =>
      text = [] \/ JSON_parse text = None
      \/ exists v, JSON_parse text = Some v /\ truthy v = false
  end.

(** No frame of [events] is later than 4000 ms after [issued]. *)
Definition withinCooldown (issued : Q) (events : list Event) : Prop :=
  Forall (fun e => match e with
                   | AnimationFrame f => time f - issued <= 4000
                   | ThemeSettled _ _ _ | Resized _ _ _ => True
                   end) events.

(** The clock never runs backwards: every timed event is at or after the
    one before it, the first at or after [t]. *)
Fixpoint chronological (t : Q) (events : list Event) : Prop :=
  match events with
  | [] => True
  | AnimationFrame f :: rest => t <= time f /\ chronological (time f) rest
  | ThemeSettled now _ _ :: rest => t <= now /\ chronological now rest
  | Resized _ _ _ :: rest => chronological t rest
  end.

(** Events that keep the component inside the model: frames with full hands
    on a canvas of non-negative size, and responses that are falsy or a
    [VisualTheme]. *)
Definition modelled {host : Host} (e : Event) : Prop :=
  match e with
  | AnimationFrame f => sensed f /\ 0 <= width f /\ 0 <= height f
  | ThemeSettled _ request api =>
      let v := generateThemeFromGesture (handCount request)
                 (movementIntensity request) (spread request) api in
      truthy v = false \/ asVisualTheme v <> None
  | Resized _ _ _ => True
  end.

(** The snap grid of CRYSTALLIZE has a spacing other than 0: the one division
    of the particle step whose divisor the theme decides.  (The other factor
    of the spacing, the scale, is never 0 in a frame.) *)
Definition gridSpaced (t : VisualTheme) : Prop :=
  isMode (mode t) CRYSTALLIZE = true -> ~ geometryScale t == 0.

(** The same particle with another stored colour. *)
Definition recolor (paint : jsstring -> jsstring) (p : Particle) : Particle :=
  Particle.set_color (paint (Particle.color p)) p.

(** The component with its particles repainted. *)
Definition repaint (paint : jsstring -> jsstring) (st : Visualizer) : Visualizer :=
  set_particles (map (recolor paint) (particles st)) st.

(** A result seen through [g]. *)
Definition mapReturned {A B} (g : A -> B) (r : JsResult (A * Stream))
    : JsResult (B * Stream) :=
  match r with
  | Returns (a, s) => Returns (g a, s)
  | Throws error => Throws error
  end.

(** The colour text a drawing command installs, if it installs one. *)
Definition styleOf (cmd : Canvas2D) : option jsstring :=
  match cmd with
  | SetFillStyle style | SetStrokeStyle style => Some style
  | _ => None
  end.

(** The fields no frame writes. *)
Definition sameIdentity (p p' : Particle) : Prop :=
  Particle.size p' = Particle.size p /\ Particle.maxLife p' = Particle.maxLife p
  /\ Particle.type p' = Particle.type p /\ Particle.color p' = Particle.color p.

(** What the respawn block makes of an exhausted particle: it restarts at
    [maxLife], near a fingertip with a fresh velocity, or anywhere on the
    canvas with the old one. *)
Definition respawned (width height scaleFactor : Q) (tips : list Point)
    (p p' : Particle) : Prop :=
  Particle.life p' = Particle.maxLife p
  /\ match tips with
     | [] =>
         exists rx ry,
           (0 <= rx /\ rx < 1) /\ (0 <= ry /\ ry < 1)
           /\ Particle.x p' = rx * width /\ Particle.y p' = ry * height
           /\ Particle.vx p' = Particle.vx p /\ Particle.vy p' = Particle.vy p
     | _ :: _ =>
         exists source rx ry rvx rvy,
           In source tips
           /\ (0 <= rx /\ rx < 1) /\ (0 <= ry /\ ry < 1)
           /\ (0 <= rvx /\ rvx < 1) /\ (0 <= rvy /\ rvy < 1)
           /\ Particle.x p' = Point.x source + (rx - 0.5) * 50 * scaleFactor
           /\ Particle.y p' = Point.y source + (ry - 0.5) * 50 * scaleFactor
           /\ Particle.vx p'
              = (rvx - 0.5) * (if isStructure (Particle.type p) then 2 else 0.5)
                * scaleFactor
           /\ Particle.vy p'
              = (rvy - 0.5) * (if isStructure (Particle.type p) then 2 else 0.5)
                * scaleFactor
     end.

(** How a frame with time step [deltaTime] relates a particle to its update:
    a position that is a pair of numbers is in the closed box. *)
Definition updated (f : Frame) (deltaTime : Q) (p p' : Particle) : Prop :=
  sameIdentity p p'
  /\ (placed p' -> inBox (width f) (height f) p')
  /\ ((0 < Particle.life p - deltaTime * 0.05
       /\ Particle.life p' = Particle.life p - deltaTime * 0.05)
      \/ (Particle.life p - deltaTime * 0.05 <= 0
          /\ Particle.life p' = Particle.maxLife p)).

(** What the trigger of a frame did with the cooldown. *)
Definition triggered (st : Visualizer) (f : Frame) (st' : Visualizer)
    (fx : Effects) : Prop :=
  ((0 < handsSeen f)%nat /\ 4000 < time f - lastThemeUpdate st ->
     lastThemeUpdate st' = time f
     /\ exists request,
          requests fx = [request]
          /\ handCount request = handsSeen f
          /\ movementIntensity request = 0.5)
  /\ (handsSeen f = O \/ time f - lastThemeUpdate st <= 4000 ->
        lastThemeUpdate st' = lastThemeUpdate st /\ requests fx = []).

(** What [render] leaves behind. *)
Definition rendered (st : Visualizer) (f : Frame) (r : Visualizer * Effects) : Prop :=
  Forall2 (updated f (time f - lastTime st)) (particles st) (particles (fst r))
  /\ theme (fst r) = theme st
  /\ lastTime (fst r) = time f
  /\ triggered st f (fst r) (snd r)
  /\ rejected (snd r) = false.

(** Whether a frame has stepped the particles the component holds after
    [events], given whether one had before: a frame has, a resize creates new
    particles, a settled promise leaves them alone. *)
Fixpoint steppedAfter (events : list Event) (before : Prop) : Prop :=
  match events with
  | [] => before
  | AnimationFrame _ :: rest => steppedAfter rest True
  | ThemeSettled _ _ _ :: rest => steppedAfter rest before
  | Resized _ _ _ :: rest => steppedAfter rest False
  end.

(** ** Data for closed examples *)

(** What a computation returned, if it did. *)
Definition returned {A} (r : JsResult (A * Stream)) : option A :=
  match r with
  | Returns (a, _) => Some a
  | Throws _ => None
  end.

(** 21 landmarks on a line. *)
Definition flatHand : list Point :=
  map (fun i => {| Point.x := 0.3 + inject_Z (Z.of_nat i) * 0.01; Point.y := 0.5 |})
      (seq 0 21).

(** A frame at 5000 ms that sees one hand. *)
Definition handFrame : Frame :=
  {| time := 5000; width := 800; height := 600; devicePixelRatio := 1;
     detection := Some (Some [flatHand]) |}.

(** A STRUCTURE particle that integration has carried past the left edge. *)
Definition straying : Particle :=
  {| Particle.x := -1.34; Particle.y := 300; Particle.vx := -1.84; Particle.vy := 0;
     Particle.size := 2; Particle.color := str "#D4AF37";
     Particle.life := 50; Particle.maxLife := 120; Particle.type := STRUCTURE |}.

(** A STARDUST particle with 1 unit of life left, drifting at (7, -3). *)
Definition fading : Particle :=
  {| Particle.x := 100; Particle.y := 200; Particle.vx := 7; Particle.vy := -3;
     Particle.size := 1; Particle.color := str "#1A237E";
     Particle.life := 1; Particle.maxLife := 250; Particle.type := STARDUST |}.

(** A STRUCTURE particle in the middle of its life. *)
Definition steady : Particle :=
  {| Particle.x := 400; Particle.y := 300; Particle.vx := 0.2; Particle.vy := -0.1;
     Particle.size := 2; Particle.color := str "#D4AF37";
     Particle.life := 60; Particle.maxLife := 120; Particle.type := STRUCTURE |}.

(** The component after mount, with three particles instead of 450. *)
Definition mounted : Visualizer :=
  {| theme := themeValue DEFAULT_THEME;
     geminiStatus := str "NEURAL LINK IDLE";
     particles := [steady; fading; straying];
     handPoints := [];
     handSkeleton := [];
     lastThemeUpdate := 0;
     lastTime := 0 |}.

(** A later frame, 16 ms after the response arrived, with the same hand. *)
Definition laterFrame : Frame :=
  {| time := 5216; width := 800; height := 600; devicePixelRatio := 1;
     detection := Some (Some [flatHand]) |}.

(** The request the frame at 5000 ms issues. *)
Definition sampleRequest : ThemeRequest :=
  {| handCount := 1; movementIntensity := 0.5; spread := 0 |}.

(** A frame, the answer to its request, and the next frame. *)
Definition sampleSession : list Event :=
  [ AnimationFrame handFrame;
    ThemeSettled 5200 sampleRequest (ApiResponse (Some sampleDocument));
    AnimationFrame laterFrame ].

(** A frame the host stamps with 5197 ms, 3 ms before the time the loop
    read from [performance.now()] when the response at 5200 ms restarted it. *)
Definition earlyFrame : Frame :=
  {| time := 5197; width := 800; height := 600; devicePixelRatio := 1;
     detection := Some (Some [flatHand]) |}.

(** A frame, the answer to its request, and a frame stamped before the
    restart. *)
Definition rewoundSession : list Event :=
  [ AnimationFrame handFrame;
    ThemeSettled 5200 sampleRequest (ApiResponse (Some sampleDocument));
    AnimationFrame earlyFrame ].

(** A number with its fraction in lowest terms, to compare computed values. *)
Definition lowestTerms (n : number) : number :=
  match n with
  | Num q => Num (Qred q)
  | NaN => NaN
  end.

(** The default theme in CRYSTALLIZE mode on a grid of spacing 0. *)
Definition flatGrid : VisualTheme :=
  {| primaryColor := str "#D4AF37";
     secondaryColor := str "#1A237E";
     mode := JsString (modeName CRYSTALLIZE);
     tension := 1.0;
     entropy := 0.2;
     geometryScale := 0;
     description := str "Awaiting Input" |}.

(** The same after a resize to 800 x 600 at device pixel ratio 1. *)
Definition resizedSession : list Event :=
  Resized 800 600 1 :: sampleSession.

(** ** Vocabulary of the further properties *)

(** One result of [Math.random]. *)
Definition unitDraw (r : Q) : Prop := 0 <= r /\ r < 1.

(** A particle as the first loop of [initParticles] pushes it. *)
Definition seededStructure (width height dpr : Q) (p : Particle) : Prop :=
  exists rx ry rvx rvy rsize rlife rmax,
    (unitDraw rx /\ unitDraw ry /\ unitDraw rvx /\ unitDraw rvy)
    /\ (unitDraw rsize /\ unitDraw rlife /\ unitDraw rmax)
    /\ p = {| Particle.x := (rx * width)%Q;
              Particle.y := (ry * height)%Q;
              Particle.vx := ((rvx - 0.5) * 0.5 * dpr)%Q;
              Particle.vy := ((rvy - 0.5) * 0.5 * dpr)%Q;
              Particle.size := (rsize * 2 + 1) * dpr;
              Particle.color := primaryColor DEFAULT_THEME;
              Particle.life := rlife * 100;
              Particle.maxLife := 100 + rmax * 50;
              Particle.type := STRUCTURE |}.

(** A particle as the second loop pushes it. *)
Definition seededStardust (width height dpr : Q) (p : Particle) : Prop :=
  exists rx ry rvx rvy rsize rlife rmax,
    (unitDraw rx /\ unitDraw ry /\ unitDraw rvx /\ unitDraw rvy)
    /\ (unitDraw rsize /\ unitDraw rlife /\ unitDraw rmax)
    /\ p = {| Particle.x := (rx * width)%Q;
              Particle.y := (ry * height)%Q;
              Particle.vx := ((rvx - 0.5) * 0.1 * dpr)%Q;
              Particle.vy := ((rvy - 0.5) * 0.1 * dpr)%Q;
              Particle.size := (rsize * 1.5) * dpr;
              Particle.color := secondaryColor DEFAULT_THEME;
              Particle.life := rlife * 200;
              Particle.maxLife := 200 + rmax * 200;
              Particle.type := STARDUST |}.

Definition seeded (width height dpr : Q) (p : Particle) : Prop :=
  seededStructure width height dpr p \/ seededStardust width height dpr p.

(** Speed and size a new particle of each type can have. *)
Definition initialKinematics (dpr : Q) (p : Particle) : Prop :=
  match Particle.type p with
  | STRUCTURE =>
      ((num_abs (Particle.vx p) <= (0.25 * dpr)%Q)%num
       /\ (num_abs (Particle.vy p) <= (0.25 * dpr)%Q)%num)
      /\ (dpr <= Particle.size p /\ Particle.size p <= 3 * dpr)
  | STARDUST =>
      ((num_abs (Particle.vx p) <= (0.05 * dpr)%Q)%num
       /\ (num_abs (Particle.vy p) <= (0.05 * dpr)%Q)%num)
      /\ (0 <= Particle.size p /\ Particle.size p <= 1.5 * dpr)
  end.

(** Lifespan a new particle of each type can have. *)
Definition initialLifespan (p : Particle) : Prop :=
  match Particle.type p with
  | STRUCTURE =>
      (0 <= Particle.life p /\ Particle.life p < 100)
      /\ (100 <= Particle.maxLife p /\ Particle.maxLife p <= 150)
  | STARDUST =>
      (0 <= Particle.life p /\ Particle.life p < 200)
      /\ (200 <= Particle.maxLife p /\ Particle.maxLife p <= 400)
  end.

(** The corner of the canvas, where a missing landmark would be read. *)
Definition origin : Point := {| Point.x := 0; Point.y := 0 |}.

(** The five fingertips of one hand, on the canvas. *)
Definition handTips (width height : Q) (landmarks : list Point) : list Point :=
  map (fun i => toCanvas width height (nth (Z.to_nat i) landmarks origin)) fingertips.

(** [spreadRaw] of one hand: from the wrist to the tip of the index finger. *)
Definition handSpread {host : Host} (landmarks : list Point) : Q :=
  Math_hypot (Point.x (nth 8 landmarks origin) - Point.x (nth 0 landmarks origin))
             (Point.y (nth 8 landmarks origin) - Point.y (nth 0 landmarks origin)).

(** What the detection loop has accumulated after [hands]. *)
Definition collected {host : Host} (width height : Q) (hands : list (list Point))
    (acc : list Point * list Point * Q) : list Point * list Point * Q :=
  let '(tips, joints, totalSpread) := acc in
  (tips ++ flat_map (handTips width height) hands,
   joints ++ flat_map (map (toCanvas width height)) hands,
   fold_left (fun total landmarks => total + handSpread landmarks) hands totalSpread).

(** The state and the requests after blocks 1 and 2 of a frame. *)
Definition afterDetection {host : Host} (st : Visualizer) (f : Frame)
    : Visualizer * list ThemeRequest :=
  match detection f with
  | Some (Some hands) =>
      let '(tips, joints, totalSpread) :=
        collected (width f) (height f) hands ([], [], 0) in
      geminiTrigger (List.length hands) totalSpread (time f) (set_hands tips joints st)
  | Some None => geminiTrigger O 0 (time f) (set_hands [] [] st)
  | None => (st, [])
  end.

(** A landmark in the unit square, as the detector normalises it. *)
Definition normalized (lm : Point) : Prop :=
  (0 <= Point.x lm /\ Point.x lm <= 1) /\ (0 <= Point.y lm /\ Point.y lm <= 1).

Definition onCanvas (width height : Q) (pt : Point) : Prop :=
  (0 <= Point.x pt /\ Point.x pt <= width) /\ (0 <= Point.y pt /\ Point.y pt <= height).

(** A hand the detector cut short. *)
Definition shortHand (landmarks : list Point) : Prop :=
  (List.length landmarks < 21)%nat.

(** The arguments the theme service is specified for. *)
Definition requestInRange (r : ThemeRequest) : Prop :=
  (1 <= handCount r)%nat /\ movementIntensity r = 0.5
  /\ (0 <= spread r /\ spread r <= 1).

(** The status line while a request is under way. *)
Definition CALCULATING : jsstring := str "CALCULATING GEOMETRY...".

(** A frame whose detector returned a hand of 5 landmarks only. *)
Definition brokenFrame : Frame :=
  {| time := 5000; width := 800; height := 600; devicePixelRatio := 1;
     detection := Some (Some [firstn 5 flatHand]) |}.

(** A frame before the landmarker and the video are ready. *)
Definition blindFrame : Frame :=
  {| time := 5000; width := 800; height := 600; devicePixelRatio := 1;
     detection := None |}.

(** The component with the hand of an earlier frame still recorded. *)
Definition watching : Visualizer :=
  set_hands (handTips 800 600 flatHand) (map (toCanvas 800 600) flatHand) mounted.

(** Whether the connection scan of [p] draws a line to [p2]. *)
Definition linkable {host : Host} (geometryDistance : Q) (p p2 : Particle) : bool :=
  isStructure (Particle.type p2)
  && num_ltb (num_hypot (Particle.x p2 - Particle.x p) (Particle.y p2 - Particle.y p))
             geometryDistance.

(** A hand as the skeleton holds it: exactly 21 joints. *)
Definition wholeHand (joints : list Point) : Prop :=
  List.length joints = 21%nat.

(** What the scan of [computeForce] hands to the dispatch: the closest
    fingertip with its distance, the vector from the particle to it, and the
    factor [1 - closestDist / interactionDistance]. *)
Definition closest {host : Host} (p : Particle) (first : Point)
    (others : list Point) : Q * Point :=
  nearestTarget p (first :: others) first.

Definition towards {host : Host} (p : Particle) (first : Point)
    (others : list Point) : number * number :=
  ((Point.x (snd (closest p first others)) - Particle.x p)%num,
   (Point.y (snd (closest p first others)) - Particle.y p)%num).

Definition fade {host : Host} (scaleFactor : Q) (p : Particle) (first : Point)
    (others : list Point) : Q :=
  1 - fst (closest p first others) / (300 * scaleFactor).

(** The particle is somewhere, inside the interaction radius of its closest
    fingertip. *)
Definition engaged {host : Host} (scaleFactor : Q) (p : Particle) (first : Point)
    (others : list Point) : Prop :=
  placed p /\ 0 < scaleFactor /\ fst (closest p first others) < 300 * scaleFactor.

(** The default theme in another mode. *)
Definition inMode (m : InteractionMode) : VisualTheme :=
  set_mode (JsString (modeName m)) DEFAULT_THEME.

(** A fingertip 50 px from [steady], and one 250 px from it. *)
Definition nearTip : Point := {| Point.x := 430; Point.y := 340 |}.
Definition farTip : Point := {| Point.x := 400; Point.y := 550 |}.

(** A STARDUST particle at the place of [steady]. *)
Definition mote : Particle :=
  {| Particle.x := 400; Particle.y := 300; Particle.vx := 0.02; Particle.vy := 0.01;
     Particle.size := 1; Particle.color := str "#1A237E";
     Particle.life := 150; Particle.maxLife := 250; Particle.type := STARDUST |}.

(** A frame in which nothing pushed the particle up or down. *)
Definition coasting (p p' : Particle) : Prop :=
  (Particle.vy p' == Particle.vy p * damping (Particle.type p))%num
  /\ Particle.type p' = Particle.type p.

(** Whether the window was resized during [events]. *)
Definition resized (events : list Event) : bool :=
  existsb (fun e => match e with Resized _ _ _ => true | _ => false end) events.

(** The state a run ends in, if it goes on. *)
Definition finalState (o : Outcome) : option Visualizer :=
  match o with
  | Continues st _ _ => Some st
  | _ => None
  end.

(** * Proofs *)

(** ** Comparisons *)

Lemma Qltb_true (a b : Q) : Qltb a b = true <-> a < b.
Proof.
  unfold Qltb. rewrite negb_true_iff, <- not_true_iff_false, Qle_bool_iff.
  split; [apply Qnot_le_lt | apply Qlt_not_le].
Qed.

Lemma Qltb_false (a b : Q) : Qltb a b = false <-> b <= a.
Proof.
  unfold Qltb. rewrite negb_false_iff. apply Qle_bool_iff.
Qed.

Lemma Qle_bool_false (a b : Q) : Qle_bool a b = false <-> b < a.
Proof.
  rewrite <- not_true_iff_false, Qle_bool_iff.
  split; [apply Qnot_le_lt | apply Qlt_not_le].
Qed.

Lemma Qltb_spec (a b : Q) : BoolSpec (a < b) (b <= a) (Qltb a b).
Proof.
  destruct (Qltb a b) eqn:E; constructor;
    [apply Qltb_true | apply Qltb_false]; exact E.
Qed.

Lemma Qle_bool_spec (a b : Q) : BoolSpec (a <= b) (b < a) (Qle_bool a b).
Proof.
  destruct (Qle_bool a b) eqn:E; constructor;
    [apply Qle_bool_iff | apply Qle_bool_false]; exact E.
Qed.

(** ** Numbers that may be NaN *)

(** Splits a particle into its fields and its coordinates into the two
    cases of [number]. *)
Ltac split_particle p :=
  let x := fresh "x" in
  let y := fresh "y" in
  let vx := fresh "vx" in
  let vy := fresh "vy" in
  destruct p as [x y vx vy ? ? ? ? ?];
  destruct x as [x |], y as [y |], vx as [vx |], vy as [vy |].

Lemma placed_numbers (p : Particle) :
  placed p -> exists x y : Q, Particle.x p = x /\ Particle.y p = y.
Proof.
  intros [Hx Hy].
  destruct (Particle.x p) as [x |]; [| congruence].
  destruct (Particle.y p) as [y |]; [| congruence].
  exists x, y. split; reflexivity.
Qed.

Lemma inBox_placed (width height : Q) (p : Particle) :
  inBox width height p -> placed p.
Proof.
  unfold inBox, placed. intros [[Hx _] [Hy _]].
  destruct (Particle.x p), (Particle.y p); cbn in *; try contradiction.
  split; discriminate.
Qed.

(** ** The wrap *)

Lemma wrapCoord_cases (c bound : Q) :
  0 <= bound ->
  (c < 0 /\ wrapCoord c bound = bound)
  \/ (bound < c /\ wrapCoord c bound = 0)
  \/ ((0 <= c /\ c <= bound) /\ wrapCoord c bound = c).
Proof.
  intros Hb. unfold wrapCoord. cbn [num_ltb].
  destruct (Qltb_spec c 0) as [Hc | Hc]; cbn [num_ltb].
  - left. split; [exact Hc |].
    destruct (Qltb_spec bound bound) as [Hbb | _]; [lra | reflexivity].
  - destruct (Qltb_spec bound c) as [Hbc | Hbc].
    + right; left. split; [exact Hbc | reflexivity].
    + right; right. repeat split; assumption.
Qed.

Lemma wrapCoord_closed (c bound : Q) :
  0 <= bound -> (0 <= wrapCoord c bound)%num /\ (wrapCoord c bound <= bound)%num.
Proof.
  intros Hb.
  destruct (wrapCoord_cases c bound Hb) as [[_ E] | [[_ E] | [[H0 H1] E]]];
    rewrite E; cbn; split; lra.
Qed.

Lemma wrap_placed (width height : Q) (p : Particle) :
  placed (wrap width height p) <-> placed p.
Proof.
  unfold placed, wrap, wrapCoord. cbn [Particle.x Particle.y Particle.set_x Particle.set_y].
  destruct (Particle.x p) as [x |], (Particle.y p) as [y |]; cbn [num_ltb];
    repeat match goal with
           | |- context [Qltb ?a ?b] => destruct (Qltb a b); cbn [num_ltb]
           end;
    split; intros [H1 H2]; split; congruence.
Qed.

Lemma wrap_inBox (width height : Q) (p : Particle) :
  0 <= width -> 0 <= height -> placed p -> inBox width height (wrap width height p).
Proof.
  intros Hw Hh Hp. destruct (placed_numbers p Hp) as (x & y & Ex & Ey).
  unfold inBox, wrap; cbn. rewrite Ex, Ey.
  split; apply wrapCoord_closed; assumption.
Qed.

(** ** Code that draws and may throw *)

Lemma unitDraws_tail (s : Stream) :
  unitDraws s -> unitDraws (fun n => s (S n)).
Proof. intros H n. apply H. Qed.

Lemma unitDraws_constant (r : Q) :
  0 <= r -> r < 1 -> unitDraws (constantDraws r).
Proof. intros H0 H1 n. split; assumption. Qed.

Lemma total_ret {A} (a : A) (P : A -> Prop) : P a -> total (ret a) P.
Proof. intros HP s Hs. exists a, s. split; [reflexivity | split; assumption]. Qed.

Lemma total_bind {A B} (m : M A) (k : A -> M B) (P : A -> Prop) (R : B -> Prop) :
  total m P -> (forall a, P a -> total (k a) R) -> total (bind m k) R.
Proof.
  intros Hm Hk s Hs.
  destruct (Hm s Hs) as (a & s1 & E1 & Hs1 & Pa).
  destruct (Hk a Pa s1 Hs1) as (b & s2 & E2 & Hs2 & Rb).
  exists b, s2. unfold bind. rewrite E1. split; [exact E2 | split; assumption].
Qed.

Lemma total_random : total Math_random (fun r => 0 <= r /\ r < 1).
Proof.
  intros s Hs. exists (s 0%nat), (fun n => s (S n)).
  split; [reflexivity | split; [apply unitDraws_tail, Hs | apply Hs]].
Qed.

Lemma total_index {A} (xs : list A) (i : Z) :
  (0 <= i < Z.of_nat (List.length xs))%Z ->
  total (index xs i) (fun a => nth_error xs (Z.to_nat i) = Some a).
Proof.
  intros Hi. unfold index.
  destruct (Z.ltb_spec i 0) as [Hneg | _]; [lia |].
  destruct (nth_error xs (Z.to_nat i)) as [a |] eqn:E.
  - apply total_ret. reflexivity.
  - apply nth_error_None in E. lia.
Qed.

(** Walks through a block of binds whose steps are draws, in-range reads
    and returns; what it cannot settle is left to the caller. *)
Ltac run_total :=
  lazymatch goal with
  | |- total (bind _ _) _ =>
      eapply total_bind; [run_total | intros ? ?; cbn beta; run_total]
  | |- total (index _ _) _ => apply total_index; cbn; lia
  | |- total Math_random _ => apply total_random
  | |- total (ret _) _ => apply (total_ret _ (fun _ => True)); exact I
  | _ => idtac
  end.

(** A returning computation, read backwards. *)
Lemma bind_returns {A B} (m : M A) (k : A -> M B) (s : Stream) (r : B * Stream) :
  bind m k s = Returns r ->
  exists a s', m s = Returns (a, s') /\ k a s' = Returns r.
Proof.
  unfold bind. destruct (m s) as [[a s'] | e]; [| discriminate].
  intros E. exists a, s'. split; [reflexivity | exact E].
Qed.

(** The index the respawn draws is one of [tips]. *)
Lemma floor_index_range (r : Q) (n : nat) :
  0 <= r -> r < 1 -> (0 < n)%nat ->
  (0 <= Math_floor (r * inject_Z (Z.of_nat n)) < Z.of_nat n)%Z.
Proof.
  intros H0 H1 Hn. unfold Math_floor.
  assert (Hpos : 0 < inject_Z (Z.of_nat n)).
  { change 0 with (inject_Z 0). rewrite <- Zlt_Qlt. lia. }
  split.
  - rewrite <- (Qfloor_Z 0). apply Qfloor_resp_le. change (inject_Z 0) with 0. nra.
  - rewrite Zlt_Qlt.
    apply Qle_lt_trans with (r * inject_Z (Z.of_nat n)); [apply Qfloor_le | nra].
Qed.

(** ** Lifespan and respawn *)

Lemma sameIdentity_refl (p : Particle) : sameIdentity p p.
Proof. repeat split. Qed.

Lemma sameIdentity_trans (p q r : Particle) :
  sameIdentity p q -> sameIdentity q r -> sameIdentity p r.
Proof.
  unfold sameIdentity. intros (A1 & A2 & A3 & A4) (B1 & B2 & B3 & B4).
  repeat split; congruence.
Qed.

Lemma decay_sameIdentity (deltaTime : Q) (p : Particle) :
  sameIdentity p (decay deltaTime p).
Proof. repeat split. Qed.

Lemma respawn_total (width height scaleFactor : Q) (tips : list Point)
    (p : Particle) :
  total (respawn width height scaleFactor tips p)
    (fun p' =>
       sameIdentity p p'
       /\ ((0 < Particle.life p /\ p' = p)
           \/ (Particle.life p <= 0
               /\ respawned width height scaleFactor tips p p'))).
Proof.
  unfold respawn.
  destruct (Qle_bool_spec (Particle.life p) 0) as [Hdead | Hlive].
  - destruct tips as [| t0 tips'].
    + eapply total_bind; [apply total_random |]. intros rx Hrx. cbn beta.
      eapply total_bind; [apply total_random |]. intros ry Hry. cbn beta.
      apply total_ret. split; [repeat split |].
      right. split; [exact Hdead |]. split; [reflexivity |].
      exists rx, ry. repeat split; try apply Hrx; try apply Hry.
    + set (tips := t0 :: tips').
      eapply total_bind; [apply total_random |]. intros r Hr. cbn beta.
      eapply total_bind.
      { apply total_index. apply floor_index_range; try apply Hr. cbn. lia. }
      intros source Hsource. cbn beta.
      eapply total_bind; [apply total_random |]. intros rx Hrx. cbn beta.
      eapply total_bind; [apply total_random |]. intros ry Hry. cbn beta.
      eapply total_bind; [apply total_random |]. intros rvx Hrvx. cbn beta.
      eapply total_bind; [apply total_random |]. intros rvy Hrvy. cbn beta.
      apply total_ret. split; [repeat split |].
      right. split; [exact Hdead |]. split; [reflexivity |].
      exists source, rx, ry, rvx, rvy.
      split; [eapply nth_error_In; exact Hsource |].
      repeat split; try apply Hrx; try apply Hry; try apply Hrvx; try apply Hrvy.
  - apply total_ret. split; [apply sameIdentity_refl |].
    left. split; [exact Hlive | reflexivity].
Qed.

(** ** The interaction field *)

Section Field.

Context {host : Host}.

Lemma scan_invariant (p : Particle) (tips : list Point) (c0 : Q) (t0 : Point) :
  let best :=
    fold_left
      (fun best t =>
         match reach p t with
         | Num d => if Qltb d (fst best) then (d, t) else best
         | NaN => best
         end)
      tips (c0, t0) in
  fst best <= c0
  /\ (forall t d, In t tips -> reach p t = Num d -> fst best <= d)
  /\ (best = (c0, t0)
      \/ exists t d, In t tips /\ reach p t = Num d /\ best = (d, t)).
Proof.
  revert c0 t0. induction tips as [| t tips IH]; intros c0 t0; cbn [fold_left].
  - cbn. repeat split; [lra | intros t d [] | left; reflexivity].
  - destruct (reach p t) as [d |] eqn:Ed.
    + destruct (Qltb_spec d (fst (c0, t0))) as [Hlt | Hge]; cbn [fst] in *.
      * destruct (IH d t) as (Hle & Hall & Hfrom).
        repeat split.
        -- cbn in Hle |- *. lra.
        -- intros u e [<- | Hu] Eu; [| exact (Hall u e Hu Eu)].
           rewrite Ed in Eu. injection Eu as <-. exact Hle.
        -- right. destruct Hfrom as [E | (u & e & Hu & Eu & E)].
           ++ exists t, d. split; [left; reflexivity | split; assumption].
           ++ exists u, e. split; [right; exact Hu | split; assumption].
      * destruct (IH c0 t0) as (Hle & Hall & Hfrom).
        repeat split.
        -- exact Hle.
        -- intros u e [<- | Hu] Eu; [| exact (Hall u e Hu Eu)].
           rewrite Ed in Eu. injection Eu as <-. cbn in Hle |- *. lra.
        -- destruct Hfrom as [E | (u & e & Hu & Eu & E)]; [left; exact E |].
           right. exists u, e. split; [right; exact Hu | split; assumption].
    + destruct (IH c0 t0) as (Hle & Hall & Hfrom).
      repeat split.
      * exact Hle.
      * intros u e [<- | Hu] Eu; [congruence | exact (Hall u e Hu Eu)].
      * destruct Hfrom as [E | (u & e & Hu & Eu & E)]; [left; exact E |].
        right. exists u, e. split; [right; exact Hu | split; assumption].
Qed.

(** The scan finds the least distance, capped by its sentinel 99999. *)
Lemma nearestTarget_spec (p : Particle) (tips : list Point) (first : Point) :
  let best := nearestTarget p tips first in
  fst best <= 99999
  /\ (forall t d, In t tips -> reach p t = Num d -> fst best <= d)
  /\ (best = (99999, first)
      \/ exists t d, In t tips /\ reach p t = Num d /\ best = (d, t)).
Proof. apply scan_invariant. Qed.

(** Away from every fingertip the scan keeps its sentinel. *)
Lemma nearestTarget_nowhere (p : Particle) (tips : list Point) (first : Point) :
  ~ placed p -> nearestTarget p tips first = (99999, first).
Proof.
  intros Hp. unfold nearestTarget.
  assert (Hnan : forall t, num_hypot (Point.x t - Particle.x p)
                             (Point.y t - Particle.y p) = NaN).
  { intros t. unfold placed in Hp.
    destruct (Particle.x p), (Particle.y p); try reflexivity.
    exfalso. apply Hp. split; discriminate. }
  generalize (99999, first). induction tips as [| t tips IH]; intros best;
    [reflexivity |].
  cbn [fold_left]. rewrite Hnan. apply IH.
Qed.

Lemma nearestTarget_distance (p : Particle) (tips : list Point) (first : Point)
    (dist : Q) :
  nearestDistance p tips dist ->
  (dist < 99999 ->
     fst (nearestTarget p tips first) == dist
     /\ In (snd (nearestTarget p tips first)) tips
     /\ (reach p (snd (nearestTarget p tips first)) == dist)%num)
  /\ (99999 <= dist -> fst (nearestTarget p tips first) == 99999).
Proof.
  intros [(t & Ht & Edist) Hmin].
  destruct (nearestTarget_spec p tips first) as (Hcap & Hall & Hfrom).
  destruct (reach p t) as [d |] eqn:Et; [| destruct Edist].
  cbn in Edist. pose proof (Hall t d Ht Et) as Ht'.
  split.
  - intros Hlt.
    destruct Hfrom as [E | (u & e & Hu & Eu & E)].
    + rewrite E in Ht'. cbn in Ht'. lra.
    + rewrite E in *. cbn [fst snd] in *.
      pose proof (Hmin u Hu) as Hu'. rewrite Eu in Hu' |- *. cbn in Hu' |- *.
      repeat split; [lra | exact Hu | lra].
  - intros Hge.
    destruct Hfrom as [E | (u & e & Hu & Eu & E)].
    + rewrite E. reflexivity.
    + rewrite E in *. cbn [fst snd] in *.
      pose proof (Hmin u Hu) as Hu'. rewrite Eu in Hu'. cbn in Hu'. lra.
Qed.

Lemma structureForce_fallback (currentTheme : VisualTheme)
    (time scaleFactor geometryDistance closestDist force : Q) (dx dy : number)
    (p : Particle) :
  unrecognized (mode currentTheme) ->
  structureForce currentTheme time scaleFactor geometryDistance closestDist
    force dx dy p
  = ((0 + num_sin (time * 0.01 + Particle.y p * 0.1) * 0.5 * scaleFactor)%num,
     (0 + num_cos (time * 0.01 + Particle.x p * 0.1) * 0.5 * scaleFactor)%num).
Proof.
  intros (H1 & H2 & H3 & H4). unfold structureForce.
  rewrite H1, H2, H3, H4. reflexivity.
Qed.

Lemma stardustForce_total (currentTheme : VisualTheme)
    (scaleFactor closestDist force : Q) (dx dy : number) :
  total (stardustForce currentTheme scaleFactor closestDist force dx dy)
    (fun _ => True).
Proof.
  unfold stardustForce.
  eapply total_bind; [apply total_random |]. intros r1 _. cbn beta.
  eapply total_bind; [apply total_random |]. intros r2 _. cbn beta.
  destruct (Qltb closestDist (300 * scaleFactor)); apply total_ret; exact I.
Qed.

Lemma computeForce_total (currentTheme : VisualTheme) (time scaleFactor : Q)
    (tips : list Point) (p : Particle) :
  total (computeForce currentTheme time scaleFactor tips p) (fun _ => True).
Proof.
  unfold computeForce. destruct tips as [| first rest].
  - apply total_ret. exact I.
  - destruct (nearestTarget p (first :: rest) first) as [closestDist target].
    destruct (Qltb closestDist (300 * scaleFactor)); [| apply total_ret; exact I].
    destruct (isStructure (Particle.type p)).
    + apply total_ret. exact I.
    + apply stardustForce_total.
Qed.

(** ** One particle, one frame *)

Lemma integrate_sameIdentity (fx fy : number) (p : Particle) :
  sameIdentity p (integrate fx fy p) /\ Particle.life (integrate fx fy p) = Particle.life p.
Proof. repeat split. Qed.

Lemma wrap_sameIdentity (width height : Q) (p : Particle) :
  sameIdentity p (wrap width height p)
  /\ Particle.life (wrap width height p) = Particle.life p.
Proof. repeat split. Qed.

Lemma updateParticle_total (currentTheme : VisualTheme) (f : Frame)
    (deltaTime scaleFactor : Q) (tips : list Point) (p : Particle) :
  0 <= width f -> 0 <= height f ->
  total (updateParticle currentTheme f deltaTime scaleFactor tips p)
    (fun p' =>
       sameIdentity p p'
       /\ (placed p' -> inBox (width f) (height f) p')
       /\ ((0 < Particle.life p - deltaTime * 0.05
            /\ Particle.life p' = Particle.life p - deltaTime * 0.05)
           \/ (Particle.life p - deltaTime * 0.05 <= 0
               /\ Particle.life p' = Particle.maxLife p))).
Proof.
  intros Hw Hh. unfold updateParticle.
  eapply total_bind; [apply respawn_total |].
  intros p1 (Hid & Hlife). cbn beta.
  eapply total_bind; [apply computeForce_total |].
  intros force _. cbn beta.
  apply total_ret. split; [| split].
  - eapply sameIdentity_trans; [apply decay_sameIdentity |].
    eapply sameIdentity_trans; [exact Hid |].
    eapply sameIdentity_trans; [apply integrate_sameIdentity | apply wrap_sameIdentity].
  - intros Hplaced. apply wrap_placed in Hplaced. apply wrap_inBox; assumption.
  - destruct Hlife as [[Hpos ->] | [Hdead [Hmax _]]].
    + left. split; [exact Hpos | reflexivity].
    + right. split; [exact Hdead | exact Hmax].
Qed.

End Field.

(** ** One frame *)

Section FrameProofs.

Context {host : Host}.

Lemma particleLoop_total (currentTheme : VisualTheme) (f : Frame)
    (deltaTime dpr : Q) (tips : list Point) (ps : list Particle) (i : nat) :
  0 <= width f -> 0 <= height f ->
  total (particleLoop currentTheme f deltaTime dpr tips i ps)
    (fun r => Forall2 (updated f deltaTime) ps (fst r)).
Proof.
  intros Hw Hh. revert i. induction ps as [| p later IH]; intros i; cbn [particleLoop].
  - apply total_ret. constructor.
  - eapply total_bind; [apply updateParticle_total; assumption |].
    intros p' Hp'. cbn beta.
    eapply total_bind; [apply IH |].
    intros rest Hrest. cbn beta.
    apply total_ret. cbn. constructor; assumption.
Qed.

Lemma scanHands_total (width height : Q) (hands : list (list Point))
    (acc : list Point * list Point * Q) :
  Forall fullHand hands ->
  total (scanHands width height hands acc) (fun _ => True).
Proof.
  intros Hhands. revert acc.
  induction Hhands as [| landmarks rest Hfull _ IH]; intros [[tips joints] totalSpread];
    cbn [scanHands].
  - apply total_ret. exact I.
  - unfold fullHand in Hfull. unfold fingertips. cbn [mapM].
    run_total. apply IH.
Qed.

Lemma geminiTrigger_spec (n : nat) (totalSpread t : Q) (st : Visualizer) :
  let r := geminiTrigger n totalSpread t st in
  theme (fst r) = theme st /\ particles (fst r) = particles st
  /\ handPoints (fst r) = handPoints st /\ handSkeleton (fst r) = handSkeleton st
  /\ lastTime (fst r) = lastTime st
  /\ ((0 < n)%nat /\ 4000 < t - lastThemeUpdate st ->
        lastThemeUpdate (fst r) = t
        /\ exists request,
             snd r = [request] /\ handCount request = n
             /\ movementIntensity request = 0.5)
  /\ (n = O \/ t - lastThemeUpdate st <= 4000 ->
        fst r = st /\ snd r = []).
Proof.
  unfold geminiTrigger.
  destruct (Nat.ltb_spec 0 n) as [Hn | Hn];
    destruct (Qltb_spec 4000 (t - lastThemeUpdate st)) as [Ht | Ht]; cbn;
    (do 5 (split; [reflexivity |])); (split; [intros [Hn' Ht'] | intros [Hn' | Ht']]);
    try lia; try lra; try (split; reflexivity).
  split; [reflexivity |]. eexists. repeat split.
Qed.

Lemma render_total (currentTheme : VisualTheme) (st : Visualizer) (f : Frame) :
  sensed f -> 0 <= width f -> 0 <= height f ->
  total (render currentTheme st f) (rendered st f).
Proof.
  intros Hsensed Hw Hh. unfold render.
  eapply total_bind with
    (P := fun tr =>
            particles (fst tr) = particles st /\ theme (fst tr) = theme st
            /\ lastTime (fst tr) = time f
            /\ triggered st f (fst tr)
                 {| drawn := []; requests := snd tr; rejected := false |}).
  - unfold sensed, triggered, handsSeen, detectHands in *.
    destruct (detection f) as [[hands |] |].
    + eapply total_bind; [apply scanHands_total, Hsensed |].
      intros [[tips joints] totalSpread] _. cbn beta iota.
      apply total_ret.
      destruct (geminiTrigger_spec (List.length hands) totalSpread (time f)
                  (set_hands tips joints (set_lastTime (time f) st)))
        as (E1 & E2 & _ & _ & E3 & Hfire & Hquiet).
      split; [exact E2 |]. split; [exact E1 |]. split; [exact E3 |].
      split; [exact Hfire |].
      intros H. destruct (Hquiet H) as [-> ->]. split; reflexivity.
    + eapply total_bind; [run_total |].
      intros [[tips joints] totalSpread] _. cbn beta iota.
      apply total_ret.
      destruct (geminiTrigger_spec O totalSpread (time f)
                  (set_hands tips joints (set_lastTime (time f) st)))
        as (E1 & E2 & _ & _ & E3 & _ & Hquiet).
      split; [exact E2 |]. split; [exact E1 |]. split; [exact E3 |].
      split; [intros [Hn _]; lia |].
      intros _. destruct (Hquiet (or_introl eq_refl)) as [-> ->].
      split; reflexivity.
    + apply total_ret. cbn.
      split; [reflexivity |]. split; [reflexivity |]. split; [reflexivity |].
      split; [intros [Hn _]; lia | intros _; split; reflexivity].
  - intros [st1 reqs] (Eps & Eth & Elt & Htrig). cbn [fst snd] in *.
    eapply total_bind; [apply particleLoop_total; assumption |].
    intros [ps' cmds] Hps. cbn [fst snd] in *.
    apply total_ret. unfold rendered. cbn [fst snd particles theme lastTime set_particles rejected].
    rewrite <- Eps.
    split; [exact Hps |]. split; [exact Eth |]. split; [exact Elt |].
    split; [exact Htrig | reflexivity].
Qed.

End FrameProofs.

(** * The boundary wrap *)

(** C1, as the code has it: the wrap stage leaves a position that is a pair
    of numbers in the closed box [0, width] x [0, height].  A coordinate
    below 0 reappears at the opposite edge, exactly at the bound; a coordinate
    above the bound reappears at 0; a coordinate inside the box is left alone.
    Nothing is reflected or clamped to the edge it crossed. *)
Theorem wrap_stays_in_closed_box (width height : Q) (p : Particle) :
  0 <= width -> 0 <= height -> placed p ->
  inBox width height (wrap width height p)
  /\ ((Particle.x p < 0)%num -> Particle.x (wrap width height p) = width)
  /\ ((width < Particle.x p)%num -> Particle.x (wrap width height p) = 0)
  /\ ((0 <= Particle.x p)%num /\ (Particle.x p <= width)%num ->
      Particle.x (wrap width height p) = Particle.x p)
  /\ ((Particle.y p < 0)%num -> Particle.y (wrap width height p) = height)
  /\ ((height < Particle.y p)%num -> Particle.y (wrap width height p) = 0)
  /\ ((0 <= Particle.y p)%num /\ (Particle.y p <= height)%num ->
      Particle.y (wrap width height p) = Particle.y p).
Proof.
  intros Hw Hh Hp. split; [apply wrap_inBox; assumption |].
  destruct (placed_numbers p Hp) as (x & y & Ex & Ey).
  unfold wrap; cbn [Particle.x Particle.y Particle.set_x Particle.set_y].
  rewrite Ex, Ey. cbn [num_lt num_le].
  destruct (wrapCoord_cases x width Hw) as [[Hx Ex'] | [[Hx Ex'] | [[Hx0 Hx1] Ex']]];
    destruct (wrapCoord_cases y height Hh) as [[Hy Ey'] | [[Hy Ey'] | [[Hy0 Hy1] Ey']]];
    rewrite Ex', Ey';
    repeat split; intros; try reflexivity; try (exfalso; lra).
Qed.

Lemma wrap_stays_in_closed_box_witness :
  inBox 800 600 (wrap 800 600 straying)
  /\ Particle.x (wrap 800 600 straying) = 800.
Proof.
  destruct (wrap_stays_in_closed_box 800 600 straying) as (Hbox & Hleft & _).
  - unfold Qle; cbn; lia.
  - unfold Qle; cbn; lia.
  - split; discriminate.
  - split; [exact Hbox |]. apply Hleft. vm_compute. reflexivity.
Defined.

(** C1 as stated fails: a particle that left through the left edge is put at
    [x = width], which is outside the half-open box.  And where the position
    of a particle is not a pair of numbers, both tests of the wrap are false:
    the position stays NaN, in no box. *)
Lemma wrap_reaches_far_edge :
  Particle.x (wrap 800 600 straying) = 800
  /\ ~ inHalfOpenBox 800 600 (wrap 800 600 straying)
  /\ Particle.x (wrap 800 600 (Particle.set_x NaN straying)) = NaN
  /\ ~ inBox 800 600 (wrap 800 600 (Particle.set_x NaN straying)).
Proof.
  split; [reflexivity |]. split; [| split; [reflexivity |]].
  - intros [[_ Hx] _]. vm_compute in Hx. discriminate Hx.
  - intros [[Hx _] _]. exact Hx.
Qed.

(** * Lifespan and respawn *)

(** C3, as the code has it.  Each step subtracts [deltaTime * 0.05] from
    [life].  A particle still alive is left alone by the respawn block.  An
    exhausted one restarts at [maxLife]; with fingertips it moves to one of
    them, offset on each axis by [(r - 0.5) * 50 * scale], which is within
    [25 * scale] of the fingertip and so jitters by up to [50 * scale], and
    its velocity is drawn afresh; without fingertips it moves to a random point
    of the canvas and keeps the velocity it had.  The step ends with the
    lifespan the respawn block left. *)
Theorem respawn_on_exhaustion {host : Host} (currentTheme : VisualTheme)
    (f : Frame) (scaleFactor deltaTime : Q) (tips : list Point) (p : Particle)
    (draws : Stream) :
  unitDraws draws -> 0 <= scaleFactor -> 0 <= width f -> 0 <= height f ->
  Particle.life (decay deltaTime p) = Particle.life p - deltaTime * 0.05
  /\ exists p' draws',
       respawn (width f) (height f) scaleFactor tips (decay deltaTime p) draws
       = Returns (p', draws')
       /\ (0 < Particle.life p - deltaTime * 0.05 -> p' = decay deltaTime p)
       /\ (Particle.life p - deltaTime * 0.05 <= 0 ->
           Particle.life p' = Particle.maxLife p
           /\ respawned (width f) (height f) scaleFactor tips p p'
           /\ (tips <> [] ->
               exists source,
                 In source tips
                 /\ (num_abs (Particle.x p' - Point.x source)
                     <= (25 * scaleFactor)%Q)%num
                 /\ (num_abs (Particle.y p' - Point.y source)
                     <= (25 * scaleFactor)%Q)%num)
           /\ (tips = [] ->
               inBox (width f) (height f) p'
               /\ Particle.vx p' = Particle.vx p
               /\ Particle.vy p' = Particle.vy p))
       /\ exists p'' draws'',
            updateParticle currentTheme f deltaTime scaleFactor tips p draws
            = Returns (p'', draws'')
            /\ Particle.life p'' = Particle.life p'.
Proof.
  intros Hdraws Hs Hw Hh. split; [reflexivity |].
  destruct (respawn_total (width f) (height f) scaleFactor tips (decay deltaTime p)
              draws Hdraws) as (p' & draws' & E & Hdraws' & _ & Hcases).
  exists p', draws'. split; [exact E |].
  change (Particle.life (decay deltaTime p))
    with (Particle.life p - deltaTime * 0.05) in Hcases.
  split; [| split].
  - intros Hpos. destruct Hcases as [[_ ->] | [Hdead _]]; [reflexivity | lra].
  - intros Hdead. destruct Hcases as [[Hpos _] | [_ Hre]]; [lra |].
    destruct Hre as [Hlife Hwhere]. split; [exact Hlife |].
    split; [split; [exact Hlife | exact Hwhere] |].
    split.
    + intros Hne. destruct tips as [| t0 tips']; [congruence |].
      destruct Hwhere as (source & rx & ry & rvx & rvy & Hin & Hrx & Hry & _ & _
                          & Ex & Ey & _).
      exists source. split; [exact Hin |].
      rewrite Ex, Ey. cbn [num_sub num_abs num_le].
      split; apply Qabs_case; intros _; nra.
    + intros ->. destruct Hwhere as (rx & ry & Hrx & Hry & Ex & Ey & Evx & Evy).
      split; [| split; assumption].
      unfold inBox. rewrite Ex, Ey. cbn [num_le]. split; split; nra.
  - destruct (computeForce_total currentTheme (time f) scaleFactor tips p'
                draws' Hdraws') as (force & draws'' & Eforce & _).
    exists (wrap (width f) (height f) (integrate (fst force) (snd force) p')), draws''.
    split; [| reflexivity].
    unfold updateParticle, bind. rewrite E, Eforce. reflexivity.
Qed.

Lemma respawn_on_exhaustion_witness :
  exists p' draws',
    respawn 800 600 1 [] (decay 40 fading) (constantDraws 0.25)
    = Returns (p', draws')
    /\ Particle.life p' = 250
    /\ Particle.vx p' = 7.
Proof.
  destruct (respawn_on_exhaustion (host := exampleHost) DEFAULT_THEME handFrame
              1 40 [] fading (constantDraws 0.25))
    as (_ & p' & draws' & E & _ & Hdead & _).
  - apply unitDraws_constant; [unfold Qle | unfold Qlt]; cbn; lia.
  - unfold Qle; cbn; lia.
  - unfold Qle; cbn; lia.
  - unfold Qle; cbn; lia.
  - exists p', draws'. split; [exact E |].
    destruct Hdead as (Hlife & _ & _ & Hkeep).
    + unfold Qle; cbn; lia.
    + split; [exact Hlife |]. apply Hkeep. reflexivity.
Defined.

(** C3 as stated fails in the branch without fingertips: the exhausted
    particle is moved and its life is reset, but its velocity is the one it
    had, whatever [Math.random] returns. *)
Lemma respawn_keeps_velocity_without_targets :
  option_map (fun q => (Particle.life q, Particle.vx q, Particle.vy q))
    (returned (respawn 800 600 1 [] (decay 40 fading) (constantDraws 0.25)))
  = Some (250, Num 7, Num (-3))
  /\ option_map (fun q => (Particle.life q, Particle.vx q, Particle.vy q))
       (returned (respawn 800 600 1 [] (decay 40 fading) (constantDraws 0.75)))
     = Some (250, Num 7, Num (-3))
  /\ option_map (fun q => (Particle.x q, Particle.y q))
       (returned (respawn 800 600 1 [] (decay 40 fading) (constantDraws 0.25)))
     <> option_map (fun q => (Particle.x q, Particle.y q))
          (returned (respawn 800 600 1 [] (decay 40 fading) (constantDraws 0.75))).
Proof.
  split; [reflexivity |]. split; [reflexivity |].
  vm_compute. intros E. discriminate E.
Qed.

(** * The interaction field *)

Lemma factor_inside (dist radius : Q) :
  0 < radius -> dist < radius ->
  0 < 1 - dist / radius /\ Qmax 0 (1 - dist / radius) == 1 - dist / radius.
Proof.
  intros Hr Hd.
  assert (H : dist / radius < 1) by (apply Qlt_shift_div_r; [exact Hr | lra]).
  split; [lra |]. apply Q.max_r. lra.
Qed.

Lemma factor_outside (dist radius : Q) :
  0 < radius -> radius <= dist -> Qmax 0 (1 - dist / radius) == 0.
Proof.
  intros Hr Hd.
  assert (H : 1 <= dist / radius) by (apply Qle_shift_div_l; [exact Hr | lra]).
  apply Q.max_l. lra.
Qed.

(** C4: with fingertips present and [dist] the distance to the nearest one,
    the interaction radius is [300 * scaleFactor].  Inside it, the scan finds
    [dist], and the factor the force is scaled by, [1 - dist / radius], is
    [max(0, 1 - dist / radius)] and positive.  At or beyond the radius that
    maximum is 0 and the step adds no force: the velocity is the prior one,
    damped.  (A device pixel ratio is far below 333, where the radius would
    pass the scan's sentinel 99999.) *)
Theorem force_fades_with_distance {host : Host} (currentTheme : VisualTheme)
    (time scaleFactor dist : Q) (first : Point) (others : list Point)
    (p : Particle) (draws : Stream) :
  nearestDistance p (first :: others) dist ->
  0 < scaleFactor -> 300 * scaleFactor <= 99999 ->
  (dist < 300 * scaleFactor ->
     fst (nearestTarget p (first :: others) first) == dist
     /\ (reach p (snd (nearestTarget p (first :: others) first)) == dist)%num
     /\ 1 - fst (nearestTarget p (first :: others) first) / (300 * scaleFactor)
        == Qmax 0 (1 - dist / (300 * scaleFactor))
     /\ 0 < 1 - fst (nearestTarget p (first :: others) first) / (300 * scaleFactor)
     /\ computeForce currentTheme time scaleFactor (first :: others) p draws
        = (let closestDist := fst (nearestTarget p (first :: others) first) in
           let target := snd (nearestTarget p (first :: others) first) in
           let dx := (Point.x target - Particle.x p)%num in
           let dy := (Point.y target - Particle.y p)%num in
           let force := 1 - closestDist / (300 * scaleFactor) in
           if isStructure (Particle.type p)
           then ret (structureForce currentTheme time scaleFactor
                       (geometryScale currentTheme * scaleFactor)
                       closestDist force dx dy p)
           else stardustForce currentTheme scaleFactor closestDist force dx dy)
            draws)
  /\ (300 * scaleFactor <= dist ->
      Qmax 0 (1 - dist / (300 * scaleFactor)) == 0
      /\ computeForce currentTheme time scaleFactor (first :: others) p draws
         = Returns ((Num 0, Num 0), draws)
      /\ (Particle.vx (integrate 0 0 p)
          == Particle.vx p * damping (Particle.type p))%num
      /\ (Particle.vy (integrate 0 0 p)
          == Particle.vy p * damping (Particle.type p))%num).
Proof.
  intros Hnear Hs Hcap.
  assert (Hr : 0 < 300 * scaleFactor) by lra.
  destruct (nearestTarget_distance p (first :: others) first dist Hnear)
    as [Hin Hout].
  split.
  - intros Hd. destruct Hin as (Ecd & _ & Ereach); [lra |].
    split; [exact Ecd |]. split; [exact Ereach |].
    destruct (factor_inside dist (300 * scaleFactor) Hr Hd) as [Hpos Emax].
    split; [rewrite Emax, Ecd; reflexivity |].
    split; [rewrite Ecd; exact Hpos |].
    unfold computeForce.
    destruct (nearestTarget p (first :: others) first) as [closestDist target].
    cbn [fst snd] in *.
    destruct (Qltb_spec closestDist (300 * scaleFactor)) as [_ | Hge];
      [reflexivity | lra].
  - intros Hd.
    split; [apply factor_outside; assumption |].
    split; [| split; cbn; [destruct (Particle.vx p) | destruct (Particle.vy p)];
              cbn; trivial; ring].
    assert (Hfar : 300 * scaleFactor <= fst (nearestTarget p (first :: others) first)).
    { destruct (Qlt_le_dec dist 99999) as [Hlt | Hge].
      - destruct Hin as (Ecd & _); [exact Hlt |]. lra.
      - rewrite (Hout Hge). exact Hcap. }
    unfold computeForce.
    destruct (nearestTarget p (first :: others) first) as [closestDist target].
    cbn [fst] in Hfar.
    destruct (Qltb_spec closestDist (300 * scaleFactor)) as [Hlt | _];
      [lra | reflexivity].
Qed.

Lemma force_fades_with_distance_witness :
  computeForce DEFAULT_THEME 16 1 [ {| Point.x := 400; Point.y := 700 |} ]
    steady (constantDraws 0.5)
  = Returns ((Num 0, Num 0), constantDraws 0.5).
Proof.
  refine (proj1 (proj2 (proj2 (force_fades_with_distance (host := exampleHost)
            DEFAULT_THEME 16 1 400 {| Point.x := 400; Point.y := 700 |} []
            steady (constantDraws 0.5) _ _ _) _))).
  - split.
    + eexists. split; [left; reflexivity | vm_compute; reflexivity].
    + intros t [<- | []]. vm_compute. discriminate.
  - unfold Qlt; cbn; lia.
  - unfold Qle; cbn; lia.
  - unfold Qle; cbn; lia.
Defined.

Lemma resonance_unrecognized : unrecognized (JsString (modeName RESONANCE)).
Proof. repeat split. Qed.

Section Fallback.

Context {host : Host}.

Variable currentTheme other : VisualTheme.

(** Two themes that differ in [mode] only, both outside the four named modes. *)
Hypothesis same_fields : other = set_mode (mode other) currentTheme.
Hypothesis mode_unrecognized : unrecognized (mode currentTheme).
Hypothesis other_unrecognized : unrecognized (mode other).

Lemma computeForce_fallback (time scaleFactor : Q) (tips : list Point)
    (p : Particle) (draws : Stream) :
  computeForce other time scaleFactor tips p draws
  = computeForce currentTheme time scaleFactor tips p draws.
Proof.
  unfold computeForce.
  destruct tips as [| first rest]; [reflexivity |].
  destruct (nearestTarget p (first :: rest) first) as [closestDist target].
  destruct (Qltb closestDist (300 * scaleFactor)); [| reflexivity].
  destruct (isStructure (Particle.type p)).
  - rewrite (structureForce_fallback currentTheme) by exact mode_unrecognized.
    rewrite (structureForce_fallback other) by exact other_unrecognized.
    reflexivity.
  - rewrite same_fields. reflexivity.
Qed.

Lemma updateParticle_fallback (f : Frame) (deltaTime scaleFactor : Q)
    (tips : list Point) (p : Particle) (draws : Stream) :
  updateParticle other f deltaTime scaleFactor tips p draws
  = updateParticle currentTheme f deltaTime scaleFactor tips p draws.
Proof.
  unfold updateParticle, bind.
  destruct (respawn (width f) (height f) scaleFactor tips (decay deltaTime p) draws)
    as [[p1 draws1] | error]; [| reflexivity].
  rewrite computeForce_fallback. reflexivity.
Qed.

Lemma particleLoop_fallback (f : Frame) (deltaTime dpr : Q) (tips : list Point)
    (ps : list Particle) (i : nat) (draws : Stream) :
  particleLoop other f deltaTime dpr tips i ps draws
  = particleLoop currentTheme f deltaTime dpr tips i ps draws.
Proof.
  revert i draws. induction ps as [| p later IH]; intros i draws; [reflexivity |].
  cbn [particleLoop]. unfold bind.
  rewrite updateParticle_fallback.
  destruct (updateParticle currentTheme f deltaTime dpr tips p draws)
    as [[p' draws1] | error]; [| reflexivity].
  rewrite IH. rewrite same_fields. reflexivity.
Qed.

Lemma render_fallback (st : Visualizer) (f : Frame) (draws : Stream) :
  render other st f draws = render currentTheme st f draws.
Proof.
  unfold render, bind.
  destruct (detectHands (set_lastTime (time f) st) f draws)
    as [[[st1 reqs] draws1] | error]; [| reflexivity].
  rewrite particleLoop_fallback. rewrite same_fields. reflexivity.
Qed.

End Fallback.



(** * The mounted component *)

Section Component.

Context {host : Host}.

Lemma updated_alive (f : Frame) (deltaTime : Q) (p p' : Particle) :
  0 <= deltaTime -> lifeBand p -> updated f deltaTime p p' -> alive p'.
Proof.
  intros Hdt [[H0 H1] Hmax] ((_ & Emax & _) & _ & Hlife). unfold alive.
  rewrite Emax.
  destruct Hlife as [[Hpos ->] | [_ ->]]; split; lra.
Qed.

Lemma alive_lifeBand (p : Particle) : alive p -> lifeBand p.
Proof. intros [H0 H1]. unfold lifeBand. repeat split; lra. Qed.

Lemma Forall2_updated_alive (f : Frame) (deltaTime : Q) (ps ps' : list Particle) :
  0 <= deltaTime -> Forall lifeBand ps ->
  Forall2 (updated f deltaTime) ps ps' -> Forall alive ps'.
Proof.
  intros Hdt Hband H2. induction H2 as [| p p' ps ps' Hp _ IH]; [constructor |].
  inversion Hband; subst.
  constructor; [eapply updated_alive; eassumption | apply IH; assumption].
Qed.

(** What a frame did with the trigger, read off a returning [render]. *)
Lemma detectHands_triggered (st : Visualizer) (f : Frame) (draws : Stream)
    (st' : Visualizer) (reqs : list ThemeRequest) (draws' : Stream) :
  detectHands st f draws = Returns (st', reqs, draws') ->
  particles st' = particles st /\ theme st' = theme st /\ lastTime st' = lastTime st
  /\ triggered st f st' {| drawn := []; requests := reqs; rejected := false |}.
Proof.
  unfold detectHands, triggered, handsSeen.
  destruct (detection f) as [[hands |] |].
  - intros E. apply bind_returns in E.
    destruct E as ([[tips joints] totalSpread] & s1 & _ & E).
    cbn beta iota in E. injection E as E _.
    destruct (geminiTrigger_spec (List.length hands) totalSpread (time f)
                (set_hands tips joints st))
      as (E1 & E2 & _ & _ & E3 & Hfire & Hquiet).
    rewrite E in *. cbn [fst snd] in *.
    split; [exact E2 |]. split; [exact E1 |]. split; [exact E3 |].
    split; [exact Hfire |].
    intros H. destruct (Hquiet H) as [-> ->]. split; reflexivity.
  - intros E. apply bind_returns in E.
    destruct E as ([[tips joints] totalSpread] & s1 & _ & E).
    cbn beta iota in E. injection E as <- <- _.
    split; [reflexivity |]. split; [reflexivity |]. split; [reflexivity |].
    split; [intros [Hn _]; lia | intros _; split; reflexivity].
  - intros E. injection E as <- <- _.
    split; [reflexivity |]. split; [reflexivity |]. split; [reflexivity |].
    split; [intros [Hn _]; lia | intros _; split; reflexivity].
Qed.

Lemma render_triggered (currentTheme : VisualTheme) (st : Visualizer) (f : Frame)
    (draws : Stream) (st' : Visualizer) (fx : Effects) (draws' : Stream) :
  render currentTheme st f draws = Returns (st', fx, draws') ->
  triggered st f st' fx /\ theme st' = theme st.
Proof.
  unfold render. intros E.
  apply bind_returns in E. destruct E as ([st1 reqs] & s1 & Edetect & E).
  apply bind_returns in E. destruct E as ([ps' cmds] & s2 & _ & E).
  injection E as <- <- _.
  apply detectHands_triggered in Edetect.
  destruct Edetect as (_ & Eth & _ & Htrig).
  split; [exact Htrig | exact Eth].
Qed.

Lemma theme_views (v : JsValue) (t : VisualTheme) :
  asVisualTheme v = Some t -> view v = Returns tt /\ truthy v = true.
Proof.
  destruct v as [| | b | q | text | items | fields]; try discriminate.
  unfold asVisualTheme, view, field.
  destruct (lookupField (str "primaryColor") fields); try discriminate.
  destruct (lookupField (str "secondaryColor") fields); try discriminate.
  destruct (lookupField (str "tension") fields); try discriminate.
  destruct (lookupField (str "entropy") fields); try discriminate.
  destruct (lookupField (str "geometryScale") fields); try discriminate.
  destruct (lookupField (str "description") fields); try discriminate.
  destruct (validChild (lookupField (str "mode") fields)); [| discriminate].
  intros _. split; reflexivity.
Qed.

(** A settled promise.  A falsy answer changes nothing.  A truthy one
    replaces the theme; then either the component cannot render it and is
    unmounted, or the loop restarts at [now].  The callback never touches the
    cooldown timer, the particles, or the drawing surface, and issues no
    request. *)
Lemma settled_spec (st : Visualizer) (now : Q) (request : ThemeRequest)
    (api : ApiOutcome) (draws : Stream) :
  let v := generateThemeFromGesture (handCount request)
             (movementIntensity request) (spread request) api in
  (truthy v = false
   /\ step st (ThemeSettled now request api) draws
      = Continues st {| drawn := []; requests := []; rejected := false |} draws)
  \/ (truthy v = true
      /\ ((exists error,
             view v = Throws error
             /\ step st (ThemeSettled now request api) draws = Stops error)
          \/ (view v = Returns tt
              /\ exists st' threw,
                   step st (ThemeSettled now request api) draws
                   = Continues st' {| drawn := []; requests := []; rejected := threw |}
                       draws
                   /\ lastThemeUpdate st' = lastThemeUpdate st
                   /\ particles st' = particles st
                   /\ theme st' = v /\ lastTime st' = now))).
Proof.
  cbn [step]. unfold onTheme.
  set (v := generateThemeFromGesture _ _ _ api).
  destruct (truthy v) eqn:Etruthy.
  - right. split; [reflexivity |].
    destruct (view v) as [[] | error] eqn:Eview.
    + right. split; [reflexivity |].
      destruct (descriptionUpper v) as [status |];
        eexists; eexists; (split; [reflexivity |]); repeat split.
    + left. exists error. split; [reflexivity |].
      destruct (descriptionUpper v) as [status |]; reflexivity.
  - left. split; reflexivity.
Qed.

(** The same, read off a step that went on. *)
Lemma settled_continues (st : Visualizer) (now : Q) (request : ThemeRequest)
    (api : ApiOutcome) (draws : Stream) (st' : Visualizer) (fx : Effects)
    (draws' : Stream) :
  step st (ThemeSettled now request api) draws = Continues st' fx draws' ->
  let v := generateThemeFromGesture (handCount request)
             (movementIntensity request) (spread request) api in
  (draws' = draws /\ drawn fx = [] /\ requests fx = [])
  /\ lastThemeUpdate st' = lastThemeUpdate st
  /\ particles st' = particles st
  /\ ((st' = st /\ truthy v = false)
      \/ (theme st' = v /\ lastTime st' = now /\ view v = Returns tt)).
Proof.
  intros Estep v.
  destruct (settled_spec st now request api draws)
    as [[Hfalsy E] | [Htruthy [(error & _ & E) | (Eview & st1 & threw & E & Et & Eps & Eth & Elt)]]];
    fold v in Hfalsy || fold v in Htruthy; rewrite E in Estep.
  - injection Estep as <- <- <-. repeat split. left. split; [reflexivity | exact Hfalsy].
  - discriminate Estep.
  - injection Estep as <- <- <-. repeat split; try assumption.
    right. fold v in Eth, Eview. repeat split; assumption.
Qed.

Lemma failed_is_falsy (handCount : nat) (movementIntensity spread : Q)
    (api : ApiOutcome) :
  failedRequest api ->
  truthy (generateThemeFromGesture handCount movementIntensity spread api) = false.
Proof.
  destruct api as [| [text |]]; cbn; try reflexivity.
  intros [-> | [Eparse | (v & Eparse & Hfalsy)]]; [reflexivity | |];
    (destruct text; [reflexivity |]); rewrite Eparse; [reflexivity | exact Hfalsy].
Qed.

Lemma chronological_earlier (t t' : Q) (events : list Event) :
  t <= t' -> chronological t' events -> chronological t events.
Proof.
  intros Ht. revert t t' Ht.
  induction events as [| [f | now request api | width height dpr] rest IH];
    intros t t' Ht; cbn.
  - trivial.
  - intros [H1 H2]. split; [lra | exact H2].
  - intros [H1 H2]. split; [lra | exact H2].
  - apply IH, Ht.
Qed.

(** Inside the cooldown window nothing is requested, whatever happens. *)
Lemma run_quiet (events : list Event) (st : Visualizer) (draws : Stream)
    (st' : Visualizer) (fx : Effects) (draws' : Stream) :
  withinCooldown (lastThemeUpdate st) events ->
  run st events draws = Continues st' fx draws' ->
  requests fx = [] /\ lastThemeUpdate st' = lastThemeUpdate st.
Proof.
  revert st draws st' fx draws'.
  induction events as [| e rest IH]; intros st draws st' fx draws' Hwithin Erun.
  - injection Erun as <- <- _. split; reflexivity.
  - inversion Hwithin as [| ? ? He Hrest]; subst.
    cbn [run] in Erun.
    destruct (step st e draws) as [st1 fx1 draws1 | |] eqn:Estep; try discriminate.
    destruct (run st1 rest draws1) as [st2 fx2 draws2 | |] eqn:Erest; try discriminate.
    injection Erun as <- <- _.
    assert (H1 : requests fx1 = [] /\ lastThemeUpdate st1 = lastThemeUpdate st).
    { destruct e as [f | now request api | width height dpr].
      - cbn [step] in Estep.
        destruct (asVisualTheme (theme st)) as [currentTheme |]; [| discriminate].
        destruct (render currentTheme st f draws) as [[[st1' fx1'] d1'] | error] eqn:Er;
          [| discriminate].
        injection Estep as -> -> _.
        apply render_triggered in Er. destruct Er as [[_ Hquiet] _].
        destruct (Hquiet (or_intror He)) as [E1 E2]. split; assumption.
      - destruct (settled_continues st now request api draws st1 fx1 draws1 Estep)
          as ((_ & _ & Ereq) & Et & _).
        split; [exact Ereq | exact Et].
      - cbn [step] in Estep.
        destruct (initParticles width height dpr draws) as [[ps d1'] | error];
          [| discriminate].
        injection Estep as <- <- _. split; reflexivity. }
    destruct H1 as [Ereq Et].
    rewrite <- Et in Hrest.
    destruct (IH st1 draws1 st2 fx2 draws2 Hrest Erest) as [Ereq2 Et2].
    split; [cbn; rewrite Ereq, Ereq2; reflexivity | congruence].
Qed.

Lemma repeatM_total {A} (n : nat) (m : M A) (P : A -> Prop) :
  total m P ->
  total (repeatM n m) (fun l => Forall P l /\ List.length l = n).
Proof.
  intros Hm. induction n as [| n IH]; cbn [repeatM].
  - apply total_ret. split; [constructor | reflexivity].
  - eapply total_bind; [exact Hm |]. intros a Pa. cbn beta.
    eapply total_bind; [exact IH |]. intros rest [Hrest Hlen]. cbn beta.
    apply total_ret. split; [constructor; assumption | cbn; congruence].
Qed.

Lemma newStructure_lifeBand (width height dpr : Q) :
  total (newStructure width height dpr) lifeBand.
Proof.
  unfold newStructure.
  do 5 (eapply total_bind; [apply total_random |]; intros ? _; cbn beta).
  eapply total_bind; [apply total_random |]. intros rlife [Hlife0 Hlife1]. cbn beta.
  eapply total_bind; [apply total_random |]. intros rmax [Hmax0 Hmax1]. cbn beta.
  apply total_ret. unfold lifeBand; cbn. repeat split; lra.
Qed.

Lemma newStardust_lifeBand (width height dpr : Q) :
  total (newStardust width height dpr) lifeBand.
Proof.
  unfold newStardust.
  do 5 (eapply total_bind; [apply total_random |]; intros ? _; cbn beta).
  eapply total_bind; [apply total_random |]. intros rlife [Hlife0 Hlife1]. cbn beta.
  eapply total_bind; [apply total_random |]. intros rmax [Hmax0 Hmax1]. cbn beta.
  apply total_ret. unfold lifeBand; cbn. repeat split; lra.
Qed.

Lemma initParticles_lifeBand (width height dpr : Q) :
  total (initParticles width height dpr)
    (fun ps => Forall lifeBand ps /\ List.length ps = 450%nat).
Proof.
  unfold initParticles.
  eapply total_bind; [apply repeatM_total, newStructure_lifeBand |].
  intros structure [Hs Ls]. cbn beta.
  eapply total_bind; [apply repeatM_total, newStardust_lifeBand |].
  intros stardust [Hd Ld]. cbn beta.
  apply total_ret. split.
  - apply Forall_app. split; assumption.
  - rewrite length_app, Ls, Ld. reflexivity.
Qed.

(** The component keeps running, and its particles keep their lifespan
    within bounds: once a frame has stepped them, every one of them is alive. *)
Lemma run_alive (events : list Event) (st : Visualizer) (draws : Stream)
    (before : Prop) :
  chronological (lastTime st) events ->
  Forall modelled events ->
  asVisualTheme (theme st) <> None ->
  unitDraws draws ->
  Forall lifeBand (particles st) ->
  (before -> Forall alive (particles st)) ->
  exists st' fx draws',
    run st events draws = Continues st' fx draws'
    /\ Forall lifeBand (particles st')
    /\ (steppedAfter events before -> Forall alive (particles st')).
Proof.
  revert st draws before.
  induction events as [| e rest IH];
    intros st draws before Hchrono Hmodel Htheme Hdraws Hband Hbefore.
  - exists st, noEffects, draws. split; [reflexivity |]. split; [exact Hband |].
    exact Hbefore.
  - inversion Hmodel as [| ? ? He Hrest]; subst.
    destruct e as [f | now request api | width height dpr].
    + destruct He as (Hsensed & Hw & Hh). destruct Hchrono as [Ht Hchrono].
      destruct (asVisualTheme (theme st)) as [currentTheme |] eqn:Eth;
        [| congruence].
      destruct (render_total currentTheme st f Hsensed Hw Hh draws Hdraws)
        as ([st1 fx1] & draws1 & E & Hdraws1 & Hps & Eth1 & Elt & _).
      cbn [fst snd] in *.
      assert (Halive : Forall alive (particles st1)).
      { eapply Forall2_updated_alive; [| exact Hband | exact Hps]. lra. }
      destruct (IH st1 draws1 True) as (st2 & fx2 & draws2 & E2 & Hb2 & Ha2).
      * rewrite Elt. exact Hchrono.
      * exact Hrest.
      * rewrite Eth1, Eth. discriminate.
      * exact Hdraws1.
      * eapply Forall_impl; [| exact Halive]. apply alive_lifeBand.
      * intros _. exact Halive.
      * exists st2, (andThen fx1 fx2), draws2.
        cbn [run step]. rewrite Eth, E, E2.
        split; [reflexivity |]. split; [exact Hb2 | exact Ha2].
    + destruct Hchrono as [Ht Hchrono]. cbn [modelled] in He.
      assert (Hstep : exists st1 threw,
                step st (ThemeSettled now request api) draws
                = Continues st1 {| drawn := []; requests := []; rejected := threw |}
                    draws
                /\ particles st1 = particles st
                /\ asVisualTheme (theme st1) <> None
                /\ chronological (lastTime st1) rest).
      { destruct (settled_spec st now request api draws)
          as [[Hfalsy E] | [Htruthy [(error & Eview & _) | (_ & st1 & threw & E & _ & Eps & Eth & Elt)]]].
        - exists st, false. split; [exact E |]. split; [reflexivity |].
          split; [exact Htheme |]. eapply chronological_earlier; eassumption.
        - destruct He as [Hfalsy | Hok]; [congruence |].
          destruct (asVisualTheme (generateThemeFromGesture (handCount request)
                      (movementIntensity request) (spread request) api))
            as [t |] eqn:Et; [| congruence].
          destruct (theme_views _ _ Et) as [Eok _]. congruence.
        - exists st1, threw. split; [exact E |]. split; [exact Eps |].
          destruct He as [Hfalsy | Hok]; [congruence |].
          split; [rewrite Eth; exact Hok | rewrite Elt; exact Hchrono]. }
      destruct Hstep as (st1 & threw & E & Eps & Hth1 & Hch1).
      destruct (IH st1 draws before) as (st2 & fx2 & draws2 & E2 & Hb2 & Ha2).
      * exact Hch1.
      * exact Hrest.
      * exact Hth1.
      * exact Hdraws.
      * rewrite Eps. exact Hband.
      * rewrite Eps. exact Hbefore.
      * exists st2, (andThen {| drawn := []; requests := []; rejected := threw |} fx2),
          draws2.
        cbn [run]. rewrite E, E2.
        split; [reflexivity |]. split; [exact Hb2 | exact Ha2].
    + destruct (initParticles_lifeBand width height dpr draws Hdraws)
        as (ps & draws1 & E & Hdraws1 & Hps & _).
      destruct (IH (set_particles ps st) draws1 False)
        as (st2 & fx2 & draws2 & E2 & Hb2 & Ha2);
        [exact Hchrono | exact Hrest | exact Htheme | exact Hdraws1 | exact Hps
        | intros [] |].
      exists st2, (andThen noEffects fx2), draws2.
      cbn [run step]. rewrite E, E2.
      split; [reflexivity |]. split; [exact Hb2 | exact Ha2].
Qed.

End Component.

(** C2, as the code has it: the lifespan stays in bounds while the clock does
    not run backwards.  [initParticles] creates particles with
    [0 <= life <= maxLife] and [maxLife > 0].  From such particles on, while
    the clock does not run backwards, the component keeps running through
    frames, settled requests and resizes, and the particles keep that band;
    once a frame has stepped them every particle has [0 < life <= maxLife],
    and particles for which this holds keep it through every later frame. *)
Theorem life_stays_positive_and_bounded {host : Host} (st : Visualizer)
    (events : list Event) (draws : Stream) :
  Forall lifeBand (particles st) ->
  asVisualTheme (theme st) <> None ->
  unitDraws draws ->
  Forall modelled events ->
  chronological (lastTime st) events ->
  (exists st' fx draws',
     run st events draws = Continues st' fx draws'
     /\ Forall lifeBand (particles st')
     /\ (steppedAfter events (Forall alive (particles st)) ->
         Forall alive (particles st')))
  /\ (forall width height dpr,
        exists ps draws',
          initParticles width height dpr draws = Returns (ps, draws')
          /\ Forall lifeBand ps /\ List.length ps = 450%nat).
Proof.
  intros Hband Htheme Hdraws Hmodel Hchrono. split.
  - apply run_alive; try assumption. intros H. exact H.
  - intros width height dpr.
    destruct (initParticles_lifeBand width height dpr draws Hdraws)
      as (ps & draws' & E & _ & Hps & Hlen).
    exists ps, draws'. repeat split; assumption.
Qed.

Lemma life_stays_positive_and_bounded_witness :
  exists st' fx draws',
    run mounted resizedSession (constantDraws 0.5) = Continues st' fx draws'
    /\ Forall alive (particles st').
Proof.
  destruct (life_stays_positive_and_bounded (host := exampleHost)
              mounted resizedSession (constantDraws 0.5))
    as [(st' & fx & draws' & E & _ & Hstepped) _].
  - repeat constructor; cbn; unfold Qle, Qlt; cbn; lia.
  - vm_compute. discriminate.
  - apply unitDraws_constant; [unfold Qle | unfold Qlt]; cbn; lia.
  - assert (Hhand : Forall fullHand [flatHand]).
    { constructor; [unfold fullHand; cbn; lia | constructor]. }
    constructor; [exact I |].
    constructor; [| constructor; [| constructor; [| constructor]]].
    + split; [exact Hhand | split; unfold Qle; cbn; lia].
    + right. vm_compute. discriminate.
    + split; [exact Hhand | split; unfold Qle; cbn; lia].
  - cbn. repeat split; unfold Qle; cbn; lia.
  - exists st', fx, draws'. split; [exact E |].
    apply Hstepped. exact I.
Defined.

(** C2 as stated fails in two ways.  The frame at 5000 ms exhausts the three
    particles, which restart at [maxLife]; the response at 5200 ms restarts
    the loop with [lastTime = 5200]; the next frame is stamped 5197 ms, its
    time step is -3 ms, and every particle ends with [life = maxLife + 0.15]
    (120.15 is [2403 # 20]).
    And right after [initParticles], before any frame, [life] is 0 for every
    particle when [Math.random] returns 0. *)
Lemma life_leaves_its_band :
  (exists st fx draws',
     run mounted rewoundSession (constantDraws 0.5) = Continues st fx draws'
     /\ Forall (fun p => Particle.maxLife p < Particle.life p) (particles st)
     /\ map (fun p => (Qred (Particle.life p), Particle.maxLife p)) (particles st)
        = [(2403 # 20, 120); (5003 # 20, 250); (2403 # 20, 120)])
  /\ (exists ps draws',
        initParticles 800 600 1 (constantDraws 0) = Returns (ps, draws')
        /\ Forall (fun p => Particle.life p == 0) ps
        /\ ~ Exists alive ps).
Proof.
  split.
  - destruct (run mounted rewoundSession (constantDraws 0.5))
      as [st fx draws' | |] eqn:E; try (vm_compute in E; discriminate E).
    exists st, fx, draws'. split; [reflexivity |].
    assert (Eps : map (fun p => (Qred (Particle.life p), Particle.maxLife p))
                    (particles st)
                  = [(2403 # 20, 120); (5003 # 20, 250); (2403 # 20, 120)]).
    { vm_compute in E. injection E as <- _ _. vm_compute. reflexivity. }
    split; [| exact Eps].
    destruct (particles st) as [| p1 [| p2 [| p3 [| p4 rest]]]]; try discriminate Eps.
    injection Eps as E1 M1 E2 M2 E3 M3.
    repeat constructor.
    + rewrite M1, <- (Qred_correct (Particle.life p1)), E1. reflexivity.
    + rewrite M2, <- (Qred_correct (Particle.life p2)), E2. reflexivity.
    + rewrite M3, <- (Qred_correct (Particle.life p3)), E3. reflexivity.
  - destruct (initParticles_lifeBand 800 600 1 (constantDraws 0)) as (ps & draws' & E & _).
    { apply unitDraws_constant; [unfold Qle | unfold Qlt]; cbn; lia. }
    exists ps, draws'. split; [exact E |].
    assert (Hzero : Forall (fun p => Particle.life p == 0) ps).
    { vm_compute in E. injection E as <- _.
      repeat (constructor; [reflexivity |]). constructor. }
    split; [exact Hzero |].
    intros Hex. apply Exists_exists in Hex. destruct Hex as (p & Hin & [Hpos _]).
    rewrite Forall_forall in Hzero. specialize (Hzero p Hin). lra.
Qed.

(** * The theme controller *)

(** C6: a frame that sees at least one hand returns.  If less than 4000 ms
    have passed since the last theme update (or exactly 4000 ms) it issues
    no request and leaves the timer alone.  If more than 4000 ms have passed
    it issues exactly one request, for the hands it saw, and the timer is the
    time of this frame when the frame ends.  The promise callback, whenever
    it runs and whatever the service answered, issues nothing and leaves the
    timer as it is; the one other thing it can do is replace the theme by a
    value the component cannot render, which unmounts the component. *)
Theorem theme_request_cooldown {host : Host} (currentTheme : VisualTheme)
    (st : Visualizer) (f : Frame) (draws : Stream) :
  sensed f -> 0 <= width f -> 0 <= height f -> unitDraws draws ->
  (0 < handsSeen f)%nat ->
  exists st' fx draws',
    render currentTheme st f draws = Returns (st', fx, draws')
    /\ (time f - lastThemeUpdate st <= 4000 ->
        requests fx = [] /\ lastThemeUpdate st' = lastThemeUpdate st)
    /\ (4000 < time f - lastThemeUpdate st ->
        lastThemeUpdate st' = time f
        /\ exists request,
             requests fx = [request] /\ handCount request = handsSeen f)
    /\ (forall now request api,
          (exists st'' fx'',
             step st' (ThemeSettled now request api) draws'
             = Continues st'' fx'' draws'
             /\ requests fx'' = []
             /\ lastThemeUpdate st'' = lastThemeUpdate st')
          \/ (exists error,
                step st' (ThemeSettled now request api) draws' = Stops error)).
Proof.
  intros Hsensed Hw Hh Hdraws Hhands.
  destruct (render_total currentTheme st f Hsensed Hw Hh draws Hdraws)
    as ([st' fx] & draws' & E & _ & _ & _ & _ & [Hfire Hquiet] & _).
  cbn [fst snd] in *.
  exists st', fx, draws'. split; [exact E |].
  split; [| split].
  - intros Hearly. destruct Hquiet as [E1 E2]; [right; exact Hearly |].
    split; assumption.
  - intros Hlate. destruct Hfire as (Et & request & Ereq & Ecount & _);
      [split; assumption |].
    split; [exact Et |]. exists request. split; assumption.
  - intros now request api.
    destruct (settled_spec st' now request api draws')
      as [[_ Estep] | [_ [(error & _ & Estep) | (_ & st'' & threw & Estep & Et & _)]]].
    + left. exists st', {| drawn := []; requests := []; rejected := false |}.
      split; [exact Estep |]. split; reflexivity.
    + right. exists error. exact Estep.
    + left. exists st'', {| drawn := []; requests := []; rejected := threw |}.
      split; [exact Estep |]. split; [reflexivity | exact Et].
Qed.

Lemma theme_request_cooldown_witness :
  exists st' fx draws',
    render DEFAULT_THEME mounted handFrame (constantDraws 0.5)
    = Returns (st', fx, draws')
    /\ lastThemeUpdate st' = 5000
    /\ exists request, requests fx = [request] /\ handCount request = 1%nat.
Proof.
  destruct (theme_request_cooldown (host := exampleHost) DEFAULT_THEME mounted
              handFrame (constantDraws 0.5))
    as (st' & fx & draws' & E & _ & Hlate & _).
  - cbn. constructor; [| constructor]. unfold fullHand. cbn. lia.
  - unfold Qle; cbn; lia.
  - unfold Qle; cbn; lia.
  - apply unitDraws_constant; [unfold Qle | unfold Qlt]; cbn; lia.
  - cbn. lia.
  - exists st', fx, draws'. split; [exact E |].
    apply Hlate. unfold Qlt; cbn; lia.
Defined.

(** C7, as the code has it: a request fails when the call rejects, when the
    response has no text, or when the text is not JSON or is JSON for a falsy
    value.  The callback of a failed request changes nothing at all: the theme
    and every other part of the state are the ones from before, no exception
    escapes, and the loop goes on.  The cooldown timer stays at the time the
    request was issued, so until 4000 ms have passed since then no frame
    issues another request.  (A text that parses to a truthy value is no
    failure for the code, whatever it holds.) *)
Theorem failed_request_keeps_theme {host : Host} (st : Visualizer) (now : Q)
    (request : ThemeRequest) (api : ApiOutcome) (draws : Stream)
    (events : list Event) :
  failedRequest api ->
  step st (ThemeSettled now request api) draws
  = Continues st {| drawn := []; requests := []; rejected := false |} draws
  /\ (withinCooldown (lastThemeUpdate st) events ->
      forall st' fx draws',
        run st (ThemeSettled now request api :: events) draws
        = Continues st' fx draws' ->
        requests fx = [] /\ lastThemeUpdate st' = lastThemeUpdate st)
  /\ (forall currentTheme before f draws0 fx0,
        render currentTheme before f draws0 = Returns (st, fx0, draws) ->
        requests fx0 <> [] ->
        lastThemeUpdate st = time f).
Proof.
  intros Hfailed. split; [| split].
  - cbn [step]. unfold onTheme.
    rewrite (failed_is_falsy _ _ _ api Hfailed). reflexivity.
  - intros Hwithin st' fx draws' Erun.
    apply (run_quiet (ThemeSettled now request api :: events) st draws st' fx draws');
      [| exact Erun].
    constructor; [exact I | exact Hwithin].
  - intros currentTheme before f draws0 fx0 Erender Hissued.
    apply render_triggered in Erender. destruct Erender as [[Hfire Hquiet] _].
    destruct (Nat.eq_dec (handsSeen f) 0) as [Hnone | Hsome].
    + destruct Hquiet as [_ Ereq]; [left; exact Hnone | congruence].
    + destruct (Qlt_le_dec 4000 (time f - lastThemeUpdate before)) as [Hlate | Hearly].
      * apply Hfire. split; [lia | exact Hlate].
      * destruct Hquiet as [_ Ereq]; [right; exact Hearly | congruence].
Qed.

Lemma failed_request_keeps_theme_witness :
  step mounted (ThemeSettled 5200 sampleRequest (ApiResponse (Some (str "<html>"))))
    (constantDraws 0.5)
  = Continues mounted {| drawn := []; requests := []; rejected := false |}
      (constantDraws 0.5).
Proof.
  refine (proj1 (failed_request_keeps_theme (host := exampleHost) mounted 5200
            sampleRequest (ApiResponse (Some (str "<html>"))) (constantDraws 0.5)
            [] _)).
  right. left. reflexivity.
Defined.

(** C7 as stated fails for a malformed response that still parses.  The text
    [{}] is JSON for an object with none of the fields of a theme, and the
    service function returns it.  The callback replaces the theme with it and
    throws on the missing [description]; the component then renders with the
    new theme, throws on the missing [tension], and is unmounted: the theme
    from before the request is lost and the frame loop with it. *)
Lemma malformed_response_replaces_theme :
  generateThemeFromGesture 1 0.5 0 (ApiResponse (Some (str "{}"))) = JsObject []
  /\ asVisualTheme (JsObject []) = None
  /\ theme (fst (fst (onTheme (JsObject []) mounted))) = JsObject []
  /\ theme (fst (fst (onTheme (JsObject []) mounted))) <> theme mounted
  /\ snd (onTheme (JsObject []) mounted) = true
  /\ step mounted (ThemeSettled 5200 sampleRequest (ApiResponse (Some (str "{}"))))
       (constantDraws 0.5)
     = Stops "TypeError".
Proof.
  split; [reflexivity |]. split; [reflexivity |]. split; [reflexivity |].
  split; [discriminate |]. split; reflexivity.
Qed.

(** * Colours *)

Lemma hexDigit_ascii (c : N) (d : Z) : hexDigit c = Some d -> In c asciiUnits.
Proof.
  unfold hexDigit. intros Hdigit.
  assert (Hsmall : (c < 128)%N).
  { destruct (N.leb_spec 48 c), (N.leb_spec c 57), (N.leb_spec 65 c),
      (N.leb_spec c 70), (N.leb_spec 97 c), (N.leb_spec c 102);
      cbn in Hdigit; try discriminate; lia. }
  unfold asciiUnits. apply in_map_iff. exists (N.to_nat c).
  split; [lia | apply in_seq; lia].
Qed.

Lemma hexDigit_range (c : N) (d : Z) : hexDigit c = Some d -> (0 <= d <= 15)%Z.
Proof.
  unfold hexDigit.
  destruct (N.leb_spec 48 c), (N.leb_spec c 57), (N.leb_spec 65 c),
    (N.leb_spec c 70), (N.leb_spec 97 c), (N.leb_spec c 102);
    cbn; intros Hdigit; try discriminate; injection Hdigit as <-; lia.
Qed.

Lemma twoDigitsParse_all :
  forallb (fun a => forallb (twoDigitsParse a) asciiUnits) asciiUnits = true.
Proof. vm_compute. reflexivity. Qed.

Lemma parseInt16_two_digits (a b : N) (d1 d2 : Z) :
  hexDigit a = Some d1 -> hexDigit b = Some d2 ->
  parseInt16 [a; b] = Some (16 * d1 + d2)%Z /\ (0 <= 16 * d1 + d2 <= 255)%Z.
Proof.
  intros Ha Hb.
  pose proof twoDigitsParse_all as Hall.
  rewrite forallb_forall in Hall.
  specialize (Hall a (hexDigit_ascii a d1 Ha)).
  rewrite forallb_forall in Hall.
  specialize (Hall b (hexDigit_ascii b d2 Hb)).
  unfold twoDigitsParse in Hall. rewrite Ha, Hb in Hall.
  destruct (parseInt16 [a; b]) as [z |]; [| discriminate].
  apply andb_true_iff in Hall. destruct Hall as [Hall Hhi].
  apply andb_true_iff in Hall. destruct Hall as [Heq Hlo].
  apply Z.eqb_eq in Heq. subst z. split; [reflexivity | lia].
Qed.

Lemma hexPrefix_digits (s : jsstring) :
  Forall (fun d => 0 <= d <= 15)%Z (hexPrefix s)
  /\ (List.length (hexPrefix s) <= List.length s)%nat.
Proof.
  induction s as [| c rest [IHd IHl]]; cbn.
  - split; [constructor | lia].
  - destruct (hexDigit c) as [d |] eqn:E; cbn.
    + split; [constructor; [eapply hexDigit_range; exact E | exact IHd] | lia].
    + split; [constructor | lia].
Qed.

Lemma trimStart_length (s : jsstring) :
  (List.length (trimStart s) <= List.length s)%nat.
Proof.
  induction s as [| c rest IH]; cbn; [lia |].
  destruct (isStrWhiteSpace c); cbn; lia.
Qed.

Lemma stripSign_spec (s : jsstring) :
  (fst (stripSign s) = 1 \/ fst (stripSign s) = -1)%Z
  /\ (List.length (snd (stripSign s)) <= List.length s)%nat.
Proof.
  unfold stripSign.
  destruct s as [| c rest]; [cbn; split; [left; reflexivity | lia] |].
  destruct c as [| q]; [cbn; split; [left; reflexivity | lia] |].
  do 6 (destruct q as [q | q |];
        try (cbn; split; [first [left; reflexivity | right; reflexivity] | lia])).
Qed.

Lemma stripHexPrefix_length (s : jsstring) :
  (List.length (stripHexPrefix s) <= List.length s)%nat.
Proof.
  unfold stripHexPrefix.
  destruct s as [| a [| b rest]]; cbn; try lia.
  - destruct a as [| q]; cbn; try lia.
    do 6 (destruct q as [q | q |]; cbn; try lia).
  - destruct a as [| q]; cbn; try lia.
    do 6 (destruct q as [q | q |]; cbn; try lia);
      destruct b as [| r]; cbn; try lia;
      do 7 (destruct r as [r | r |]; cbn; try lia).
Qed.

(** Two code units never parse to more than two digits. *)
Lemma parseInt16_slice_range (s : jsstring) :
  (List.length s <= 2)%nat -> channelRange (parseInt16 s).
Proof.
  intros Hlen. unfold parseInt16.
  pose proof (trimStart_length s) as Htrim.
  destruct (stripSign_spec (trimStart s)) as [Hsign Hbody].
  destruct (stripSign (trimStart s)) as [sign body]. cbn [fst snd] in *.
  pose proof (stripHexPrefix_length body) as Hstrip.
  destruct (hexPrefix_digits (stripHexPrefix body)) as [Hdigits Hcount].
  destruct (hexPrefix (stripHexPrefix body)) as [| d1 [| d2 [| d3 more]]];
    cbn [channelRange]; [exact I | | | cbn in Hcount; lia].
  - inversion Hdigits; subst. unfold hexValue; cbn [fold_left].
    destruct Hsign; subst; lia.
  - inversion Hdigits as [| ? ? H1 Hrest]; subst. inversion Hrest; subst.
    unfold hexValue; cbn [fold_left]. destruct Hsign; subst; lia.
Qed.

Lemma slice_length (s : jsstring) (from to : nat) :
  (List.length (slice s from to) <= to - from)%nat.
Proof. unfold slice. apply firstn_le_length. Qed.

(** The text of a number never starts with the letter N. *)
Lemma showInt_number (z : Z) :
  exists c rest, showInt (Some z) = c :: rest /\ c <> 78%N.
Proof.
  unfold showInt.
  destruct (Z.to_int z) as [d | d]; [| eexists; eexists; split; [reflexivity | discriminate]].
  destruct d; cbn; eexists; eexists; (split; [reflexivity | discriminate]).
Qed.

Lemma hexToRgba_wellFormed {host : Host} (hex : jsstring) (alpha : Q) :
  wellFormedHex hex = true ->
  exists r g b,
    ((0 <= r <= 255)%Z /\ (0 <= g <= 255)%Z /\ (0 <= b <= 255)%Z)
    /\ parseInt16 (slice hex 1 3) = Some r
    /\ parseInt16 (slice hex 3 5) = Some g
    /\ parseInt16 (slice hex 5 7) = Some b
    /\ hexToRgba hex alpha = rgbaOf r g b alpha.
Proof.
  unfold wellFormedHex.
  destruct hex as [| h [| r1 [| r2 [| g1 [| g2 [| b1 [| b2 [| extra more]]]]]]]];
    try discriminate.
  intros H. apply andb_true_iff in H. destruct H as [_ H].
  cbn [forallb] in H. unfold isHexDigit in H.
  destruct (hexDigit r1) as [dr1 |] eqn:Er1; [| discriminate].
  destruct (hexDigit r2) as [dr2 |] eqn:Er2; [| discriminate].
  destruct (hexDigit g1) as [dg1 |] eqn:Eg1; [| discriminate].
  destruct (hexDigit g2) as [dg2 |] eqn:Eg2; [| discriminate].
  destruct (hexDigit b1) as [db1 |] eqn:Eb1; [| discriminate].
  destruct (hexDigit b2) as [db2 |] eqn:Eb2; [| discriminate].
  destruct (parseInt16_two_digits r1 r2 dr1 dr2 Er1 Er2) as [Pr Rr].
  destruct (parseInt16_two_digits g1 g2 dg1 dg2 Eg1 Eg2) as [Pg Rg].
  destruct (parseInt16_two_digits b1 b2 db1 db2 Eb1 Eb2) as [Pb Rb].
  exists (16 * dr1 + dr2)%Z, (16 * dg1 + dg2)%Z, (16 * db1 + db2)%Z.
  split; [repeat split; lia |].
  change (slice [h; r1; r2; g1; g2; b1; b2] 1 3) with [r1; r2].
  change (slice [h; r1; r2; g1; g2; b1; b2] 3 5) with [g1; g2].
  change (slice [h; r1; r2; g1; g2; b1; b2] 5 7) with [b1; b2].
  split; [exact Pr |]. split; [exact Pg |]. split; [exact Pb |].
  unfold hexToRgba, rgbaOf, rgbaText.
  change (slice [h; r1; r2; g1; g2; b1; b2] 1 3) with [r1; r2].
  change (slice [h; r1; r2; g1; g2; b1; b2] 3 5) with [g1; g2].
  change (slice [h; r1; r2; g1; g2; b1; b2] 5 7) with [b1; b2].
  rewrite Pr, Pg, Pb. reflexivity.
Qed.

(** C8, as the code has it.  [hexToRgba('#D4AF37', alpha)] is the text
    [rgba(212, 175, 55, alpha)].  For a well-formed [#RRGGBB] every channel
    is the value of its two digits, between 0 and 255.  For any string at all
    the function returns a text, its channels being [parseInt] of the code
    units 1-2, 3-4 and 5-6: integers between -255 and 255, or NaN.  Nothing
    replaces a failed parse by a default colour: a string of at most one code
    unit gives [rgba(NaN, NaN, NaN, alpha)]. *)
Theorem hexToRgba_channels {host : Host} (hex : jsstring) (alpha : Q) :
  hexToRgba (str "#D4AF37") alpha
  = str "rgba(212, 175, 55, " ++ Number_toString alpha ++ str ")"
  /\ (wellFormedHex hex = true ->
      exists r g b,
        ((0 <= r <= 255)%Z /\ (0 <= g <= 255)%Z /\ (0 <= b <= 255)%Z)
        /\ hexToRgba hex alpha = rgbaOf r g b alpha)
  /\ (hexToRgba hex alpha
      = rgbaText (parseInt16 (slice hex 1 3)) (parseInt16 (slice hex 3 5))
          (parseInt16 (slice hex 5 7)) alpha
      /\ channelRange (parseInt16 (slice hex 1 3))
      /\ channelRange (parseInt16 (slice hex 3 5))
      /\ channelRange (parseInt16 (slice hex 5 7)))
  /\ ((List.length hex <= 1)%nat ->
      hexToRgba hex alpha = rgbaText None None None alpha).
Proof.
  split; [reflexivity |]. split; [| split].
  - intros Hwf.
    destruct (hexToRgba_wellFormed hex alpha Hwf)
      as (r & g & b & Hrange & _ & _ & _ & E).
    exists r, g, b. split; assumption.
  - split; [reflexivity |].
    repeat split; apply parseInt16_slice_range;
      (eapply Nat.le_trans; [apply slice_length | cbn; lia]).
  - intros Hshort. destruct hex as [| c [| c' rest]]; [reflexivity | reflexivity |].
    cbn in Hshort. lia.
Qed.

Lemma hexToRgba_channels_witness :
  exists r g b,
    ((0 <= r <= 255)%Z /\ (0 <= g <= 255)%Z /\ (0 <= b <= 255)%Z)
    /\ hexToRgba (str "#C2B280") 0.5 = rgbaOf r g b 0.5.
Proof.
  refine (proj1 (proj2 (hexToRgba_channels (host := exampleHost)
            (str "#C2B280") 0.5)) _).
  reflexivity.
Defined.

(** C8 as stated fails for malformed strings: the colour name [gold] gives
    the text [rgba(NaN, 13, NaN, 0.5)], which is the text of no colour. *)
Lemma hexToRgba_malformed_gives_NaN :
  wellFormedHex (str "gold") = false
  /\ hexToRgba (str "gold") 0.5 = str "rgba(NaN, 13, NaN, 0.5)"
  /\ forall r g b : Z, hexToRgba (str "gold") 0.5 <> rgbaOf r g b 0.5.
Proof.
  split; [reflexivity |]. split; [vm_compute; reflexivity |].
  intros r g b E.
  destruct (showInt_number r) as (c & rest & Er & Hc).
  unfold rgbaOf, rgbaText in E. rewrite Er in E.
  vm_compute in E. injection E as E _. apply Hc. symmetry. exact E.
Qed.

(** * What a frame writes and reads *)

Section Repaint.

Context {host : Host}.

Variable paint : jsstring -> jsstring.

Lemma respawn_recolor (width height scaleFactor : Q) (tips : list Point)
    (p : Particle) (s : Stream) :
  respawn width height scaleFactor tips (recolor paint p) s
  = mapReturned (recolor paint) (respawn width height scaleFactor tips p s).
Proof.
  unfold respawn. change (Particle.life (recolor paint p)) with (Particle.life p).
  destruct (Qle_bool (Particle.life p) 0); [| reflexivity].
  destruct tips as [| t0 tips']; [reflexivity |].
  unfold bind, Math_random.
  destruct (index (t0 :: tips') _ _) as [[source s1] | error]; reflexivity.
Qed.

Lemma computeForce_recolor (currentTheme : VisualTheme) (time scaleFactor : Q)
    (tips : list Point) (p : Particle) (s : Stream) :
  computeForce currentTheme time scaleFactor tips (recolor paint p) s
  = computeForce currentTheme time scaleFactor tips p s.
Proof. reflexivity. Qed.

Lemma updateParticle_recolor (currentTheme : VisualTheme) (f : Frame)
    (deltaTime scaleFactor : Q) (tips : list Point) (p : Particle) (s : Stream) :
  updateParticle currentTheme f deltaTime scaleFactor tips (recolor paint p) s
  = mapReturned (recolor paint)
      (updateParticle currentTheme f deltaTime scaleFactor tips p s).
Proof.
  unfold updateParticle, bind.
  change (decay deltaTime (recolor paint p)) with (recolor paint (decay deltaTime p)).
  rewrite respawn_recolor.
  destruct (respawn (width f) (height f) scaleFactor tips (decay deltaTime p) s)
    as [[p1 s1] | error]; [| reflexivity].
  cbn [mapReturned]. rewrite computeForce_recolor.
  destruct (computeForce currentTheme (time f) scaleFactor tips p1 s1)
    as [[force s2] | error]; reflexivity.
Qed.

Lemma drawParticle_recolor (currentTheme : VisualTheme) (dpr geometryDistance : Q)
    (i : nat) (p : Particle) (later : list Particle) :
  drawParticle currentTheme dpr geometryDistance i (recolor paint p)
    (map (recolor paint) later)
  = drawParticle currentTheme dpr geometryDistance i p later.
Proof.
  unfold drawParticle. cbn [recolor Particle.set_color Particle.type Particle.life
                            Particle.x Particle.y Particle.size].
  destruct (isStructure (Particle.type p)); [| reflexivity].
  f_equal. destruct (Nat.even i); [| reflexivity].
  rewrite firstn_map, !flat_map_concat_map, map_map. reflexivity.
Qed.

Lemma particleLoop_recolor (currentTheme : VisualTheme) (f : Frame)
    (deltaTime dpr : Q) (tips : list Point) (ps : list Particle) (i : nat)
    (s : Stream) :
  particleLoop currentTheme f deltaTime dpr tips i (map (recolor paint) ps) s
  = mapReturned (fun r => (map (recolor paint) (fst r), snd r))
      (particleLoop currentTheme f deltaTime dpr tips i ps s).
Proof.
  revert i s. induction ps as [| p later IH]; intros i s; [reflexivity |].
  cbn [map particleLoop]. unfold bind.
  rewrite updateParticle_recolor.
  destruct (updateParticle currentTheme f deltaTime dpr tips p s)
    as [[p' s1] | error]; [| reflexivity].
  cbn [mapReturned]. rewrite IH.
  destruct (particleLoop currentTheme f deltaTime dpr tips (S i) later s1)
    as [[[ps' cmds] s2] | error]; [| reflexivity].
  cbn [mapReturned fst snd ret map]. rewrite drawParticle_recolor. reflexivity.
Qed.

Lemma geminiTrigger_repaint (n : nat) (totalSpread t : Q) (st : Visualizer) :
  geminiTrigger n totalSpread t (repaint paint st)
  = (repaint paint (fst (geminiTrigger n totalSpread t st)),
     snd (geminiTrigger n totalSpread t st)).
Proof.
  unfold geminiTrigger.
  change (lastThemeUpdate (repaint paint st)) with (lastThemeUpdate st).
  destruct ((0 <? n)%nat && Qltb 4000 (t - lastThemeUpdate st)); reflexivity.
Qed.

Lemma detectHands_repaint (st : Visualizer) (f : Frame) (s : Stream) :
  detectHands (repaint paint st) f s
  = mapReturned (fun r => (repaint paint (fst r), snd r)) (detectHands st f s).
Proof.
  unfold detectHands.
  destruct (detection f) as [results |]; [| reflexivity].
  unfold bind.
  destruct (match results with
            | Some hands => scanHands (width f) (height f) hands ([], [], 0)
            | None => ret ([], [], 0)
            end s) as [[[[tips joints] totalSpread] s1] | error]; [| reflexivity].
  unfold ret. cbn [mapReturned].
  change (set_hands tips joints (repaint paint st))
    with (repaint paint (set_hands tips joints st)).
  rewrite geminiTrigger_repaint. reflexivity.
Qed.

(** Repainting the stored colours before a frame is the same as repainting
    them after it: the frame neither reads nor writes them. *)
Lemma render_repaint (currentTheme : VisualTheme) (st : Visualizer) (f : Frame)
    (s : Stream) :
  render currentTheme (repaint paint st) f s
  = mapReturned (fun r => (repaint paint (fst r), snd r))
      (render currentTheme st f s).
Proof.
  unfold render, bind.
  change (set_lastTime (time f) (repaint paint st))
    with (repaint paint (set_lastTime (time f) st)).
  change (lastTime (repaint paint st)) with (lastTime st).
  rewrite detectHands_repaint.
  destruct (detectHands (set_lastTime (time f) st) f s)
    as [[[st1 reqs] s1] | error]; [| reflexivity].
  cbn [mapReturned fst snd].
  change (particles (repaint paint st1)) with (map (recolor paint) (particles st1)).
  change (handPoints (repaint paint st1)) with (handPoints st1).
  change (handSkeleton (repaint paint st1)) with (handSkeleton st1).
  rewrite particleLoop_recolor.
  destruct (particleLoop currentTheme f (time f - lastTime st)
              (if Qeq_bool (devicePixelRatio f) 0 then 1 else devicePixelRatio f)
              (handPoints st1) 0 (particles st1) s1)
    as [[[ps' cmds] s2] | error]; reflexivity.
Qed.

End Repaint.

Lemma drawParticle_styles {host : Host} (currentTheme : VisualTheme)
    (dpr geometryDistance : Q) (i : nat) (p : Particle) (later : list Particle)
    (cmd : Canvas2D) (style : jsstring) :
  In cmd (drawParticle currentTheme dpr geometryDistance i p later) ->
  styleOf cmd = Some style ->
  exists alpha,
    style = hexToRgba (if isStructure (Particle.type p)
                       then primaryColor currentTheme
                       else secondaryColor currentTheme) alpha.
Proof.
  unfold drawParticle.
  destruct (isStructure (Particle.type p)).
  - intros Hin Hstyle. apply in_app_or in Hin. destruct Hin as [Hin | Hin].
    + destruct Hin as [<- | [<- | []]]; [| discriminate].
      injection Hstyle as <-. eexists. reflexivity.
    + destruct (Nat.even i); [| destruct Hin].
      apply in_flat_map in Hin. destruct Hin as (p2 & _ & Hin).
      unfold drawLink in Hin.
      destruct (isStructure (Particle.type p2)); [| destruct Hin].
      destruct (num_hypot _ _) as [d |]; [| destruct Hin].
      destruct (Qltb d geometryDistance); [| destruct Hin].
      destruct Hin as [<- | [<- | [<- | [<- | [<- | [<- | []]]]]]];
        try discriminate.
      injection Hstyle as <-. eexists. reflexivity.
  - intros [<- | [<- | [<- | [<- | []]]]] Hstyle; try discriminate.
    injection Hstyle as <-. eexists. reflexivity.
Qed.

(** C10: a frame returns and, respawns included, leaves [size], [maxLife],
    [type] and [color] of every particle as they were: it writes [x], [y],
    [vx], [vy] and [life] only.  The stored [color] is never read: with
    other colours stored, the frame draws the same, issues the same requests
    and leaves the same state, stored colours apart.  Every colour a particle
    is drawn with is computed from the theme's primary colour for STRUCTURE
    and from its secondary colour for STARDUST. *)
Theorem frame_writes_only_kinematics {host : Host} (currentTheme : VisualTheme)
    (st : Visualizer) (f : Frame) (draws : Stream) :
  sensed f -> 0 <= width f -> 0 <= height f -> unitDraws draws ->
  (exists st' fx draws',
     render currentTheme st f draws = Returns (st', fx, draws')
     /\ Forall2 sameIdentity (particles st) (particles st')
     /\ forall paint,
          render currentTheme (repaint paint st) f draws
          = Returns (repaint paint st', fx, draws'))
  /\ (forall dpr geometryDistance i p later cmd style,
        In cmd (drawParticle currentTheme dpr geometryDistance i p later) ->
        styleOf cmd = Some style ->
        exists alpha,
          style = hexToRgba (if isStructure (Particle.type p)
                             then primaryColor currentTheme
                             else secondaryColor currentTheme) alpha).
Proof.
  intros Hsensed Hw Hh Hdraws. split.
  - destruct (render_total currentTheme st f Hsensed Hw Hh draws Hdraws)
      as ([st' fx] & draws' & E & _ & Hps & _).
    cbn [fst] in Hps.
    exists st', fx, draws'. split; [exact E |]. split.
    + clear E. induction Hps as [| p p' ps ps' Hp _ IH]; constructor;
        [apply Hp | exact IH].
    + intros paint. rewrite render_repaint, E. reflexivity.
  - intros dpr geometryDistance i p later cmd style.
    apply drawParticle_styles.
Qed.

Lemma frame_writes_only_kinematics_witness :
  exists st' fx draws',
    render DEFAULT_THEME mounted handFrame (constantDraws 0.5)
    = Returns (st', fx, draws')
    /\ Forall2 sameIdentity (particles mounted) (particles st')
    /\ forall paint,
         render DEFAULT_THEME (repaint paint mounted) handFrame (constantDraws 0.5)
         = Returns (repaint paint st', fx, draws').
Proof.
  refine (proj1 (frame_writes_only_kinematics (host := exampleHost) DEFAULT_THEME
            mounted handFrame (constantDraws 0.5) _ _ _ _)).
  - cbn. constructor; [| constructor]. unfold fullHand. cbn. lia.
  - unfold Qle; cbn; lia.
  - unfold Qle; cbn; lia.
  - apply unitDraws_constant; [unfold Qle | unfold Qlt]; cbn; lia.
Defined.

(** * Closed runs *)

(** The golden colour of the default theme at half opacity. *)
Example hexToRgba_gold :
  hexToRgba (str "#D4AF37") 0.5 = str "rgba(212, 175, 55, 0.5)".
Proof. vm_compute. reflexivity. Qed.

(** [parseInt] stops at the first code unit that is no digit, and accepts a
    sign. *)
Example hexToRgba_partial :
  hexToRgba (str "#1g-fzz") 0.5 = str "rgba(1, -15, NaN, 0.5)".
Proof. vm_compute. reflexivity. Qed.

(** The sample session: the frame at 5000 ms issues the one request, the
    answer replaces the theme and restarts the loop, and the frame at 5216 ms
    is inside the cooldown. *)
Example sampleSession_runs :
  match run mounted sampleSession (constantDraws 0.5) with
  | Continues st fx _ =>
      Some (requests fx, lastThemeUpdate st, lastTime st, asVisualTheme (theme st),
            rejected fx)
  | _ => None
  end
  = Some ([sampleRequest], 5000, 5216, Some sampleTheme, false).
Proof. vm_compute. reflexivity. Qed.

(** A straying particle, carried past the left edge by its velocity, ends the
    frame on the right edge. *)
Example straying_particle_frame :
  option_map (fun p => (Particle.x p, Particle.life p))
    (returned (updateParticle DEFAULT_THEME handFrame 16 1 []
                 (Particle.set_x 0.5 (Particle.set_vx (-2) straying))
                 (constantDraws 0.5)))
  = Some (Num 800, 49.20).
Proof. vm_compute. reflexivity. Qed.

(** * Further properties: initParticles *)

Lemma halfDraws : unitDraws (constantDraws 0.5).
Proof. apply unitDraws_constant; [unfold Qle | unfold Qlt]; cbn; lia. Qed.

Lemma newStructure_seeded (width height dpr : Q) :
  total (newStructure width height dpr) (seededStructure width height dpr).
Proof.
  unfold newStructure.
  eapply total_bind; [apply total_random |]. intros rx Hrx. cbn beta.
  eapply total_bind; [apply total_random |]. intros ry Hry. cbn beta.
  eapply total_bind; [apply total_random |]. intros rvx Hrvx. cbn beta.
  eapply total_bind; [apply total_random |]. intros rvy Hrvy. cbn beta.
  eapply total_bind; [apply total_random |]. intros rsize Hrsize. cbn beta.
  eapply total_bind; [apply total_random |]. intros rlife Hrlife. cbn beta.
  eapply total_bind; [apply total_random |]. intros rmax Hrmax. cbn beta.
  apply total_ret. exists rx, ry, rvx, rvy, rsize, rlife, rmax.
  exact (conj (conj Hrx (conj Hry (conj Hrvx Hrvy)))
              (conj (conj Hrsize (conj Hrlife Hrmax)) eq_refl)).
Qed.

Lemma newStardust_seeded (width height dpr : Q) :
  total (newStardust width height dpr) (seededStardust width height dpr).
Proof.
  unfold newStardust.
  eapply total_bind; [apply total_random |]. intros rx Hrx. cbn beta.
  eapply total_bind; [apply total_random |]. intros ry Hry. cbn beta.
  eapply total_bind; [apply total_random |]. intros rvx Hrvx. cbn beta.
  eapply total_bind; [apply total_random |]. intros rvy Hrvy. cbn beta.
  eapply total_bind; [apply total_random |]. intros rsize Hrsize. cbn beta.
  eapply total_bind; [apply total_random |]. intros rlife Hrlife. cbn beta.
  eapply total_bind; [apply total_random |]. intros rmax Hrmax. cbn beta.
  apply total_ret. exists rx, ry, rvx, rvy, rsize, rlife, rmax.
  exact (conj (conj Hrx (conj Hry (conj Hrvx Hrvy)))
              (conj (conj Hrsize (conj Hrlife Hrmax)) eq_refl)).
Qed.

(** The two loops, one after the other. *)
Lemma initParticles_seeded (width height dpr : Q) :
  total (initParticles width height dpr)
    (fun ps =>
       exists structure stardust,
         ps = structure ++ stardust
         /\ List.length structure = 150%nat /\ List.length stardust = 300%nat
         /\ Forall (seededStructure width height dpr) structure
         /\ Forall (seededStardust width height dpr) stardust).
Proof.
  unfold initParticles.
  eapply total_bind; [apply repeatM_total, newStructure_seeded |].
  intros structure [Hs Ls]. cbn beta.
  eapply total_bind; [apply repeatM_total, newStardust_seeded |].
  intros stardust [Hd Ld]. cbn beta.
  apply total_ret. exists structure, stardust. repeat split; assumption.
Qed.

Lemma initParticles_all_seeded (width height dpr : Q) :
  total (initParticles width height dpr) (Forall (seeded width height dpr)).
Proof.
  intros s Hs.
  destruct (initParticles_seeded width height dpr s Hs)
    as (ps & s' & E & Hs' & structure & stardust & -> & _ & _ & Hst & Hsd).
  exists (structure ++ stardust), s'. split; [exact E |]. split; [exact Hs' |].
  apply Forall_app. split.
  - eapply Forall_impl; [| exact Hst]. intros p Hp. left. exact Hp.
  - eapply Forall_impl; [| exact Hsd]. intros p Hp. right. exact Hp.
Qed.

(** X1: [initParticles] returns 450 particles: 150 of type STRUCTURE in the
    default primary colour, then 300 of type STARDUST in the default secondary
    colour. *)
Theorem initParticles_population (width height dpr : Q) (draws : Stream) :
  unitDraws draws ->
  exists ps draws',
    initParticles width height dpr draws = Returns (ps, draws')
    /\ List.length ps = 450%nat
    /\ Forall (fun p => Particle.type p = STRUCTURE
                        /\ Particle.color p = str "#D4AF37") (firstn 150 ps)
    /\ Forall (fun p => Particle.type p = STARDUST
                        /\ Particle.color p = str "#1A237E") (skipn 150 ps).
Proof.
  intros Hdraws.
  destruct (initParticles_seeded width height dpr draws Hdraws)
    as (ps & draws' & E & _ & structure & stardust & -> & Ls & Ld & Hst & Hsd).
  exists (structure ++ stardust), draws'. split; [exact E |].
  split; [rewrite length_app, Ls, Ld; reflexivity |].
  rewrite <- Ls at 1. rewrite firstn_app, Nat.sub_diag, firstn_all.
  cbn [firstn]. rewrite app_nil_r.
  rewrite <- Ls. rewrite skipn_app, Nat.sub_diag, skipn_all. cbn [skipn app].
  split.
  - eapply Forall_impl; [| exact Hst].
    intros p (rx & ry & rvx & rvy & rsize & rlife & rmax & _ & _ & ->).
    split; reflexivity.
  - eapply Forall_impl; [| exact Hsd].
    intros p (rx & ry & rvx & rvy & rsize & rlife & rmax & _ & _ & ->).
    split; reflexivity.
Qed.

Lemma initParticles_population_witness :
  exists ps draws',
    initParticles 800 600 1 (constantDraws 0.5) = Returns (ps, draws')
    /\ List.length ps = 450%nat
    /\ Forall (fun p => Particle.type p = STRUCTURE
                        /\ Particle.color p = str "#D4AF37") (firstn 150 ps)
    /\ Forall (fun p => Particle.type p = STARDUST
                        /\ Particle.color p = str "#1A237E") (skipn 150 ps).
Proof.
  apply (initParticles_population 800 600 1 (constantDraws 0.5)).
  apply halfDraws.
Defined.

(** X2: On a canvas of positive size every new particle lies in the half-open
    box [0, width) x [0, height). *)
Theorem initParticles_inside_canvas (width height dpr : Q) (draws : Stream) :
  unitDraws draws -> 0 < width -> 0 < height ->
  exists ps draws',
    initParticles width height dpr draws = Returns (ps, draws')
    /\ Forall (inHalfOpenBox width height) ps.
Proof.
  intros Hdraws Hw Hh.
  destruct (initParticles_all_seeded width height dpr draws Hdraws)
    as (ps & draws' & E & _ & Hps).
  exists ps, draws'. split; [exact E |].
  eapply Forall_impl; [| exact Hps].
  unfold inHalfOpenBox, unitDraw.
  intros p [Hp | Hp];
    destruct Hp as (rx & ry & rvx & rvy & rsize & rlife & rmax
                    & ([Hx0 Hx1] & [Hy0 Hy1] & _) & _ & ->);
    cbn; repeat split; nra.
Qed.

Lemma initParticles_inside_canvas_witness :
  exists ps draws',
    initParticles 800 600 1 (constantDraws 0.5) = Returns (ps, draws')
    /\ Forall (inHalfOpenBox 800 600) ps.
Proof.
  apply (initParticles_inside_canvas 800 600 1 (constantDraws 0.5)).
  - apply halfDraws.
  - unfold Qlt; cbn; lia.
  - unfold Qlt; cbn; lia.
Defined.

(** X3: A new STRUCTURE particle moves at up to [0.25 * dpr] per axis and is
    between [dpr] and [3 * dpr] wide; a new STARDUST particle moves at up to
    [0.05 * dpr], a fifth of that, and is at most [1.5 * dpr] wide. *)
Theorem initParticles_kinematics (width height dpr : Q) (draws : Stream) :
  unitDraws draws -> 0 <= dpr ->
  exists ps draws',
    initParticles width height dpr draws = Returns (ps, draws')
    /\ Forall (initialKinematics dpr) ps.
Proof.
  intros Hdraws Hdpr.
  destruct (initParticles_all_seeded width height dpr draws Hdraws)
    as (ps & draws' & E & _ & Hps).
  exists ps, draws'. split; [exact E |].
  eapply Forall_impl; [| exact Hps].
  unfold initialKinematics, unitDraw.
  intros p [Hp | Hp];
    destruct Hp as (rx & ry & rvx & rvy & rsize & rlife & rmax
                    & (_ & _ & [Hvx0 Hvx1] & [Hvy0 Hvy1])
                    & ([Hs0 Hs1] & _) & ->);
    cbn [Particle.type Particle.vx Particle.vy Particle.size num_abs num_le];
    (split; [split; apply Qabs_case; intros _; nra | split; nra]).
Qed.

Lemma initParticles_kinematics_witness :
  exists ps draws',
    initParticles 800 600 2 (constantDraws 0.5) = Returns (ps, draws')
    /\ Forall (initialKinematics 2) ps.
Proof.
  apply (initParticles_kinematics 800 600 2 (constantDraws 0.5)).
  - apply halfDraws.
  - unfold Qle; cbn; lia.
Defined.

(** X4: A new STRUCTURE particle has [0 <= life < 100 <= maxLife <= 150], a
    new STARDUST particle [0 <= life < 200 <= maxLife <= 400].  (The upper
    bounds of [maxLife] are stated as they also hold after rounding.) *)
Theorem initParticles_lifespans (width height dpr : Q) (draws : Stream) :
  unitDraws draws ->
  exists ps draws',
    initParticles width height dpr draws = Returns (ps, draws')
    /\ Forall initialLifespan ps.
Proof.
  intros Hdraws.
  destruct (initParticles_all_seeded width height dpr draws Hdraws)
    as (ps & draws' & E & _ & Hps).
  exists ps, draws'. split; [exact E |].
  eapply Forall_impl; [| exact Hps].
  unfold initialLifespan, unitDraw.
  intros p [Hp | Hp];
    destruct Hp as (rx & ry & rvx & rvy & rsize & rlife & rmax
                    & _ & (_ & [Hl0 Hl1] & [Hm0 Hm1]) & ->);
    cbn; repeat split; lra.
Qed.

Lemma initParticles_lifespans_witness :
  exists ps draws',
    initParticles 800 600 1 (constantDraws 0.5) = Returns (ps, draws')
    /\ Forall initialLifespan ps.
Proof.
  apply (initParticles_lifespans 800 600 1 (constantDraws 0.5)).
  apply halfDraws.
Defined.

(** * Further properties: hand detection *)

Section Detection.

Context {host : Host}.

Lemma index_returns {A} (xs : list A) (i : Z) (d : A) (s : Stream) :
  (0 <= i < Z.of_nat (List.length xs))%Z ->
  index xs i s = Returns (nth (Z.to_nat i) xs d, s).
Proof.
  intros Hi. unfold index.
  destruct (Z.ltb_spec i 0) as [Hneg | _]; [lia |].
  rewrite (nth_error_nth' xs d) by lia. reflexivity.
Qed.

Lemma index_outside {A} (xs : list A) (i : Z) (s : Stream) :
  (Z.of_nat (List.length xs) <= i)%Z -> index xs i s = Throws "TypeError".
Proof.
  intros Hi. unfold index.
  destruct (Z.ltb_spec i 0) as [Hneg | _]; [reflexivity |].
  assert (E : nth_error xs (Z.to_nat i) = None) by (apply nth_error_None; lia).
  rewrite E. reflexivity.
Qed.

Lemma index_cases {A} (xs : list A) (i : Z) (s : Stream) :
  (exists a, index xs i s = Returns (a, s)) \/ index xs i s = Throws "TypeError".
Proof.
  unfold index. destruct (i <? 0)%Z; [right; reflexivity |].
  destruct (nth_error xs (Z.to_nat i)) as [a |];
    [left; exists a; reflexivity | right; reflexivity].
Qed.

(** One full hand moves the loop on by its tips, joints and spread. *)
Lemma scanHands_step (width height : Q) (landmarks : list Point)
    (rest : list (list Point)) (tips joints : list Point) (totalSpread : Q)
    (s : Stream) :
  fullHand landmarks ->
  scanHands width height (landmarks :: rest) (tips, joints, totalSpread) s
  = scanHands width height rest
      (tips ++ handTips width height landmarks,
       joints ++ map (toCanvas width height) landmarks,
       totalSpread + handSpread landmarks) s.
Proof.
  unfold fullHand. intros Hfull.
  cbn [scanHands]. unfold fingertips. cbn [mapM]. unfold bind, ret.
  repeat (rewrite (index_returns landmarks _ origin) by lia; cbn beta iota).
  reflexivity.
Qed.

Lemma scanHands_collected (width height : Q) (hands : list (list Point))
    (acc : list Point * list Point * Q) (s : Stream) :
  Forall fullHand hands ->
  scanHands width height hands acc s = Returns (collected width height hands acc, s).
Proof.
  intros Hhands. revert acc.
  induction Hhands as [| landmarks rest Hfull _ IH]; intros [[tips joints] totalSpread].
  - cbn. rewrite !app_nil_r. reflexivity.
  - rewrite scanHands_step by exact Hfull. rewrite IH.
    cbn [collected flat_map fold_left]. rewrite <- !app_assoc. reflexivity.
Qed.

Lemma scanHands_short (width height : Q) (hands : list (list Point))
    (acc : list Point * list Point * Q) (s : Stream) :
  Exists shortHand hands ->
  scanHands width height hands acc s = Throws "TypeError".
Proof.
  intros Hshort. revert acc.
  induction hands as [| landmarks rest IH]; intros [[tips joints] totalSpread];
    [inversion Hshort |].
  destruct (Nat.lt_ge_cases (List.length landmarks) 21) as [Hlt | Hge].
  - cbn [scanHands]. unfold fingertips. cbn [mapM]. unfold bind, ret.
    destruct (index_cases landmarks 4 s) as [[a4 ->] | ->]; [| reflexivity].
    cbn beta iota.
    destruct (index_cases landmarks 8 s) as [[a8 ->] | ->]; [| reflexivity].
    cbn beta iota.
    destruct (index_cases landmarks 12 s) as [[a12 ->] | ->]; [| reflexivity].
    cbn beta iota.
    destruct (index_cases landmarks 16 s) as [[a16 ->] | ->]; [| reflexivity].
    cbn beta iota.
    rewrite (index_outside landmarks 20) by lia. reflexivity.
  - rewrite scanHands_step by exact Hge. apply IH.
    inversion Hshort as [? ? Hhere | ? ? Hlater]; subst; [| exact Hlater].
    unfold shortHand in Hhere. lia.
Qed.

Lemma handTips_length (width height : Q) (hands : list (list Point)) :
  List.length (flat_map (handTips width height) hands) = (5 * List.length hands)%nat.
Proof.
  induction hands as [| landmarks rest IH]; [reflexivity |].
  cbn [flat_map]. rewrite length_app, IH. cbn [handTips fingertips map List.length]. lia.
Qed.

Lemma detectHands_pure (st : Visualizer) (f : Frame) (s : Stream) :
  sensed f -> detectHands st f s = Returns (afterDetection st f, s).
Proof.
  unfold sensed, detectHands, afterDetection.
  destruct (detection f) as [[hands |] |]; intros Hsensed; [| reflexivity ..].
  unfold bind. rewrite scanHands_collected by exact Hsensed.
  destruct (collected (width f) (height f) hands ([], [], 0)) as [[tips joints] total].
  reflexivity.
Qed.

(** A sensed frame: detection and trigger are settled before the particles
    move, and the rest is the particle loop. *)
Lemma render_after_detection (currentTheme : VisualTheme) (st : Visualizer)
    (f : Frame) (draws : Stream) :
  sensed f -> 0 <= width f -> 0 <= height f -> unitDraws draws ->
  let detected := afterDetection (set_lastTime (time f) st) f in
  let dpr := if Qeq_bool (devicePixelRatio f) 0 then 1 else devicePixelRatio f in
  exists ps cmds draws',
    render currentTheme st f draws
    = Returns (set_particles ps (fst detected),
               {| drawn := [ SetFillStyle (str "rgba(5, 5, 5, 0.15)");
                             FillRect 0 0 (width f) (height f) ]
                           ++ drawSkeleton currentTheme dpr (handSkeleton (fst detected))
                           ++ cmds;
                  requests := snd detected;
                  rejected := false |},
               draws')
    /\ particleLoop currentTheme f (time f - lastTime st) dpr
         (handPoints (fst detected)) 0 (particles (fst detected)) draws
       = Returns (ps, cmds, draws')
    /\ Forall2 (updated f (time f - lastTime st)) (particles st) ps.
Proof.
  intros Hsensed Hw Hh Hdraws detected dpr.
  destruct (particleLoop_total currentTheme f (time f - lastTime st) dpr
              (handPoints (fst detected)) (particles (fst detected)) 0 Hw Hh
              draws Hdraws) as ([ps cmds] & draws' & E & _ & Hps).
  exists ps, cmds, draws'.
  split; [| split; [exact E |]].
  - unfold render, bind. rewrite detectHands_pure by exact Hsensed.
    fold detected. fold dpr. cbn [lastTime set_lastTime] in *. rewrite E.
    reflexivity.
  - cbn [fst] in Hps.
    assert (Eps : particles (fst detected) = particles st).
    { unfold detected, afterDetection.
      destruct (detection f) as [[hands |] |]; [| | reflexivity].
      - destruct (collected (width f) (height f) hands ([], [], 0))
          as [[tips joints] total].
        exact (proj1 (proj2 (geminiTrigger_spec (List.length hands) total (time f)
                               (set_hands tips joints (set_lastTime (time f) st))))).
      - exact (proj1 (proj2 (geminiTrigger_spec O 0 (time f)
                               (set_hands [] [] (set_lastTime (time f) st))))). }
    rewrite <- Eps. exact Hps.
Qed.

End Detection.

Section Sensing.

Context {host : Host}.

Lemma toCanvas_onCanvas (width height : Q) (lm : Point) :
  0 <= width -> 0 <= height -> normalized lm ->
  onCanvas width height (toCanvas width height lm).
Proof.
  intros Hw Hh [[Hx0 Hx1] [Hy0 Hy1]]. unfold onCanvas, toCanvas; cbn.
  repeat split; nra.
Qed.

Lemma handTips_In (width height : Q) (landmarks : list Point) (pt : Point) :
  fullHand landmarks ->
  In pt (handTips width height landmarks) ->
  exists lm, In lm landmarks /\ pt = toCanvas width height lm.
Proof.
  unfold fullHand, handTips. intros Hfull Hin.
  apply in_map_iff in Hin. destruct Hin as (i & <- & Hi).
  exists (nth (Z.to_nat i) landmarks origin). split; [| reflexivity].
  apply nth_In.
  unfold fingertips in Hi.
  destruct Hi as [<- | [<- | [<- | [<- | [<- | []]]]]]; cbn; lia.
Qed.

Lemma afterDetection_hands (st : Visualizer) (f : Frame) :
  match detection f with
  | Some (Some hands) =>
      handPoints (fst (afterDetection st f))
      = flat_map (handTips (width f) (height f)) hands
      /\ handSkeleton (fst (afterDetection st f))
         = flat_map (map (toCanvas (width f) (height f))) hands
  | Some None =>
      handPoints (fst (afterDetection st f)) = []
      /\ handSkeleton (fst (afterDetection st f)) = []
  | None =>
      handPoints (fst (afterDetection st f)) = handPoints st
      /\ handSkeleton (fst (afterDetection st f)) = handSkeleton st
  end.
Proof.
  unfold afterDetection.
  destruct (detection f) as [[hands |] |]; [| | split; reflexivity].
  - cbn [collected app].
    pose proof (geminiTrigger_spec (List.length hands)
                  (fold_left (fun total landmarks => total + handSpread landmarks) hands 0)
                  (time f)
                  (set_hands (flat_map (handTips (width f) (height f)) hands)
                     (flat_map (map (toCanvas (width f) (height f))) hands) st))
      as (_ & _ & E1 & E2 & _).
    split; [exact E1 | exact E2].
  - pose proof (geminiTrigger_spec O 0 (time f) (set_hands [] [] st))
      as (_ & _ & E1 & E2 & _).
    split; [exact E1 | exact E2].
Qed.

Lemma geminiTrigger_requests (n : nat) (totalSpread t : Q) (st : Visualizer) :
  Forall requestInRange (snd (geminiTrigger n totalSpread t st)).
Proof.
  unfold geminiTrigger.
  destruct (Nat.ltb_spec 0 n) as [Hn | Hn]; [| constructor].
  destruct (Qltb 4000 (t - lastThemeUpdate st)); [| constructor].
  cbn [andb snd]. constructor; [| constructor].
  unfold requestInRange; cbn [handCount movementIntensity spread].
  split; [lia |]. split; [reflexivity |]. split.
  - apply Q.min_glb; [apply Q.le_max_r | lra].
  - apply Q.le_min_r.
Qed.

Lemma geminiTrigger_status (n : nat) (totalSpread t : Q) (st : Visualizer) :
  ((0 < n)%nat /\ 4000 < t - lastThemeUpdate st ->
   geminiStatus (fst (geminiTrigger n totalSpread t st)) = CALCULATING)
  /\ (n = O \/ t - lastThemeUpdate st <= 4000 ->
      geminiStatus (fst (geminiTrigger n totalSpread t st)) = geminiStatus st).
Proof.
  unfold geminiTrigger.
  destruct (Nat.ltb_spec 0 n) as [Hn | Hn];
    destruct (Qltb_spec 4000 (t - lastThemeUpdate st)) as [Ht | Ht]; cbn [andb fst];
    (split; [intros [Hn' Ht'] | intros [Hn' | Ht']]);
    try lia; try lra; reflexivity.
Qed.

Lemma afterDetection_status (st : Visualizer) (f : Frame) :
  ((0 < handsSeen f)%nat /\ 4000 < time f - lastThemeUpdate st ->
   geminiStatus (fst (afterDetection st f)) = CALCULATING)
  /\ (handsSeen f = O \/ time f - lastThemeUpdate st <= 4000 ->
      geminiStatus (fst (afterDetection st f)) = geminiStatus st).
Proof.
  unfold afterDetection, handsSeen.
  destruct (detection f) as [[hands |] |].
  - cbn [collected app].
    apply (geminiTrigger_status (List.length hands) _ (time f)
             (set_hands (flat_map (handTips (width f) (height f)) hands)
                (flat_map (map (toCanvas (width f) (height f))) hands) st)).
  - apply (geminiTrigger_status O 0 (time f) (set_hands [] [] st)).
  - split; [intros [Hn _]; lia | reflexivity].
Qed.

Lemma afterDetection_requests (st : Visualizer) (f : Frame) :
  Forall requestInRange (snd (afterDetection st f)).
Proof.
  unfold afterDetection.
  destruct (detection f) as [[hands |] |]; [| | constructor].
  - cbn [collected app]. apply geminiTrigger_requests.
  - apply geminiTrigger_requests.
Qed.

End Sensing.

(** X5: A frame that runs the detector leaves in [handPoints] the five
    fingertips of every hand, hand after hand, and in [handSkeleton] all the
    landmarks, each mirrored in x and scaled to the canvas. *)
Theorem frame_records_hands {host : Host} (currentTheme : VisualTheme)
    (st : Visualizer) (f : Frame) (hands : list (list Point)) (draws : Stream) :
  detection f = Some (Some hands) -> Forall fullHand hands ->
  0 <= width f -> 0 <= height f -> unitDraws draws ->
  exists st' fx draws',
    render currentTheme st f draws = Returns (st', fx, draws')
    /\ handPoints st' = flat_map (handTips (width f) (height f)) hands
    /\ List.length (handPoints st') = (5 * List.length hands)%nat
    /\ handSkeleton st' = flat_map (map (toCanvas (width f) (height f))) hands
    /\ List.length (handSkeleton st')
       = list_sum (map (@List.length Point) hands).
Proof.
  intros Hdet Hhands Hw Hh Hdraws.
  assert (Hsensed : sensed f) by (unfold sensed; rewrite Hdet; exact Hhands).
  destruct (render_after_detection currentTheme st f draws Hsensed Hw Hh Hdraws)
    as (ps & cmds & draws' & E & _ & _).
  pose proof (afterDetection_hands (set_lastTime (time f) st) f) as Hh2.
  rewrite Hdet in Hh2. destruct Hh2 as [Etips Ejoints].
  eexists. eexists. exists draws'. split; [exact E |].
  cbn [handPoints handSkeleton set_particles].
  rewrite Etips, Ejoints.
  split; [reflexivity |]. split; [apply handTips_length |].
  split; [reflexivity |].
  clear. induction hands as [| landmarks rest IH]; [reflexivity |].
  cbn [flat_map map list_sum]. rewrite length_app, length_map, IH. reflexivity.
Qed.

Lemma frame_records_hands_witness :
  exists st' fx draws',
    render DEFAULT_THEME mounted handFrame (constantDraws 0.5)
    = Returns (st', fx, draws')
    /\ handPoints st' = flat_map (handTips 800 600) [flatHand]
    /\ List.length (handPoints st') = 5%nat
    /\ handSkeleton st' = flat_map (map (toCanvas 800 600)) [flatHand]
    /\ List.length (handSkeleton st') = 21%nat.
Proof.
  apply (frame_records_hands (host := exampleHost) DEFAULT_THEME mounted handFrame
           [flatHand] (constantDraws 0.5)).
  - reflexivity.
  - constructor; [unfold fullHand; cbn; lia | constructor].
  - unfold Qle; cbn; lia.
  - unfold Qle; cbn; lia.
  - apply halfDraws.
Defined.

(** X6: When the landmarks are in the unit square, every fingertip and every
    joint the frame records lies on the canvas, x mirrored: a landmark at
    [x = 0] lands on the right edge. *)
Theorem recorded_hands_on_canvas {host : Host} (currentTheme : VisualTheme)
    (st : Visualizer) (f : Frame) (hands : list (list Point)) (draws : Stream) :
  detection f = Some (Some hands) -> Forall fullHand hands ->
  Forall (Forall normalized) hands ->
  0 <= width f -> 0 <= height f -> unitDraws draws ->
  exists st' fx draws',
    render currentTheme st f draws = Returns (st', fx, draws')
    /\ Forall (onCanvas (width f) (height f)) (handPoints st')
    /\ Forall (onCanvas (width f) (height f)) (handSkeleton st')
    /\ forall lm, Point.x lm == 0 ->
         Point.x (toCanvas (width f) (height f) lm) == width f.
Proof.
  intros Hdet Hhands Hnorm Hw Hh Hdraws.
  assert (Hsensed : sensed f) by (unfold sensed; rewrite Hdet; exact Hhands).
  destruct (render_after_detection currentTheme st f draws Hsensed Hw Hh Hdraws)
    as (ps & cmds & draws' & E & _ & _).
  pose proof (afterDetection_hands (set_lastTime (time f) st) f) as Hh2.
  rewrite Hdet in Hh2. destruct Hh2 as [Etips Ejoints].
  eexists. eexists. exists draws'. split; [exact E |].
  cbn [handPoints handSkeleton set_particles].
  rewrite Etips, Ejoints.
  split; [| split].
  - apply Forall_forall. intros pt Hpt.
    apply in_flat_map in Hpt. destruct Hpt as (landmarks & Hland & Hpt).
    rewrite Forall_forall in Hhands, Hnorm.
    destruct (handTips_In (width f) (height f) landmarks pt (Hhands _ Hland) Hpt)
      as (lm & Hlm & ->).
    apply toCanvas_onCanvas; try assumption.
    pose proof (Hnorm _ Hland) as Hall. rewrite Forall_forall in Hall.
    apply Hall, Hlm.
  - apply Forall_forall. intros pt Hpt.
    apply in_flat_map in Hpt. destruct Hpt as (landmarks & Hland & Hpt).
    apply in_map_iff in Hpt. destruct Hpt as (lm & <- & Hlm).
    rewrite Forall_forall in Hnorm.
    apply toCanvas_onCanvas; try assumption.
    pose proof (Hnorm _ Hland) as Hall. rewrite Forall_forall in Hall.
    apply Hall, Hlm.
  - intros lm Hx. cbn. rewrite Hx. ring.
Qed.

Lemma recorded_hands_on_canvas_witness :
  exists st' fx draws',
    render DEFAULT_THEME mounted handFrame (constantDraws 0.5)
    = Returns (st', fx, draws')
    /\ Forall (onCanvas 800 600) (handPoints st')
    /\ Forall (onCanvas 800 600) (handSkeleton st')
    /\ forall lm, Point.x lm == 0 -> Point.x (toCanvas 800 600 lm) == 800.
Proof.
  apply (recorded_hands_on_canvas (host := exampleHost) DEFAULT_THEME mounted
           handFrame [flatHand] (constantDraws 0.5)).
  - reflexivity.
  - constructor; [unfold fullHand; cbn; lia | constructor].
  - constructor; [| constructor].
    unfold flatHand. apply Forall_forall. intros lm Hlm.
    apply in_map_iff in Hlm. destruct Hlm as (i & <- & Hi).
    apply in_seq in Hi. unfold normalized; cbn [Point.x Point.y].
    assert (Hi0 : 0 <= inject_Z (Z.of_nat i)).
    { change 0 with (inject_Z 0). rewrite <- Zle_Qle. lia. }
    assert (Hi1 : inject_Z (Z.of_nat i) <= 21).
    { change 21 with (inject_Z 21). rewrite <- Zle_Qle. lia. }
    repeat split; lra.
  - unfold Qle; cbn; lia.
  - unfold Qle; cbn; lia.
  - apply halfDraws.
Defined.

(** X7: Without a detected hand a frame issues no request and leaves the cooldown
    timer and the status line alone.  While the landmarker or the video is not
    ready the fingertips and the skeleton of the last detection stay; once the
    detector runs and finds nothing they are emptied. *)
Theorem frame_without_hands {host : Host} (currentTheme : VisualTheme)
    (st : Visualizer) (f : Frame) (draws : Stream) :
  handsSeen f = O -> sensed f ->
  0 <= width f -> 0 <= height f -> unitDraws draws ->
  exists st' fx draws',
    render currentTheme st f draws = Returns (st', fx, draws')
    /\ requests fx = []
    /\ lastThemeUpdate st' = lastThemeUpdate st
    /\ geminiStatus st' = geminiStatus st
    /\ (detection f = None ->
        handPoints st' = handPoints st /\ handSkeleton st' = handSkeleton st)
    /\ (detection f <> None -> handPoints st' = [] /\ handSkeleton st' = []).
Proof.
  intros Hnone Hsensed Hw Hh Hdraws.
  destruct (render_total currentTheme st f Hsensed Hw Hh draws Hdraws)
    as ([st' fx] & draws' & E & _ & _ & _ & _ & [_ Hquiet] & _).
  destruct (render_after_detection currentTheme st f draws Hsensed Hw Hh Hdraws)
    as (ps & cmds & draws2 & E2 & _ & _).
  rewrite E in E2. injection E2 as Est Efx _.
  cbn [fst snd] in Hquiet. destruct (Hquiet (or_introl Hnone)) as [Et Ereq].
  exists st', fx, draws'. split; [exact E |].
  split; [exact Ereq |]. split; [exact Et |].
  pose proof (afterDetection_hands (set_lastTime (time f) st) f) as Hhands.
  pose proof (proj2 (afterDetection_status (set_lastTime (time f) st) f)
                (or_introl Hnone)) as Estatus.
  rewrite Est. cbn [geminiStatus handPoints handSkeleton set_particles].
  split; [exact Estatus |].
  unfold handsSeen in Hnone.
  destruct (detection f) as [[hands |] |].
  - destruct hands; [| discriminate Hnone].
    split; [discriminate | intros _; exact Hhands].
  - split; [discriminate | intros _; exact Hhands].
  - split; [intros _; exact Hhands | congruence].
Qed.

Lemma frame_without_hands_witness :
  exists st' fx draws',
    render DEFAULT_THEME watching blindFrame (constantDraws 0.5)
    = Returns (st', fx, draws')
    /\ requests fx = []
    /\ handPoints st' = handTips 800 600 flatHand.
Proof.
  destruct (frame_without_hands (host := exampleHost) DEFAULT_THEME watching
              blindFrame (constantDraws 0.5))
    as (st' & fx & draws' & E & Ereq & _ & _ & Hkept & _).
  - reflexivity.
  - exact I.
  - unfold Qle; cbn; lia.
  - unfold Qle; cbn; lia.
  - apply halfDraws.
  - exists st', fx, draws'. split; [exact E |]. split; [exact Ereq |].
    apply Hkept. reflexivity.
Defined.

(** X8: A hand with fewer than 21 landmarks makes the frame throw a TypeError
    when it reads the missing fingertip.  Nothing in [render] catches it: the
    frame ends there, draws nothing and does not schedule the next one. *)
Theorem short_hand_stops_the_loop {host : Host} (currentTheme : VisualTheme)
    (st : Visualizer) (f : Frame) (hands : list (list Point)) (draws : Stream) :
  detection f = Some (Some hands) -> Exists shortHand hands ->
  render currentTheme st f draws = Throws "TypeError"
  /\ (asVisualTheme (theme st) = Some currentTheme ->
      step st (AnimationFrame f) draws = Stops "TypeError").
Proof.
  intros Hdet Hshort.
  assert (E : render currentTheme st f draws = Throws "TypeError").
  { unfold render, detectHands, bind. rewrite Hdet.
    rewrite scanHands_short by exact Hshort. reflexivity. }
  split; [exact E |].
  intros Htheme. cbn [step]. rewrite Htheme, E. reflexivity.
Qed.

Lemma short_hand_stops_the_loop_witness :
  step mounted (AnimationFrame brokenFrame) (constantDraws 0.5)
  = Stops "TypeError".
Proof.
  refine (proj2 (short_hand_stops_the_loop (host := exampleHost) DEFAULT_THEME
                   mounted brokenFrame [firstn 5 flatHand] (constantDraws 0.5)
                   _ _) _).
  - reflexivity.
  - constructor. unfold shortHand. cbn. lia.
  - reflexivity.
Defined.

(** X9: Every request a frame issues is for at least one hand, with the constant
    movement intensity 0.5 and a spread between 0 and 1. *)
Theorem issued_requests_in_range {host : Host} (currentTheme : VisualTheme)
    (st : Visualizer) (f : Frame) (draws : Stream) :
  sensed f -> 0 <= width f -> 0 <= height f -> unitDraws draws ->
  exists st' fx draws',
    render currentTheme st f draws = Returns (st', fx, draws')
    /\ Forall requestInRange (requests fx)
    /\ Forall (fun r => handCount r = handsSeen f) (requests fx).
Proof.
  intros Hsensed Hw Hh Hdraws.
  destruct (render_after_detection currentTheme st f draws Hsensed Hw Hh Hdraws)
    as (ps & cmds & draws' & E & _ & _).
  eexists. eexists. exists draws'. split; [exact E |].
  cbn [requests]. split; [apply afterDetection_requests |].
  unfold afterDetection, handsSeen.
  destruct (detection f) as [[hands |] |]; [| | constructor].
  - cbn [collected app]. unfold geminiTrigger.
    destruct ((0 <? List.length hands)%nat && Qltb 4000 _); cbn [snd];
      repeat constructor.
  - unfold geminiTrigger. cbn. constructor.
Qed.

Lemma issued_requests_in_range_witness :
  exists st' fx draws',
    render DEFAULT_THEME mounted handFrame (constantDraws 0.5)
    = Returns (st', fx, draws')
    /\ Forall requestInRange (requests fx)
    /\ Forall (fun r => handCount r = 1%nat) (requests fx).
Proof.
  apply (issued_requests_in_range (host := exampleHost) DEFAULT_THEME mounted
           handFrame (constantDraws 0.5)).
  - cbn. constructor; [unfold fullHand; cbn; lia | constructor].
  - unfold Qle; cbn; lia.
  - unfold Qle; cbn; lia.
  - apply halfDraws.
Defined.

(** X10: A frame that issues a request sets the status line to
    [CALCULATING GEOMETRY...].  A failed request does not touch it, and no
    frame inside the cooldown does: after a failure the status stays there. *)
Theorem status_stays_calculating_after_failure {host : Host}
    (currentTheme : VisualTheme) (st : Visualizer) (f : Frame) (draws : Stream) :
  sensed f -> 0 <= width f -> 0 <= height f -> unitDraws draws ->
  (0 < handsSeen f)%nat -> 4000 < time f - lastThemeUpdate st ->
  exists st' fx draws',
    render currentTheme st f draws = Returns (st', fx, draws')
    /\ geminiStatus st' = CALCULATING
    /\ (forall now request api,
          failedRequest api ->
          step st' (ThemeSettled now request api) draws'
          = Continues st' {| drawn := []; requests := []; rejected := false |} draws')
    /\ (forall nextTheme g draws1,
          sensed g -> 0 <= width g -> 0 <= height g -> unitDraws draws1 ->
          time g - time f <= 4000 ->
          exists st'' fx'' draws'',
            render nextTheme st' g draws1 = Returns (st'', fx'', draws'')
            /\ geminiStatus st'' = CALCULATING).
Proof.
  intros Hsensed Hw Hh Hdraws Hhands Hlate.
  destruct (render_total currentTheme st f Hsensed Hw Hh draws Hdraws)
    as ([st' fx] & draws' & E & _ & _ & _ & _ & [Hfire _] & _).
  destruct (render_after_detection currentTheme st f draws Hsensed Hw Hh Hdraws)
    as (ps & cmds & draws2 & E2 & _ & _).
  rewrite E in E2. injection E2 as Est Efx _.
  cbn [fst snd] in Hfire. destruct (Hfire (conj Hhands Hlate)) as [Et _].
  assert (Estatus : geminiStatus st' = CALCULATING).
  { rewrite Est. cbn [geminiStatus set_particles].
    apply (proj1 (afterDetection_status (set_lastTime (time f) st) f)).
    split; assumption. }
  exists st', fx, draws'. split; [exact E |]. split; [exact Estatus |]. split.
  - intros now request api Hfailed. cbn [step]. unfold onTheme.
    rewrite (failed_is_falsy _ _ _ api Hfailed). reflexivity.
  - intros nextTheme g draws1 Hsg Hwg Hhg Hd1 Hwithin.
    destruct (render_after_detection nextTheme st' g draws1 Hsg Hwg Hhg Hd1)
      as (ps' & cmds' & draws'' & E' & _ & _).
    eexists. eexists. exists draws''. split; [exact E' |].
    cbn [geminiStatus set_particles].
    rewrite (proj2 (afterDetection_status (set_lastTime (time g) st') g)).
    + exact Estatus.
    + right. cbn [lastThemeUpdate set_lastTime]. rewrite Et. exact Hwithin.
Qed.

Lemma status_stays_calculating_after_failure_witness :
  exists st' fx draws',
    render DEFAULT_THEME mounted handFrame (constantDraws 0.5)
    = Returns (st', fx, draws')
    /\ geminiStatus st' = CALCULATING.
Proof.
  destruct (status_stays_calculating_after_failure (host := exampleHost)
              DEFAULT_THEME mounted handFrame (constantDraws 0.5))
    as (st' & fx & draws' & E & Estatus & _).
  - cbn. constructor; [unfold fullHand; cbn; lia | constructor].
  - unfold Qle; cbn; lia.
  - unfold Qle; cbn; lia.
  - apply halfDraws.
  - cbn. lia.
  - unfold Qlt; cbn; lia.
  - exists st', fx, draws'. split; assumption.
Defined.

(** * Further properties: drawing *)

Lemma skeletonSegments_cons (i : nat) (p1 p2 : Point) (rest : list Point) :
  skeletonSegments i (p1 :: p2 :: rest)
  = (if (i mod 21 =? 20)%nat then []
     else [ MoveTo (Point.x p1) (Point.y p1); LineTo (Point.x p2) (Point.y p2) ])
    ++ skeletonSegments (S i) (p2 :: rest).
Proof. reflexivity. Qed.

Lemma skeletonSegments_shift (skeleton : list Point) (i : nat) :
  skeletonSegments (i + 21) skeleton = skeletonSegments i skeleton.
Proof.
  revert i. induction skeleton as [| p1 rest IH]; intros i; [reflexivity |].
  destruct rest as [| p2 rest']; [reflexivity |].
  rewrite (skeletonSegments_cons (i + 21)), (skeletonSegments_cons i).
  replace ((i + 21) mod 21)%nat with (i mod 21)%nat
    by (rewrite <- (Nat.Div0.mod_add i 1 21); f_equal; lia).
  rewrite <- (IH (S i)). reflexivity.
Qed.

Lemma skeletonSegments_hand (joints rest : list Point) :
  wholeHand joints ->
  skeletonSegments 0 (joints ++ rest)
  = skeletonSegments 0 joints ++ skeletonSegments 0 rest
  /\ List.length (skeletonSegments 0 joints) = 40%nat.
Proof.
  unfold wholeHand. intros Hlen.
  do 21 (destruct joints as [| ? joints]; [discriminate Hlen |]).
  destruct joints; [| discriminate Hlen].
  split; [| reflexivity].
  destruct rest as [| r rest']; [rewrite !app_nil_r; reflexivity |].
  cbn [app]. rewrite !skeletonSegments_cons.
  change (skeletonSegments 21 (r :: rest'))
    with (skeletonSegments (0 + 21) (r :: rest')).
  rewrite skeletonSegments_shift. reflexivity.
Qed.

(** X11: The skeleton is drawn hand by hand: with 21 joints per hand the line
    strip of all hands is the strips of the single hands one after the other,
    20 segments each, and no segment joins two hands.  An empty skeleton
    draws nothing. *)
Theorem skeleton_strips_per_hand {host : Host} (currentTheme : VisualTheme)
    (dpr : Q) (hands : list (list Point)) :
  Forall wholeHand hands ->
  skeletonSegments 0 (List.concat hands) = flat_map (skeletonSegments 0) hands
  /\ List.length (skeletonSegments 0 (List.concat hands)) = (40 * List.length hands)%nat
  /\ drawSkeleton currentTheme dpr [] = [].
Proof.
  intros Hhands.
  assert (E : skeletonSegments 0 (List.concat hands) = flat_map (skeletonSegments 0) hands
              /\ List.length (flat_map (skeletonSegments 0) hands)
                 = (40 * List.length hands)%nat).
  { induction Hhands as [| joints rest Hwhole _ [IH1 IH2]]; [split; reflexivity |].
    destruct (skeletonSegments_hand joints (List.concat rest) Hwhole) as [Esplit Elen].
    cbn [List.concat flat_map]. rewrite Esplit, IH1. split; [reflexivity |].
    rewrite length_app, Elen, IH2. cbn [List.length]. lia. }
  destruct E as [E1 E2]. split; [exact E1 |]. split; [| reflexivity].
  rewrite E1. exact E2.
Qed.

Lemma skeleton_strips_per_hand_witness :
  skeletonSegments 0 (List.concat [flatHand; flatHand])
  = flat_map (skeletonSegments 0) [flatHand; flatHand]
  /\ List.length (skeletonSegments 0 (List.concat [flatHand; flatHand])) = 80%nat.
Proof.
  destruct (skeleton_strips_per_hand (host := exampleHost) DEFAULT_THEME 1
              [flatHand; flatHand]) as (E1 & E2 & _).
  - repeat constructor.
  - split; [exact E1 | exact E2].
Defined.

Lemma drawLink_length {host : Host} (dpr geometryDistance alpha : Q)
    (baseColor : jsstring) (p p2 : Particle) :
  List.length (drawLink dpr geometryDistance alpha baseColor p p2)
  = if linkable geometryDistance p p2 then 6%nat else 0%nat.
Proof.
  unfold drawLink, linkable.
  destruct (isStructure (Particle.type p2)); [| reflexivity].
  destruct (num_hypot _ _) as [d |]; [| reflexivity].
  cbn [andb num_ltb]. destruct (Qltb d geometryDistance); reflexivity.
Qed.

Lemma links_length {host : Host} (dpr geometryDistance alpha : Q)
    (baseColor : jsstring) (p : Particle) (candidates : list Particle) :
  List.length (flat_map (drawLink dpr geometryDistance alpha baseColor p) candidates)
  = (6 * List.length (filter (linkable geometryDistance p) candidates))%nat.
Proof.
  induction candidates as [| p2 rest IH]; [reflexivity |].
  cbn [flat_map filter]. rewrite length_app, drawLink_length, IH.
  destruct (linkable geometryDistance p p2); cbn [List.length]; lia.
Qed.

(** X12: The drawing of one particle is bounded.  A STARDUST particle takes 4
    calls.  A STRUCTURE particle takes 2, and at an even index 6 more for each
    STRUCTURE particle closer than the geometry distance among the next 14 of
    the array: never more than 86 calls, however many particles there are. *)
Theorem drawParticle_bounded {host : Host} (currentTheme : VisualTheme)
    (dpr geometryDistance : Q) (i : nat) (p : Particle) (later : list Particle) :
  List.length (drawParticle currentTheme dpr geometryDistance i p later)
  = (if isStructure (Particle.type p)
     then 2 + (if Nat.even i
               then 6 * List.length (filter (linkable geometryDistance p)
                                       (firstn 14 later))
               else 0)
     else 4)%nat
  /\ (List.length (drawParticle currentTheme dpr geometryDistance i p later) <= 86)%nat.
Proof.
  assert (E : List.length (drawParticle currentTheme dpr geometryDistance i p later)
              = (if isStructure (Particle.type p)
                 then 2 + (if Nat.even i
                           then 6 * List.length (filter (linkable geometryDistance p)
                                                   (firstn 14 later))
                           else 0)
                 else 4)%nat).
  { unfold drawParticle.
    destruct (isStructure (Particle.type p)); [| reflexivity].
    rewrite length_app. cbn [List.length].
    destruct (Nat.even i); [| reflexivity].
    rewrite links_length. reflexivity. }
  split; [exact E |]. rewrite E.
  pose proof (filter_length_le (linkable geometryDistance p) (firstn 14 later)) as Hf.
  pose proof (firstn_le_length 14 later) as Hl.
  destruct (isStructure (Particle.type p)); [| lia].
  destruct (Nat.even i); lia.
Qed.

(** * Further properties: the modes of the interaction field *)

Lemma jsstring_eqb_eq (a b : jsstring) : jsstring_eqb a b = true -> a = b.
Proof.
  revert b. induction a as [| c a IH]; intros [| d b] E; cbn in E;
    try discriminate; [reflexivity |].
  apply andb_true_iff in E. destruct E as [Ec Eab].
  apply N.eqb_eq in Ec. rewrite Ec, (IH b Eab). reflexivity.
Qed.

Lemma isMode_name (v : JsValue) (m : InteractionMode) :
  isMode v m = true -> v = JsString (modeName m).
Proof.
  destruct v; cbn; try discriminate.
  intros E. apply jsstring_eqb_eq in E. rewrite E. reflexivity.
Qed.

Lemma engaged_fade {host : Host} (scaleFactor : Q) (p : Particle) (first : Point)
    (others : list Point) :
  engaged scaleFactor p first others -> 0 < fade scaleFactor p first others.
Proof.
  intros (_ & Hs & Hd). unfold fade.
  apply (factor_inside (fst (closest p first others)) (300 * scaleFactor));
    [lra | exact Hd].
Qed.

(** The offset from a particle that is somewhere to its closest fingertip is
    a pair of numbers. *)
Lemma towards_numbers {host : Host} (p : Particle) (first : Point)
    (others : list Point) :
  placed p ->
  exists x y : Q,
    Particle.x p = x /\ Particle.y p = y
    /\ towards p first others
       = (Num (Point.x (snd (closest p first others)) - x),
          Num (Point.y (snd (closest p first others)) - y)).
Proof.
  intros Hp. destruct (placed_numbers p Hp) as (x & y & Ex & Ey).
  exists x, y. split; [exact Ex |]. split; [exact Ey |].
  unfold towards. rewrite Ex, Ey. reflexivity.
Qed.

Lemma computeForce_engaged {host : Host} (currentTheme : VisualTheme)
    (time scaleFactor : Q) (first : Point) (others : list Point) (p : Particle)
    (draws : Stream) :
  engaged scaleFactor p first others ->
  computeForce currentTheme time scaleFactor (first :: others) p draws
  = (if isStructure (Particle.type p)
     then ret (structureForce currentTheme time scaleFactor
                 (geometryScale currentTheme * scaleFactor)
                 (fst (closest p first others)) (fade scaleFactor p first others)
                 (fst (towards p first others)) (snd (towards p first others)) p)
     else stardustForce currentTheme scaleFactor
            (fst (closest p first others)) (fade scaleFactor p first others)
            (fst (towards p first others)) (snd (towards p first others))) draws.
Proof.
  intros (_ & _ & Hd). unfold computeForce, fade, towards, closest in *.
  destruct (nearestTarget p (first :: others) first) as [closestDist target].
  cbn [fst snd] in *.
  apply Qltb_true in Hd. rewrite Hd. reflexivity.
Qed.

(** X13: FRAGMENT: a STRUCTURE particle closer than 200 px (times the scale) to
    its closest fingertip is pushed straight away from it, by a tenth of the
    offset times the fade factor; between 200 px and the interaction radius
    of 300 px it feels nothing.  The force never points towards the
    fingertip. *)
Theorem fragment_repels {host : Host} (currentTheme : VisualTheme)
    (time scaleFactor : Q) (first : Point) (others : list Point) (p : Particle)
    (draws : Stream) :
  isMode (mode currentTheme) FRAGMENT = true ->
  isStructure (Particle.type p) = true ->
  engaged scaleFactor p first others ->
  exists dx dy fx fy : Q,
    towards p first others = (Num dx, Num dy)
    /\ computeForce currentTheme time scaleFactor (first :: others) p draws
       = Returns ((Num fx, Num fy), draws)
    /\ (fst (closest p first others) < 200 * scaleFactor ->
          fx == - (0.1 * fade scaleFactor p first others) * dx
          /\ fy == - (0.1 * fade scaleFactor p first others) * dy)
    /\ (200 * scaleFactor <= fst (closest p first others) -> fx == 0 /\ fy == 0)
    /\ fx * dx + fy * dy <= 0.
Proof.
  intros Hmode Hty Hin.
  pose proof (engaged_fade _ _ _ _ Hin) as Hfade.
  rewrite (computeForce_engaged currentTheme time scaleFactor first others p draws Hin).
  destruct (towards_numbers p first others (proj1 Hin)) as (x & y & _ & _ & ->).
  set (dx := Point.x (snd (closest p first others)) - x).
  set (dy := Point.y (snd (closest p first others)) - y).
  rewrite Hty. unfold structureForce, ret. cbn [fst snd].
  rewrite (isMode_name _ _ Hmode). cbn [isMode modeName].
  change (jsstring_eqb (str "FRAGMENT") (str "WEAVE")) with false.
  change (jsstring_eqb (str "FRAGMENT") (str "CRYSTALLIZE")) with false.
  change (jsstring_eqb (str "FRAGMENT") (str "FRAGMENT")) with true.
  cbv iota.
  set (k := fade scaleFactor p first others) in *.
  exists dx, dy.
  destruct (Qltb_spec (fst (closest p first others)) (200 * scaleFactor)) as [Hnear | Hfar].
  - cbn [num_add num_sub num_mul].
    eexists; eexists. split; [reflexivity |]. split; [reflexivity |].
    split; [intros _; split; ring |].
    split; [intros Hge; lra |].
    nra.
  - exists 0, 0. split; [reflexivity |]. split; [reflexivity |].
    split; [intros Hlt; lra |].
    split; [intros _; split; reflexivity |].
    lra.
Qed.

Lemma fragment_repels_witness :
  exists dx dy fx fy : Q,
    towards steady nearTip [farTip] = (Num dx, Num dy)
    /\ computeForce (inMode FRAGMENT) 5000 1 [nearTip; farTip] steady
         (constantDraws 0.5)
       = Returns ((Num fx, Num fy), constantDraws 0.5)
    /\ fx * dx + fy * dy <= 0.
Proof.
  destruct (fragment_repels (host := exampleHost) (inMode FRAGMENT) 5000 1 nearTip
              [farTip] steady (constantDraws 0.5))
    as (dx & dy & fx & fy & Et & E & _ & _ & Hdot).
  - reflexivity.
  - reflexivity.
  - split; [split; discriminate |]. split; vm_compute; reflexivity.
  - exists dx, dy, fx, fy. split; [exact Et |]. split; [exact E | exact Hdot].
Defined.

(** X14: VOID: a STRUCTURE particle inside the interaction radius is pulled
    straight towards its closest fingertip, by 0.08 of the offset times the
    fade factor, with no sideways part. *)
Theorem void_attracts {host : Host} (currentTheme : VisualTheme)
    (time scaleFactor : Q) (first : Point) (others : list Point) (p : Particle)
    (draws : Stream) :
  isMode (mode currentTheme) VOID = true ->
  isStructure (Particle.type p) = true ->
  engaged scaleFactor p first others ->
  exists dx dy fx fy : Q,
    towards p first others = (Num dx, Num dy)
    /\ computeForce currentTheme time scaleFactor (first :: others) p draws
       = Returns ((Num fx, Num fy), draws)
    /\ fx == 0.08 * fade scaleFactor p first others * dx
    /\ fy == 0.08 * fade scaleFactor p first others * dy
    /\ 0 < 0.08 * fade scaleFactor p first others
    /\ dx * fy - dy * fx == 0.
Proof.
  intros Hmode Hty Hin.
  pose proof (engaged_fade _ _ _ _ Hin) as Hfade.
  rewrite (computeForce_engaged currentTheme time scaleFactor first others p draws Hin).
  destruct (towards_numbers p first others (proj1 Hin)) as (x & y & _ & _ & ->).
  set (dx := Point.x (snd (closest p first others)) - x).
  set (dy := Point.y (snd (closest p first others)) - y).
  rewrite Hty. unfold structureForce, ret. cbn [fst snd].
  rewrite (isMode_name _ _ Hmode). cbn [isMode modeName].
  change (jsstring_eqb (str "VOID") (str "WEAVE")) with false.
  change (jsstring_eqb (str "VOID") (str "CRYSTALLIZE")) with false.
  change (jsstring_eqb (str "VOID") (str "FRAGMENT")) with false.
  change (jsstring_eqb (str "VOID") (str "VOID")) with true.
  cbv iota. cbn [num_add num_sub num_mul].
  exists dx, dy. eexists; eexists. split; [reflexivity |]. split; [reflexivity |].
  split; [ring |]. split; [ring |]. split; [lra | ring].
Qed.

Lemma void_attracts_witness :
  exists dx dy fx fy : Q,
    towards steady nearTip [farTip] = (Num dx, Num dy)
    /\ computeForce (inMode VOID) 5000 1 [nearTip; farTip] steady (constantDraws 0.5)
       = Returns ((Num fx, Num fy), constantDraws 0.5)
    /\ fx == 0.08 * fade 1 steady nearTip [farTip] * dx
    /\ fy == 0.08 * fade 1 steady nearTip [farTip] * dy.
Proof.
  destruct (void_attracts (host := exampleHost) (inMode VOID) 5000 1 nearTip
              [farTip] steady (constantDraws 0.5))
    as (dx & dy & fx & fy & Et & E & Ex & Ey & _).
  - reflexivity.
  - reflexivity.
  - split; [split; discriminate |]. split; vm_compute; reflexivity.
  - exists dx, dy, fx, fy. split; [exact Et |]. split; [exact E |].
    split; [exact Ex | exact Ey].
Defined.

(** X15: WEAVE: the force on a STRUCTURE particle inside the interaction radius
    has a part along the offset to the closest fingertip, [0.02 * tension]
    times the fade factor, and a part across it of 0.05 times the fade factor
    that always turns the same way round the fingertip, whatever the
    tension. *)
Theorem weave_swirls {host : Host} (currentTheme : VisualTheme)
    (time scaleFactor : Q) (first : Point) (others : list Point) (p : Particle)
    (draws : Stream) :
  isMode (mode currentTheme) WEAVE = true ->
  isStructure (Particle.type p) = true ->
  engaged scaleFactor p first others ->
  exists dx dy fx fy : Q,
    towards p first others = (Num dx, Num dy)
    /\ computeForce currentTheme time scaleFactor (first :: others) p draws
       = Returns ((Num fx, Num fy), draws)
    /\ fx * dx + fy * dy
       == 0.02 * tension currentTheme * fade scaleFactor p first others
          * (dx * dx + dy * dy)
    /\ dx * fy - dy * fx
       == 0.05 * fade scaleFactor p first others * (dx * dx + dy * dy)
    /\ 0 <= dx * fy - dy * fx.
Proof.
  intros Hmode Hty Hin.
  pose proof (engaged_fade _ _ _ _ Hin) as Hfade.
  rewrite (computeForce_engaged currentTheme time scaleFactor first others p draws Hin).
  destruct (towards_numbers p first others (proj1 Hin)) as (x & y & _ & _ & ->).
  set (dx := Point.x (snd (closest p first others)) - x).
  set (dy := Point.y (snd (closest p first others)) - y).
  rewrite Hty. unfold structureForce, ret. cbn [fst snd].
  rewrite Hmode. cbn [num_add num_sub num_mul].
  set (k := fade scaleFactor p first others) in *.
  exists dx, dy. eexists; eexists. split; [reflexivity |]. split; [reflexivity |].
  split; [ring |]. split; [ring |].
  nra.
Qed.

Lemma weave_swirls_witness :
  exists dx dy fx fy : Q,
    towards steady nearTip [farTip] = (Num dx, Num dy)
    /\ computeForce DEFAULT_THEME 5000 1 [nearTip; farTip] steady (constantDraws 0.5)
       = Returns ((Num fx, Num fy), constantDraws 0.5)
    /\ 0 <= dx * fy - dy * fx.
Proof.
  destruct (weave_swirls (host := exampleHost) DEFAULT_THEME 5000 1 nearTip
              [farTip] steady (constantDraws 0.5))
    as (dx & dy & fx & fy & Et & E & _ & _ & Hturn).
  - reflexivity.
  - reflexivity.
  - split; [split; discriminate |]. split; vm_compute; reflexivity.
  - exists dx, dy, fx, fy. split; [exact Et |]. split; [exact E | exact Hturn].
Defined.

Lemma Math_round_near (q : Q) :
  - (1 # 2) < inject_Z (Math_round q) - q /\ inject_Z (Math_round q) - q <= 1 # 2.
Proof.
  unfold Math_round.
  pose proof (Qfloor_le (q + 0.5)) as Hle.
  pose proof (Qlt_floor (q + 0.5)) as Hlt.
  rewrite inject_Z_plus in Hlt. change (inject_Z 1) with 1 in Hlt.
  split; lra.
Qed.

Lemma snap_near (c snapSize : Q) :
  0 < snapSize ->
  Qabs (inject_Z (Math_round (c / snapSize)) * snapSize - c) <= snapSize / 2.
Proof.
  intros Hs.
  destruct (Math_round_near (c / snapSize)) as [Hlo Hhi].
  set (k := inject_Z (Math_round (c / snapSize))) in *.
  assert (Ec : c == (c / snapSize) * snapSize) by (field; lra).
  set (q := c / snapSize) in *.
  assert (E : k * snapSize - c == (k - q) * snapSize) by (rewrite Ec at 1; ring).
  assert (Ehalf : snapSize / 2 == (1 # 2) * snapSize) by (field; lra).
  assert (Hlow : 0 <= (k - q + (1 # 2)) * snapSize)
    by (apply Qmult_le_0_compat; lra).
  assert (Hhigh : 0 <= ((1 # 2) - (k - q)) * snapSize)
    by (apply Qmult_le_0_compat; lra).
  apply Qabs_Qle_condition. rewrite E, Ehalf. split; lra.
Qed.

(** On a grid with a spacing other than 0 the snap is the nearest multiple of
    the spacing. *)
Lemma snapTo_spaced (c snapSize : Q) :
  ~ snapSize == 0 ->
  snapTo c snapSize = Num (inject_Z (Math_round (c / snapSize)) * snapSize).
Proof.
  intros Hs. unfold snapTo.
  destruct (Qeq_bool snapSize 0) eqn:E; [| reflexivity].
  apply Qeq_bool_iff in E. contradiction.
Qed.



(** X17: STARDUST inside the interaction radius: two random draws jitter the force
    by at most half the entropy (times the scale) on each axis, around a pull
    of 0.002 of the offset to the closest fingertip times the fade factor.
    The pull is always there, since the inner test against 300 px repeats the
    interaction radius; and the mode of the theme plays no part. *)
Theorem stardust_drifts_to_fingertip {host : Host} (currentTheme : VisualTheme)
    (time scaleFactor : Q) (first : Point) (others : list Point) (p : Particle)
    (draws : Stream) :
  isStructure (Particle.type p) = false ->
  engaged scaleFactor p first others ->
  unitDraws draws -> 0 <= entropy currentTheme ->
  exists dx dy fx fy : Q,
    towards p first others = (Num dx, Num dy)
    /\ computeForce currentTheme time scaleFactor (first :: others) p draws
       = Returns ((Num fx, Num fy), fun n => draws (S (S n)))
    /\ Qabs (fx - 0.002 * fade scaleFactor p first others * dx)
       <= entropy currentTheme * scaleFactor / 2
    /\ Qabs (fy - 0.002 * fade scaleFactor p first others * dy)
       <= entropy currentTheme * scaleFactor / 2
    /\ forall v : JsValue,
         computeForce (set_mode v currentTheme) time scaleFactor (first :: others)
           p draws
         = computeForce currentTheme time scaleFactor (first :: others) p draws.
Proof.
  intros Hty Hin Hdraws He.
  assert (Hjitter : forall r, 0 <= r -> r < 1 ->
            Qabs ((r - 0.5) * entropy currentTheme * scaleFactor)
            <= entropy currentTheme * scaleFactor / 2).
  { intros r Hr0 Hr1. destruct Hin as (_ & Hs & _).
    assert (Hes : 0 <= entropy currentTheme * scaleFactor)
      by (apply Qmult_le_0_compat; lra).
    set (es := entropy currentTheme * scaleFactor) in *.
    assert (E : (r - 0.5) * entropy currentTheme * scaleFactor == (r - 0.5) * es)
      by (unfold es; ring).
    assert (Ehalf : es / 2 == (1 # 2) * es) by (field; lra).
    assert (Hlow : 0 <= r * es) by (apply Qmult_le_0_compat; lra).
    assert (Hhigh : 0 <= (1 - r) * es) by (apply Qmult_le_0_compat; lra).
    apply Qabs_Qle_condition. rewrite E, Ehalf. split; lra. }
  destruct (towards_numbers p first others (proj1 Hin)) as (x & y & _ & _ & Et).
  set (dx := Point.x (snd (closest p first others)) - x) in *.
  set (dy := Point.y (snd (closest p first others)) - y) in *.
  assert (Eforce : forall t : VisualTheme, entropy t = entropy currentTheme ->
            computeForce t time scaleFactor (first :: others) p draws
            = Returns ((Num (0 + (draws 0%nat - 0.5) * entropy currentTheme * scaleFactor
                             + dx * 0.002 * fade scaleFactor p first others),
                        Num (0 + (draws 1%nat - 0.5) * entropy currentTheme * scaleFactor
                             + dy * 0.002 * fade scaleFactor p first others)),
                       fun n => draws (S (S n)))).
  { intros t Eentropy.
    rewrite (computeForce_engaged t time scaleFactor first others p draws Hin).
    rewrite Hty, Et. unfold stardustForce, bind, Math_random, ret. rewrite Eentropy.
    destruct Hin as (_ & _ & Hd). apply Qltb_true in Hd. rewrite Hd. reflexivity. }
  exists dx, dy. eexists; eexists. split; [exact Et |].
  split; [exact (Eforce currentTheme eq_refl) |].
  split; [| split].
  - setoid_replace (0 + (draws 0%nat - 0.5) * entropy currentTheme * scaleFactor
                    + dx * 0.002 * fade scaleFactor p first others
                    - 0.002 * fade scaleFactor p first others * dx)
      with ((draws 0%nat - 0.5) * entropy currentTheme * scaleFactor) by ring.
    apply Hjitter; apply Hdraws.
  - setoid_replace (0 + (draws 1%nat - 0.5) * entropy currentTheme * scaleFactor
                    + dy * 0.002 * fade scaleFactor p first others
                    - 0.002 * fade scaleFactor p first others * dy)
      with ((draws 1%nat - 0.5) * entropy currentTheme * scaleFactor) by ring.
    apply Hjitter; apply Hdraws.
  - intros v. rewrite (Eforce (set_mode v currentTheme) eq_refl).
    rewrite (Eforce currentTheme eq_refl). reflexivity.
Qed.

Lemma stardust_drifts_to_fingertip_witness :
  computeForce (inMode VOID) 5000 1 [nearTip; farTip] mote (constantDraws 0.5)
  = computeForce DEFAULT_THEME 5000 1 [nearTip; farTip] mote (constantDraws 0.5).
Proof.
  destruct (stardust_drifts_to_fingertip (host := exampleHost) DEFAULT_THEME 5000 1
              nearTip [farTip] mote (constantDraws 0.5))
    as (dx & dy & fx & fy & _ & _ & _ & _ & Hmode).
  - reflexivity.
  - split; [split; discriminate |]. split; vm_compute; reflexivity.
  - apply halfDraws.
  - unfold Qle; cbn; lia.
  - exact (Hmode (JsString (modeName VOID))).
Defined.

(** * Further properties: frames without a hand *)

Lemma particleLoop_pointwise {host : Host} (currentTheme : VisualTheme) (f : Frame)
    (deltaTime dpr : Q) (tips : list Point) (R : Particle -> Particle -> Prop) :
  (forall p, total (updateParticle currentTheme f deltaTime dpr tips p) (R p)) ->
  forall (ps : list Particle) (i : nat),
    total (particleLoop currentTheme f deltaTime dpr tips i ps)
      (fun r => Forall2 R ps (fst r)).
Proof.
  intros Hstep ps. induction ps as [| p later IH]; intros i; cbn [particleLoop].
  - apply total_ret. constructor.
  - eapply total_bind; [apply Hstep |].
    intros p' Hp'. cbn beta.
    eapply total_bind; [apply IH |].
    intros rest Hrest. cbn beta.
    apply total_ret. cbn. constructor; assumption.
Qed.

Lemma updateParticle_coasting {host : Host} (currentTheme : VisualTheme) (f : Frame)
    (deltaTime scaleFactor : Q) (p : Particle) :
  total (updateParticle currentTheme f deltaTime scaleFactor [] p) (coasting p).
Proof.
  unfold updateParticle.
  eapply total_bind; [apply respawn_total |].
  intros p1 (Hid & Hlife). cbn beta.
  unfold computeForce, bind, ret. cbn beta.
  apply total_ret.
  assert (Evy : Particle.vy p1 = Particle.vy p).
  { destruct Hlife as [[_ ->] | [_ [_ (rx & ry & _ & _ & _ & _ & _ & E)]]];
      [reflexivity | exact E]. }
  assert (Ety : Particle.type p1 = Particle.type p).
  { destruct Hid as (_ & _ & E & _). exact E. }
  unfold coasting, wrap, integrate.
  cbn [Particle.vy Particle.type Particle.set_x Particle.set_y Particle.set_vx
       Particle.set_vy fst snd].
  rewrite Evy, Ety. split; [| reflexivity].
  destruct (Particle.vy p) as [vy |]; cbn; [ring | exact I].
Qed.

Lemma detectHands_calm {host : Host} (st : Visualizer) (f : Frame) (s : Stream) :
  handPoints st = [] -> handsSeen f = O ->
  exists st1,
    detectHands st f s = Returns ((st1, []), s)
    /\ handPoints st1 = [] /\ particles st1 = particles st.
Proof.
  unfold handsSeen, detectHands. intros Hnone Hseen.
  destruct (detection f) as [[hands |] |].
  - destruct hands; [| discriminate Hseen].
    eexists. split; [reflexivity |]. split; reflexivity.
  - eexists. split; [reflexivity |]. split; reflexivity.
  - exists st. split; [reflexivity |]. split; [exact Hnone | reflexivity].
Qed.

(** X18: With no fingertip on record and none seen, a frame leaves the vertical
    velocity of every particle to the damping alone: it is multiplied by 0.92
    (STRUCTURE) or 0.98 (STARDUST), a respawn included, whatever the theme.
    The frame asks for no theme and leaves no fingertip behind, so the next
    such frame does the same. *)
Theorem calm_frame_vertical_decay {host : Host} (currentTheme : VisualTheme)
    (st : Visualizer) (f : Frame) (draws : Stream) :
  handPoints st = [] -> handsSeen f = O -> unitDraws draws ->
  exists st' fx draws',
    render currentTheme st f draws = Returns (st', fx, draws')
    /\ unitDraws draws'
    /\ handPoints st' = [] /\ requests fx = []
    /\ Forall2 coasting (particles st) (particles st').
Proof.
  intros Hnone Hseen Hdraws. unfold render.
  destruct (detectHands_calm (set_lastTime (time f) st) f draws Hnone Hseen)
    as (st1 & E1 & Htips & Eps).
  unfold bind at 1. rewrite E1. cbn [fst snd]. rewrite Htips.
  set (dpr := if Qeq_bool (devicePixelRatio f) 0 then 1 else devicePixelRatio f).
  destruct (particleLoop_pointwise currentTheme f (time f - lastTime st) dpr []
              coasting
              (fun p => updateParticle_coasting currentTheme f _ dpr p)
              (particles st1) 0%nat draws Hdraws)
    as ([ps cmds] & draws' & E2 & Hdraws' & Hps).
  unfold bind. rewrite E2. unfold ret.
  eexists; eexists; eexists. split; [reflexivity |].
  split; [exact Hdraws' |]. split; [exact Htips |]. split; [reflexivity |].
  cbn [fst particles set_particles] in *.
  change (particles st1 = particles st) in Eps. rewrite <- Eps. exact Hps.
Qed.

Lemma calm_frame_vertical_decay_witness :
  exists st' fx draws',
    render DEFAULT_THEME mounted blindFrame (constantDraws 0.5)
    = Returns (st', fx, draws')
    /\ Forall2 coasting (particles mounted) (particles st').
Proof.
  destruct (calm_frame_vertical_decay (host := exampleHost) DEFAULT_THEME mounted
              blindFrame (constantDraws 0.5))
    as (st' & fx & draws' & E & _ & _ & _ & Hps).
  - reflexivity.
  - reflexivity.
  - apply halfDraws.
  - exists st', fx, draws'. split; [exact E | exact Hps].
Defined.

(** * Further properties: the particle array *)

Lemma particleLoop_length {host : Host} (currentTheme : VisualTheme) (f : Frame)
    (deltaTime dpr : Q) (tips : list Point) (ps : list Particle) (i : nat)
    (s : Stream) (r : list Particle * list Canvas2D * Stream) :
  particleLoop currentTheme f deltaTime dpr tips i ps s = Returns r ->
  List.length (fst (fst r)) = List.length ps.
Proof.
  revert i s r. induction ps as [| p later IH]; intros i s r E; cbn [particleLoop] in E.
  - injection E as <-. reflexivity.
  - apply bind_returns in E. destruct E as (p' & s1 & _ & E).
    apply bind_returns in E. destruct E as (rest & s2 & Erest & E).
    injection E as <-. cbn [fst List.length].
    pose proof (IH _ _ _ Erest) as Hlen. cbn [fst] in Hlen.
    rewrite Hlen. reflexivity.
Qed.

Lemma detectHands_particles {host : Host} (st : Visualizer) (f : Frame) (s : Stream)
    (r : Visualizer * list ThemeRequest * Stream) :
  detectHands st f s = Returns r -> particles (fst (fst r)) = particles st.
Proof.
  unfold detectHands.
  destruct (detection f) as [results |]; [| intros E; injection E as <-; reflexivity].
  intros E. apply bind_returns in E.
  destruct E as ([[tips joints] totalSpread] & s1 & _ & E).
  injection E as <-. cbn [fst].
  exact (proj1 (proj2 (geminiTrigger_spec _ totalSpread (time f)
                         (set_hands tips joints st)))).
Qed.

Lemma render_length {host : Host} (currentTheme : VisualTheme) (st : Visualizer)
    (f : Frame) (s : Stream) (r : Visualizer * Effects * Stream) :
  render currentTheme st f s = Returns r ->
  List.length (particles (fst (fst r))) = List.length (particles st).
Proof.
  unfold render. intros E.
  apply bind_returns in E. destruct E as (detected & s1 & Edet & E).
  apply bind_returns in E. destruct E as (updated & s2 & Eloop & E).
  injection E as <-. cbn [fst particles set_particles].
  apply particleLoop_length in Eloop. cbn [fst] in Eloop. rewrite Eloop.
  apply detectHands_particles in Edet. cbn [fst] in Edet. rewrite Edet.
  reflexivity.
Qed.

Lemma initParticles_length (width height dpr : Q) (s : Stream)
    (r : list Particle * Stream) :
  initParticles width height dpr s = Returns r -> List.length (fst r) = 450%nat.
Proof.
  assert (Hrepeat : forall (n : nat) (m : M Particle) (s0 : Stream)
                      (r0 : list Particle * Stream),
            repeatM n m s0 = Returns r0 -> List.length (fst r0) = n).
  { induction n as [| n IH]; intros m s0 r0 E; cbn [repeatM] in E.
    - injection E as <-. reflexivity.
    - apply bind_returns in E. destruct E as (a & s1 & _ & E).
      apply bind_returns in E. destruct E as (rest & s2 & Erest & E).
      injection E as <-. cbn [fst List.length].
      pose proof (IH _ _ _ Erest) as Hlen. cbn [fst] in Hlen.
      rewrite Hlen. reflexivity. }
  unfold initParticles. intros E.
  apply bind_returns in E. destruct E as (structure & s1 & Es & E).
  apply bind_returns in E. destruct E as (stardust & s2 & Ed & E).
  injection E as <-. cbn [fst].
  apply Hrepeat in Es. apply Hrepeat in Ed. cbn [fst] in *.
  rewrite length_app, Es, Ed. reflexivity.
Qed.

(** X19: The particle array changes length only on a resize: frames and theme
    responses keep the number of particles, a resize makes it 450.  So a run
    that goes on ends with 450 particles if the window was resized during it,
    and with as many as it began with otherwise. *)
Theorem particle_count_is_kept {host : Host} (events : list Event) (st : Visualizer)
    (draws : Stream) (st' : Visualizer) :
  finalState (run st events draws) = Some st' ->
  List.length (particles st')
  = if resized events then 450%nat else List.length (particles st).
Proof.
  revert st draws.
  induction events as [| e rest IH]; intros st draws Erun.
  - injection Erun as <-. reflexivity.
  - cbn [run] in Erun.
    destruct (step st e draws) as [st1 fx1 draws1 | |] eqn:Estep;
      try discriminate Erun.
    assert (Hrest : finalState (run st1 rest draws1) = Some st').
    { destruct (run st1 rest draws1); try discriminate Erun. exact Erun. }
    specialize (IH st1 draws1 Hrest). rewrite IH. unfold resized. cbn [existsb].
    fold (resized rest).
    destruct e as [f | now request api | width height dpr].
    + cbn [orb]. destruct (resized rest); [reflexivity |].
      cbn [step] in Estep.
      destruct (asVisualTheme (theme st)) as [currentTheme |]; [| discriminate Estep].
      destruct (render currentTheme st f draws) as [[[st1' fx1'] d1'] | error] eqn:Er;
        [| discriminate Estep].
      injection Estep as <- _ _.
      apply render_length in Er. exact Er.
    + cbn [orb]. destruct (resized rest); [reflexivity |].
      destruct (settled_continues st now request api draws st1 fx1 draws1 Estep)
        as (_ & _ & Eps & _).
      rewrite Eps. reflexivity.
    + cbn [orb]. destruct (resized rest); [reflexivity |].
      cbn [step] in Estep.
      destruct (initParticles width height dpr draws) as [[ps d1'] | error] eqn:Ei;
        [| discriminate Estep].
      injection Estep as <- _ _.
      apply initParticles_length in Ei. exact Ei.
Qed.

Lemma particle_count_is_kept_witness :
  exists st',
    finalState (run mounted sampleSession (constantDraws 0.5)) = Some st'
    /\ List.length (particles st') = 3%nat.
Proof.
  eexists. split; [vm_compute; reflexivity |].
  apply (particle_count_is_kept (host := exampleHost) sampleSession mounted
           (constantDraws 0.5)).
  vm_compute. reflexivity.
Defined.

(** * Further properties: the theme response *)

Lemma view_returns (v : JsValue) :
  view v = Returns tt
  <-> (exists q, field "tension" v = JsNumber q) /\ validChild (field "mode" v) = true.
Proof.
  unfold view. destruct (field "tension" v) as [| | b | q | text | items | fields];
    try (split; [discriminate | intros [(q & Eq) _]; discriminate Eq]).
  destruct (validChild (field "mode" v)).
  - split; [intros _; split; [exists q |]; reflexivity | reflexivity].
  - split; [discriminate | intros [_ E]; discriminate E].
Qed.

(** X20: Any response text that parses to a truthy JSON value is handed to
    [setTheme] without a look at its fields; the callback leaves particles and
    cooldown alone.  The status line changes only if the value has a string
    [description]; otherwise the callback throws after the theme is already
    replaced.  The component then renders with the new theme.  If its
    [tension] is a number and its [mode] a value React can display, the frame
    loop restarts at the time of the response; if not, that render throws and
    the component is unmounted. *)
Theorem truthy_response_is_installed {host : Host} (st : Visualizer) (now : Q)
    (request : ThemeRequest) (unit : N) (text : jsstring) (data : JsValue)
    (draws : Stream) :
  JSON_parse (unit :: text) = Some data -> truthy data = true ->
  let callback := onTheme data st in
  let settled :=
    step st (ThemeSettled now request (ApiResponse (Some (unit :: text)))) draws in
  (theme (fst (fst callback)) = data /\ snd (fst callback) = true
   /\ particles (fst (fst callback)) = particles st
   /\ lastThemeUpdate (fst (fst callback)) = lastThemeUpdate st
   /\ match descriptionUpper data with
      | Some status =>
          geminiStatus (fst (fst callback)) = status /\ snd callback = false
      | None =>
          geminiStatus (fst (fst callback)) = geminiStatus st /\ snd callback = true
      end)
  /\ match view data with
     | Returns _ =>
         settled
         = Continues (set_lastTime now (fst (fst callback)))
             {| drawn := []; requests := []; rejected := snd callback |} draws
     | Throws error => settled = Stops error
     end
  /\ (view data = Returns tt
      <-> (exists q, field "tension" data = JsNumber q)
          /\ validChild (field "mode" data) = true).
Proof.
  intros Eparse Htruthy callback settled. subst callback settled.
  cbn [step generateThemeFromGesture].
  rewrite Eparse. unfold onTheme. rewrite Htruthy.
  split; [| split; [| apply view_returns]].
  - destruct (descriptionUpper data) as [status |]; repeat split.
  - destruct (descriptionUpper data) as [status |];
      destruct (view data) as [[] | error]; reflexivity.
Qed.

Lemma truthy_response_is_installed_witness :
  theme (fst (fst (onTheme (JsObject []) mounted))) = JsObject []
  /\ step mounted (ThemeSettled 5200 sampleRequest (ApiResponse (Some (str "{}"))))
       (constantDraws 0.5)
     = Stops "TypeError".
Proof.
  destruct (truthy_response_is_installed (host := exampleHost) mounted 5200
              sampleRequest 123%N (str "}") (JsObject []) (constantDraws 0.5))
    as ((Etheme & _) & Estep & _).
  - reflexivity.
  - reflexivity.
  - split; [exact Etheme | exact Estep].
Defined.

(** * Further properties: colours and the wrap *)

Lemma parseInt16_one_digit (c : N) (d : Z) :
  hexDigit c = Some d -> parseInt16 [c] = Some d.
Proof.
  intros Hc.
  assert (Hall : forallb (fun u => match hexDigit u, parseInt16 [u] with
                                   | Some v, Some z => (z =? v)%Z
                                   | Some _, None => false
                                   | None, _ => true
                                   end) asciiUnits = true)
    by (vm_compute; reflexivity).
  rewrite forallb_forall in Hall.
  specialize (Hall c (hexDigit_ascii c d Hc)). cbv beta in Hall.
  rewrite Hc in Hall.
  destruct (parseInt16 [c]) as [z |]; [| discriminate Hall].
  apply Z.eqb_eq in Hall. rewrite Hall. reflexivity.
Qed.

(** X21: [hexToRgba] reads the code units 1 to 6 of its argument and nothing
    else.  When these are radix-16 digits, in either case, the channels are
    their values pair by pair, whatever the first unit is (it need not be a
    hash sign) and whatever follows the sixth digit (the alpha of
    [#RRGGBBAA], say). *)
Theorem hexToRgba_reads_units_1_to_6 {host : Host}
    (lead r1 r2 g1 g2 b1 b2 : N) (tail : jsstring) (d1 d2 d3 d4 d5 d6 : Z)
    (alpha : Q) :
  hexDigit r1 = Some d1 -> hexDigit r2 = Some d2 ->
  hexDigit g1 = Some d3 -> hexDigit g2 = Some d4 ->
  hexDigit b1 = Some d5 -> hexDigit b2 = Some d6 ->
  hexToRgba (lead :: r1 :: r2 :: g1 :: g2 :: b1 :: b2 :: tail) alpha
  = rgbaOf (16 * d1 + d2) (16 * d3 + d4) (16 * d5 + d6) alpha.
Proof.
  intros H1 H2 H3 H4 H5 H6.
  unfold hexToRgba, rgbaOf, rgbaText, slice. cbn [Nat.sub skipn firstn].
  rewrite (proj1 (parseInt16_two_digits r1 r2 d1 d2 H1 H2)).
  rewrite (proj1 (parseInt16_two_digits g1 g2 d3 d4 H3 H4)).
  rewrite (proj1 (parseInt16_two_digits b1 b2 d5 d6 H5 H6)).
  reflexivity.
Qed.

Lemma hexToRgba_reads_units_1_to_6_witness :
  hexToRgba (str "xd4Af37ff") 0.5 = rgbaOf 212 175 55 0.5.
Proof.
  apply (hexToRgba_reads_units_1_to_6 (host := exampleHost) 120 100 52 65 102 51 55
           (str "ff") 13 4 10 15 3 7 0.5); reflexivity.
Defined.

(** X22: The three-digit shorthand [#RGB] is not expanded: the red channel is
    read from the digits R and G together, the green channel from B alone,
    and the blue channel is NaN. *)
Theorem hexToRgba_shorthand_is_misread {host : Host} (lead r g b : N)
    (dr dg db : Z) (alpha : Q) :
  hexDigit r = Some dr -> hexDigit g = Some dg -> hexDigit b = Some db ->
  hexToRgba [lead; r; g; b] alpha
  = rgbaText (Some (16 * dr + dg)%Z) (Some db) None alpha.
Proof.
  intros Hr Hg Hb.
  unfold hexToRgba, rgbaText, slice. cbn [Nat.sub skipn firstn].
  rewrite (proj1 (parseInt16_two_digits r g dr dg Hr Hg)).
  rewrite (parseInt16_one_digit b db Hb).
  reflexivity.
Qed.

Lemma hexToRgba_shorthand_is_misread_witness :
  hexToRgba (str "#FFF") 0.5 = str "rgba(255, 15, NaN, 0.5)".
Proof.
  apply (hexToRgba_shorthand_is_misread (host := exampleHost) 35 70 70 70 15 15 15 0.5);
    reflexivity.
Defined.

Lemma wrapCoord_settled (c : number) (bound : Q) :
  wrapCoord (wrapCoord c bound) bound = wrapCoord c bound.
Proof.
  destruct c as [c |]; [| reflexivity].
  unfold wrapCoord. cbn [num_ltb].
  assert (Ebb : Qltb bound bound = false) by (apply Qltb_false; lra).
  assert (E00 : Qltb 0 0 = false) by (apply Qltb_false; lra).
  destruct (Qltb c 0) eqn:Ec; cbn [num_ltb].
  - rewrite Ebb. cbn [num_ltb]. destruct (Qltb bound 0); cbn [num_ltb];
      rewrite ?Ebb; reflexivity.
  - destruct (Qltb bound c) eqn:Ebc; cbn [num_ltb].
    + rewrite E00. destruct (Qltb bound 0); reflexivity.
    + rewrite Ec. cbn [num_ltb]. rewrite Ebc. reflexivity.
Qed.

(** X23: The wrap moves a particle only if it has left the canvas: one inside
    the closed box is left as it is.  And wrapping twice is wrapping once. *)
Theorem wrap_only_moves_strays (width height : Q) (p : Particle) :
  (inBox width height p -> wrap width height p = p)
  /\ wrap width height (wrap width height p) = wrap width height p.
Proof.
  split.
  - intros [[Hx0 Hx1] [Hy0 Hy1]]. destruct p as [x y vx vy size color life maxLife ty].
    unfold wrap, wrapCoord.
    cbn [Particle.x Particle.y Particle.set_x Particle.set_y
         Particle.vx Particle.vy Particle.size Particle.color
         Particle.life Particle.maxLife Particle.type] in *.
    destruct x as [x |], y as [y |]; cbn [num_le] in *; try contradiction.
    cbn [num_ltb].
    apply Qltb_false in Hx0, Hx1, Hy0, Hy1.
    rewrite Hx0, Hy0. cbn [num_ltb]. rewrite Hx1, Hy1. reflexivity.
  - unfold wrap. cbn [Particle.x Particle.y Particle.set_x Particle.set_y
                      Particle.vx Particle.vy Particle.size Particle.color
                      Particle.life Particle.maxLife Particle.type].
    rewrite !wrapCoord_settled. reflexivity.
Qed.

Lemma wrap_only_moves_strays_witness : wrap 800 600 steady = steady.
Proof.
  apply (proj1 (wrap_only_moves_strays 800 600 steady)).
  unfold inBox, steady. cbn. unfold Qle; cbn; lia.
Defined.

(** * Positions that stay numbers *)

Section Numeric.

Context {host : Host}.

Variable currentTheme : VisualTheme.
Variable scaleFactor : Q.

Hypothesis grid_spaced : gridSpaced currentTheme.
Hypothesis scale_not_zero : ~ scaleFactor == 0.

Lemma structureForce_numeric (time geometryDistance closestDist force dx dy : Q)
    (p : Particle) :
  geometryDistance = geometryScale currentTheme * scaleFactor ->
  placed p ->
  exists fx fy : Q,
    structureForce currentTheme time scaleFactor geometryDistance closestDist
      force dx dy p
    = (Num fx, Num fy).
Proof.
  intros -> Hp. destruct (placed_numbers p Hp) as (x & y & Ex & Ey).
  unfold structureForce. rewrite Ex, Ey.
  destruct (isMode (mode currentTheme) WEAVE);
    [eexists; eexists; reflexivity |].
  destruct (isMode (mode currentTheme) CRYSTALLIZE) eqn:Ecrystal.
  - assert (Hs : ~ geometryScale currentTheme * scaleFactor == 0).
    { intros E. apply Qmult_integral in E.
      destruct E as [E | E]; [exact (grid_spaced Ecrystal E) | exact (scale_not_zero E)]. }
    unfold snapTo.
    destruct (Qeq_bool (geometryScale currentTheme * scaleFactor) 0) eqn:E.
    + apply Qeq_bool_iff in E. contradiction.
    + eexists; eexists; reflexivity.
  - destruct (isMode (mode currentTheme) FRAGMENT).
    + destruct (Qltb closestDist (200 * scaleFactor)); eexists; eexists; reflexivity.
    + destruct (isMode (mode currentTheme) VOID); eexists; eexists; reflexivity.
Qed.

Lemma computeForce_numeric (time : Q) (tips : list Point) (p : Particle) :
  placed p ->
  total (computeForce currentTheme time scaleFactor tips p)
    (fun force => exists fx fy : Q, force = (Num fx, Num fy)).
Proof.
  intros Hp. destruct (placed_numbers p Hp) as (x & y & Ex & Ey).
  unfold computeForce. destruct tips as [| first rest].
  - apply total_ret. rewrite Ey. eexists; eexists; reflexivity.
  - destruct (nearestTarget p (first :: rest) first) as [closestDist target].
    destruct (Qltb closestDist (300 * scaleFactor));
      [| apply total_ret; eexists; eexists; reflexivity].
    destruct (isStructure (Particle.type p)).
    + apply total_ret. rewrite Ex, Ey. cbn [num_sub].
      apply structureForce_numeric; [reflexivity | exact Hp].
    + rewrite Ex, Ey. cbn [num_sub]. unfold stardustForce.
      eapply total_bind; [apply total_random |]. intros r1 _. cbn beta.
      eapply total_bind; [apply total_random |]. intros r2 _. cbn beta.
      destruct (Qltb closestDist (300 * scaleFactor)); apply total_ret;
        eexists; eexists; reflexivity.
Qed.

Lemma respawn_numeric (width height : Q) (tips : list Point) (p : Particle) :
  numeric p ->
  total (respawn width height scaleFactor tips p) numeric.
Proof.
  intros Hp s Hs.
  destruct (respawn_total width height scaleFactor tips p s Hs)
    as (p' & s' & E & Hs' & _ & Hcases).
  exists p', s'. split; [exact E |]. split; [exact Hs' |].
  destruct Hcases as [[_ ->] | [_ [_ Hwhere]]]; [exact Hp |].
  destruct Hp as (_ & Hvx & Hvy).
  destruct tips as [| t0 tips'].
  - destruct Hwhere as (rx & ry & _ & _ & Ex & Ey & Evx & Evy).
    unfold numeric, placed. rewrite Ex, Ey, Evx, Evy.
    repeat split; try discriminate; assumption.
  - destruct Hwhere as (source & rx & ry & rvx & rvy & _ & _ & _ & _ & _
                        & Ex & Ey & Evx & Evy).
    unfold numeric, placed. rewrite Ex, Ey, Evx, Evy.
    repeat split; discriminate.
Qed.

Lemma integrate_numeric (fx fy : Q) (p : Particle) :
  numeric p -> numeric (integrate fx fy p).
Proof.
  unfold numeric, placed, integrate.
  cbn [Particle.x Particle.y Particle.vx Particle.vy Particle.type
       Particle.set_x Particle.set_y Particle.set_vx Particle.set_vy].
  destruct (Particle.x p), (Particle.y p), (Particle.vx p), (Particle.vy p);
    cbn; intros ((Hx & Hy) & Hvx & Hvy); try congruence.
  repeat split; discriminate.
Qed.

Lemma wrap_numeric (width height : Q) (p : Particle) :
  numeric p -> numeric (wrap width height p).
Proof.
  intros (Hp & Hvx & Hvy). split; [apply wrap_placed; exact Hp |].
  split; assumption.
Qed.

Lemma updateParticle_numeric (f : Frame) (deltaTime : Q) (tips : list Point)
    (p : Particle) :
  numeric p ->
  total (updateParticle currentTheme f deltaTime scaleFactor tips p) numeric.
Proof.
  intros Hp. unfold updateParticle.
  eapply total_bind; [apply respawn_numeric; exact Hp |].
  intros p1 Hp1. cbn beta.
  eapply total_bind; [apply computeForce_numeric; apply Hp1 |].
  intros force (fx & fy & ->). cbn beta.
  apply total_ret. apply wrap_numeric, integrate_numeric, Hp1.
Qed.

Lemma updateParticle_keeps_numbers (f : Frame) (deltaTime : Q) (tips : list Point)
    (p : Particle) :
  0 <= width f -> 0 <= height f ->
  total (updateParticle currentTheme f deltaTime scaleFactor tips p)
    (fun p' => numeric p -> numeric p').
Proof.
  intros Hw Hh s Hs.
  destruct (updateParticle_total currentTheme f deltaTime scaleFactor tips p Hw Hh s Hs)
    as (p' & s' & E & Hs' & _).
  exists p', s'. split; [exact E |]. split; [exact Hs' |].
  intros Hp.
  destruct (updateParticle_numeric f deltaTime tips p Hp s Hs)
    as (p'' & s'' & E' & _ & Hnum).
  rewrite E in E'. injection E' as -> _. exact Hnum.
Qed.

End Numeric.

Lemma Forall2_carries {A : Type} (P : A -> Prop) (l l' : list A) :
  Forall2 (fun a a' => P a -> P a') l l' -> Forall P l -> Forall P l'.
Proof.
  induction 1 as [| a a' l l' Ha _ IH]; intros Hl; [constructor |].
  inversion Hl; subst. constructor; [apply Ha; assumption | apply IH; assumption].
Qed.

Lemma afterDetection_particles {host : Host} (st : Visualizer) (f : Frame) :
  particles (fst (afterDetection st f)) = particles st.
Proof.
  unfold afterDetection.
  destruct (detection f) as [[hands |] |]; [| | reflexivity].
  - destruct (collected (width f) (height f) hands ([], [], 0))
      as [[tips joints] total].
    exact (proj1 (proj2 (geminiTrigger_spec (List.length hands) total (time f)
                           (set_hands tips joints st)))).
  - exact (proj1 (proj2 (geminiTrigger_spec O 0 (time f) (set_hands [] [] st)))).
Qed.

(** A frame keeps the particles that are numbers so, on a grid with a
    spacing. *)
Lemma render_numeric {host : Host} (currentTheme : VisualTheme) (st : Visualizer)
    (f : Frame) (draws : Stream) (st' : Visualizer) (fx : Effects) (draws' : Stream) :
  sensed f -> 0 <= width f -> 0 <= height f -> unitDraws draws ->
  gridSpaced currentTheme -> Forall numeric (particles st) ->
  render currentTheme st f draws = Returns (st', fx, draws') ->
  Forall numeric (particles st').
Proof.
  intros Hsensed Hw Hh Hdraws Hgrid Hps E.
  destruct (render_after_detection currentTheme st f draws Hsensed Hw Hh Hdraws)
    as (ps & cmds & d' & E' & Eloop & _).
  rewrite E' in E. injection E as <- _ _. cbn [particles set_particles].
  set (dpr := if Qeq_bool (devicePixelRatio f) 0 then 1 else devicePixelRatio f) in *.
  assert (Hdpr : ~ dpr == 0).
  { unfold dpr. destruct (Qeq_bool (devicePixelRatio f) 0) eqn:Ez.
    - intros H. discriminate H.
    - intros H. apply Qeq_bool_iff in H. congruence. }
  destruct (particleLoop_pointwise currentTheme f (time f - lastTime st) dpr
              (handPoints (fst (afterDetection (set_lastTime (time f) st) f)))
              (fun p p' => numeric p -> numeric p')
              (fun p => updateParticle_keeps_numbers currentTheme dpr Hgrid Hdpr f
                          (time f - lastTime st) _ p Hw Hh)
              (particles (fst (afterDetection (set_lastTime (time f) st) f)))
              0%nat draws Hdraws)
    as ([ps2 cmds2] & d2 & E2 & _ & H2).
  rewrite Eloop in E2. injection E2 as <- _ _. cbn [fst] in H2.
  rewrite afterDetection_particles in H2.
  change (particles (set_lastTime (time f) st)) with (particles st) in H2.
  exact (Forall2_carries numeric _ _ H2 Hps).
Qed.



